(** * Document-Signature-App: coordinate normalisation, capture gating,
      signing status and PDF stamping

    A shallow embedding of the TypeScript sources

    - [supabase/functions/download-signed-document/index.ts] (the stamper),
    - [DocumentViewer] (field placement: [handleMoveSignature], overlay),
    - [components/pdf/SignatureField.tsx] (drag handling),
    - [components/pdf/SignatureCapture.tsx] (signature capture),
    - [pages/SignDocument.tsx] (signing and rejecting),

    followed by the properties of the specification that concern them. *)

From Stdlib Require Import ZArith QArith Qminmax Qabs Qround Qpower.
From Stdlib Require Import Lqa Lia List Bool.
From Stdlib Require Import String Ascii DecimalString.
From Stdlib Require Import Floats.PrimFloat Floats.SpecFloat Floats.FloatOps.
Import ListNotations.

Open Scope string_scope.
Open Scope list_scope.
Open Scope Q_scope.

Set Implicit Arguments.
Set Warnings "-inexact-float".

(* ================================================================== *)
(** * JavaScript values *)
(* ================================================================== *)

Module JS.

(** ** Numbers

    The sources compute with JavaScript numbers.  The operations the code
    uses are collected in one interface with three implementations:

    - [binary64]: IEEE 754 double precision, bit for bit what the engine
      computes (the kernel's primitive floats);
    - [xrat]: the same operations with every finite result exact (a
      rational), and the special values NaN, +Infinity, -Infinity kept with
      their IEEE rules.  Rounding, overflow and the sign of zero are
      abstracted; laws on signs, comparisons and special values are stated
      on this one;
    - [rfloat]: the exact result of each operation rounded to the nearest
      binary64 number, ties to even, with overflow to the infinities and
      gradual underflow.  Only the sign of zero is abstracted; laws on the
      size of rounding errors are stated on this one. *)

Class Number (num : Type) : Type := {
  zero : num;                      (* the literal 0 *)
  add : num -> num -> num;         (* a + b *)
  sub : num -> num -> num;         (* a - b *)
  mul : num -> num -> num;         (* a * b *)
  div : num -> num -> num;         (* a / b *)
  gtb : num -> num -> bool;        (* a > b *)
  max : num -> num -> num;         (* Math.max(a, b) *)
  truthy : num -> bool;            (* ToBoolean: false on 0 and NaN *)
  is_nan : num -> bool;            (* Number.isNaN *)
  is_finite : num -> bool;         (* Number.isFinite *)
}.

Declare Scope js_scope.
Delimit Scope js_scope with js.
Infix "+" := add : js_scope.
Infix "-" := sub : js_scope.
Infix "*" := mul : js_scope.
Infix "/" := div : js_scope.
Infix ">?" := gtb (at level 70, no associativity) : js_scope.

(** [a || b] on numbers. *)
Definition or_else {num} `{Number num} (a b : num) : num :=
  if truthy a then a else b.

(** *** IEEE 754 binary64 *)

Definition float_max (a b : float) : float :=
  if PrimFloat.is_nan a || PrimFloat.is_nan b then PrimFloat.nan
  else if PrimFloat.ltb a b then b
  else if PrimFloat.ltb b a then a
  else if PrimFloat.get_sign a then b else a.

#[export] Instance binary64 : Number float := {|
  zero := PrimFloat.zero;
  add := PrimFloat.add;
  sub := PrimFloat.sub;
  mul := PrimFloat.mul;
  div := PrimFloat.div;
  gtb := fun a b => PrimFloat.ltb b a;
  max := float_max;
  truthy := fun a => negb (PrimFloat.is_nan a || PrimFloat.is_zero a);
  is_nan := PrimFloat.is_nan;
  is_finite := PrimFloat.is_finite;
|}.

(** *** Exact arithmetic with the IEEE special values *)

Inductive xrat : Type :=
| NaN : xrat
| Inf (negative : bool) : xrat
| Fin (q : Q) : xrat.

Definition Qneg (q : Q) : bool := if Qlt_le_dec q 0 then true else false.
Definition Qzero (q : Q) : bool := Qeq_bool q 0.

Definition xopp (a : xrat) : xrat :=
  match a with
  | NaN => NaN
  | Inf s => Inf (negb s)
  | Fin q => Fin (- q)
  end.

Definition xadd (a b : xrat) : xrat :=
  match a, b with
  | NaN, _ | _, NaN => NaN
  | Inf s, Inf t => if Bool.eqb s t then Inf s else NaN
  | Inf s, Fin _ | Fin _, Inf s => Inf s
  | Fin p, Fin q => Fin (p + q)
  end.

Definition xmul (a b : xrat) : xrat :=
  match a, b with
  | NaN, _ | _, NaN => NaN
  | Inf s, Inf t => Inf (xorb s t)
  | Inf s, Fin q | Fin q, Inf s => if Qzero q then NaN else Inf (xorb s (Qneg q))
  | Fin p, Fin q => Fin (p * q)
  end.

Definition xdiv (a b : xrat) : xrat :=
  match a, b with
  | NaN, _ | _, NaN => NaN
  | Inf _, Inf _ => NaN
  | Inf s, Fin q => Inf (xorb s (Qneg q))
  | Fin _, Inf _ => Fin 0
  | Fin p, Fin q =>
      if Qzero q then (if Qzero p then NaN else Inf (Qneg p))
      else Fin (p / q)
  end.

(** [a < b], false as soon as one side is NaN. *)
Definition xltb (a b : xrat) : bool :=
  match a, b with
  | NaN, _ | _, NaN => false
  | Inf s, Inf t => s && negb t
  | Inf s, Fin _ => s
  | Fin _, Inf t => negb t
  | Fin p, Fin q => if Qlt_le_dec p q then true else false
  end.

Definition xmax (a b : xrat) : xrat :=
  match a, b with
  | NaN, _ | _, NaN => NaN
  | _, _ => if xltb a b then b else a
  end.

Definition xtruthy (a : xrat) : bool :=
  match a with
  | NaN => false
  | Inf _ => true
  | Fin q => negb (Qzero q)
  end.

#[export] Instance exact : Number xrat := {|
  zero := Fin 0;
  add := xadd;
  sub := fun a b => xadd a (xopp b);
  mul := xmul;
  div := xdiv;
  gtb := fun a b => xltb b a;
  max := xmax;
  truthy := xtruthy;
  is_nan := fun a => match a with NaN => true | _ => false end;
  is_finite := fun a => match a with Fin _ => true | _ => false end;
|}.

(** Equality of exact numbers: finite values as rationals. *)
Definition xeq (a b : xrat) : Prop :=
  match a, b with
  | NaN, NaN => True
  | Inf s, Inf t => s = t
  | Fin p, Fin q => p == q
  | _, _ => False
  end.


Definition nonneg (a : xrat) : Prop :=
  match a with
  | Fin q => 0 <= q
  | Inf s => s = false
  | NaN => False
  end.

(** *** Correctly rounded arithmetic *)

(** [2^e]. *)
Definition pow2 (e : Z) : Q := 2 ^ e.

(** The integer part of the binary logarithm of a positive rational. *)
Definition ilog2 (q : Q) : Z :=
  let k := (Z.log2 (Qnum q) - Z.log2 (Zpos (Qden q)))%Z in
  if Qle_bool (pow2 k) q then k else (k - 1)%Z.

(** The nearest integer, the even one of two at the same distance. *)
Definition round_even (q : Q) : Z :=
  let fl := Qfloor q in
  match Qcompare (q - inject_Z fl) (1 # 2) with
  | Lt => fl
  | Gt => (fl + 1)%Z
  | Eq => if Z.even fl then fl else (fl + 1)%Z
  end.

(** Exponent of the unit in the last place of the binary64 numbers next
    to a positive [q]: 53 significant bits, and no unit below 2^-1074. *)
Definition ulp_exp (q : Q) : Z := Z.max (ilog2 q - 52) (-1074).

(** The multiple of that unit nearest to a positive [q]. *)
Definition nearest (q : Q) : Q :=
  inject_Z (round_even (q / pow2 (ulp_exp q))) * pow2 (ulp_exp q).

(** The binary64 number an exact result [q] is rounded to: the nearest,
    ties to even, and an infinity from 2^1024 on. *)
Definition b64 (q : Q) : xrat :=
  if Qzero q then Fin 0
  else
    let r := nearest (Qabs q) in
    if Qle_bool (pow2 1024) r then Inf (Qneg q)
    else Fin (if Qneg q then - r else r).

Definition xround (a : xrat) : xrat :=
  match a with
  | Fin q => b64 q
  | _ => a
  end.

(** Numbers computed with rounding. *)
Definition rfloat : Type := xrat.

#[export] Typeclasses Opaque rfloat.

#[export] Instance correctly_rounded : Number rfloat := {|
  zero := Fin 0;
  add := fun a b => xround (xadd a b);
  sub := fun a b => xround (xadd a (xopp b));
  mul := fun a b => xround (xmul a b);
  div := fun a b => xround (xdiv a b);
  gtb := fun a b => xltb b a;
  max := xmax;
  truthy := xtruthy;
  is_nan := fun a => match a with NaN => true | _ => false end;
  is_finite := fun a => match a with Fin _ => true | _ => false end;
|}.

(** The unit roundoff of binary64, half its smallest positive number, and
    a bound under which no result overflows. *)
Definition unit_roundoff : Q := pow2 (-53).
Definition underflow : Q := pow2 (-1075).
Definition largest : Q := pow2 1023.

(** The value of a binary64 number. *)
Definition of_float (f : float) : xrat :=
  match Prim2SF f with
  | S754_zero _ => Fin 0
  | S754_infinity s => Inf s
  | S754_nan => NaN
  | S754_finite s m e =>
      Fin ((if s then - inject_Z (Z.pos m) else inject_Z (Z.pos m)) * pow2 e)
  end.

Definition xeqb (a b : xrat) : bool :=
  match a, b with
  | NaN, NaN => true
  | Inf s, Inf t => Bool.eqb s t
  | Fin p, Fin q => Qeq_bool p q
  | _, _ => false
  end.

(** ** Strings

    A string is a sequence of code units; the model keeps the units
    0..255. *)

(** ToBoolean on strings: only the empty string is falsy. *)
Definition truthy_str (s : string) : bool :=
  match s with
  | EmptyString => false
  | String _ _ => true
  end.

(** ToBoolean on [string | null | undefined]. *)
Definition truthy_opt (s : option string) : bool :=
  match s with
  | None => false
  | Some s => truthy_str s
  end.

(** The code units below 256 that [String.prototype.trim] strips: TAB, LF,
    VT, FF, CR, SPACE and NO-BREAK SPACE. *)
Definition is_white (c : ascii) : bool :=
  let n := nat_of_ascii c in
  ((9 <=? n) && (n <=? 13) || (n =? 32) || (n =? 160))%nat.

Fixpoint trim_start (s : string) : string :=
  match s with
  | EmptyString => EmptyString
  | String c r => if is_white c then trim_start r else s
  end.

(** Strips trailing white space: a unit is kept when it is not white or
    when something is kept after it. *)
Fixpoint trim_end (s : string) : string :=
  match s with
  | EmptyString => EmptyString
  | String c r =>
      match trim_end r with
      | EmptyString => if is_white c then EmptyString else String c EmptyString
      | r' => String c r'
      end
  end.

Definition trim (s : string) : string := trim_end (trim_start s).

(** [s.replace(pat, by)] with a string pattern: the first occurrence only. *)
Fixpoint replace_first (pat by_ s : string) : string :=
  match String.prefix pat s, s with
  | true, _ => by_ ++ String.substring (String.length pat)
                       (String.length s - String.length pat) s
  | false, EmptyString => EmptyString
  | false, String c r => String c (replace_first pat by_ r)
  end.

(** Decimal rendering of a non-negative integer. *)
Definition show_N (n : N) : string := NilEmpty.string_of_uint (N.to_uint n).

(** [arr[i]] for an integer [i]: [undefined] outside [0 .. length-1]. *)
Definition index {A} (arr : list A) (i : Z) : option A :=
  if (i <? 0)%Z then None else nth_error arr (Z.to_nat i).

End JS.

Import JS.

Open Scope Z_scope.

(* ================================================================== *)
(** * Data model *)
(* ================================================================== *)

Module Model.

(** Column [status] of table [signatures]:
    [CHECK (status IN ('pending', 'signed', 'rejected'))]. *)
Inductive Status : Type := pending | signed | rejected.

Definition status_eqb (a b : Status) : bool :=
  match a, b with
  | pending, pending | signed, signed | rejected, rejected => true
  | _, _ => false
  end.

(** A row of table [signatures] (interface [Signature] of the pages). *)
Record Signature (num : Type) : Type := {
  id : string;
  document_id : string;
  signer_email : string;
  signer_name : option string;
  status : Status;
  x_position : num;
  y_position : num;
  page_number : Z;
  width : num;
  height : num;
  signed_at : option string;
  signature_data : option string;
  rejection_reason : option string;
}.

(** A row of table [documents], with the columns the stamper selects. *)
Record DocumentRow : Type := {
  doc_id : string;
  file_path : string;
  file_name : string;
}.

End Model.

Import Model.

(* ================================================================== *)
(** * What the stamper uses of pdf-lib *)
(* ================================================================== *)

Module Pdf.

(** Options of [page.drawImage]: bottom-left corner and size, in points. *)
Record ImageOptions (num : Type) : Type := {
  opt_x : num;
  opt_y : num;
  opt_width : num;
  opt_height : num;
}.

(** A page: its size, its original content (opaque), and the images drawn
    on it, oldest first. *)
Record PDFPage (num image : Type) : Type := {
  getWidth : num;
  getHeight : num;
  content : string;
  drawn : list (image * ImageOptions num);
}.

(** A document: its pages and the images embedded in it, oldest first. *)
Record PDFDocument (num image : Type) : Type := {
  getPages : list (PDFPage num image);
  embedded : list image;
}.

(** The page with one more image drawn on it. *)
Definition with_image {num image} (page : PDFPage num image)
    (img : image) (opts : ImageOptions num) : PDFPage num image :=
  {| getWidth := getWidth page;
     getHeight := getHeight page;
     content := content page;
     drawn := drawn page ++ [(img, opts)] |}.

(** The check [page.drawImage] of pdf-lib 1.17.1 starts with
    ([assertOrUndefined(options.x, 'options.x', ['number'])], and the same
    for [y], [width] and [height]): a value passes as a number when it is
    not NaN; the infinities pass. *)
Definition accepted {num} `{Number num} (opts : ImageOptions num) : bool :=
  negb (is_nan (opt_x opts)) && negb (is_nan (opt_y opts))
  && negb (is_nan (opt_width opts)) && negb (is_nan (opt_height opts)).

(** [page.drawImage(image, options)]: [None] when the check throws. *)
Definition drawImage {num image} `{Number num} (page : PDFPage num image)
    (img : image) (opts : ImageOptions num) : option (PDFPage num image) :=
  if accepted opts then Some (with_image page img opts) else None.

(** All images drawn in a document, page after page. *)
Definition images_drawn {num image} (doc : PDFDocument num image)
    : list (image * ImageOptions num) :=
  flat_map (@drawn num image) (getPages doc).

End Pdf.

Import Pdf.

(** Errors as thrown values. *)
Module Throw.

Definition result (E A : Type) : Type := (E + A)%type.

Definition bind {E A B} (m : result E A) (k : A -> result E B) : result E B :=
  match m with
  | inl e => inl e
  | inr a => k a
  end.

Definition throw {E A} (e : E) : result E A := inl e.
Definition ret {E A} (a : A) : result E A := inr a.

(** [for (const x of xs) body], leaving at the first throw. *)
Fixpoint for_of {E S A} (body : S -> A -> result E S) (xs : list A) (s : S)
    : result E S :=
  match xs with
  | [] => inr s
  | x :: rest => bind (body s x) (for_of body rest)
  end.

End Throw.

Import Throw.

Declare Scope throw_scope.
Delimit Scope throw_scope with throw.
Notation "x <- m ;; k" := (bind m (fun x => k))
  (at level 61, m at next level, right associativity) : throw_scope.

(* ================================================================== *)
(** * The stamper: edge function [download-signed-document] *)
(* ================================================================== *)

Module Stamper.

Section Handler.

Context {num : Type} `{Number num}.

(** External capabilities: the bytes of a file, an embedded image, and the
    three pdf-lib entry points that parse, decode and serialise. *)
Variables Bytes PDFImage : Type.
Variable load : Bytes -> option (PDFDocument num PDFImage).
Variable embedPng : string -> option PDFImage.
Variable save : PDFDocument num PDFImage -> Bytes.
Variable getPublicUrl : string -> string.

(** What the [try] block can throw; the response carries its [message]. *)
Inductive Thrown : Type :=
| DocumentIdRequired            (* new Error('Document ID is required.') *)
| RequestJson                   (* req.json() rejected *)
| DocError                      (* documents ... .single() *)
| FileError                     (* storage download *)
| SigError (e : string)         (* signatures query *)
| LoadError                     (* PDFDocument.load *)
| EmbedError (data : string)    (* pdfDoc.embedPng *)
| DrawError                     (* page.drawImage: an option is NaN *)
| UploadError (e : string).     (* storage upload *)

(** The service behind [supabaseAdmin]: two tables, two buckets, and the
    faults its calls may report. *)
Record Backend : Type := {
  documents : list DocumentRow;
  signatures : list (Signature num);
  bucket_documents : list (string * Bytes);
  bucket_signed : list (string * Bytes);
  sig_fault : option string;
  upload_fault : option string;
}.

Record Request : Type := {
  method : string;
  (** [await req.json()]: [None] when it rejects, else property
      [document_id] of the body. *)
  json : option (option string);
}.

Inductive Body : Type :=
| Ok_text                       (* 'ok' *)
| SignedUrl (publicUrl : string)  (* { signedUrl } *)
| ErrorBody (error : Thrown).   (* { error: error.message } *)

Record Response : Type := {
  resp_status : Z;
  resp_body : Body;
}.

Fixpoint lookup {A} (k : string) (l : list (string * A)) : option A :=
  match l with
  | [] => None
  | (k', v) :: r => if String.eqb k k' then Some v else lookup k r
  end.

(** Upload with [upsert: true]. *)
Fixpoint upsert {A} (k : string) (v : A) (l : list (string * A))
    : list (string * A) :=
  match l with
  | [] => [(k, v)]
  | (k', v') :: r =>
      if String.eqb k k' then (k, v) :: r else (k', v') :: upsert k v r
  end.

(** [.eq('id', document_id).single()]. *)
Definition select_document (be : Backend) (document_id : string)
    : result Thrown DocumentRow :=
  match filter (fun d => String.eqb (doc_id d) document_id) (documents be) with
  | [d] => ret d
  | _ => throw DocError
  end.

(** [.eq('document_id', document_id).eq('status', 'signed')]. *)
Definition select_signed (be : Backend) (document_id : string)
    : result Thrown (list (Signature num)) :=
  match sig_fault be with
  | Some e => throw (SigError e)
  | None =>
      ret (filter (fun s => String.eqb (Model.document_id s) document_id
                            && status_eqb (status s) signed)
                  (signatures be))
  end.

Fixpoint set_nth {A} (n : nat) (a : A) (l : list A) : list A :=
  match l, n with
  | [], _ => []
  | _ :: r, O => a :: r
  | b :: r, S n => b :: set_nth n a r
  end.

(** Where [drawImage] is told to put the image of [sig] on [page]. *)
Definition placement (sig : Signature num) (page : PDFPage num PDFImage)
    : ImageOptions num :=
  let absoluteX := (x_position sig * getWidth page)%js in
  let absoluteY := (y_position sig * getHeight page)%js in
  {| opt_x := absoluteX;
     opt_y := (getHeight page - absoluteY - height sig)%js;
     opt_width := width sig;
     opt_height := height sig |}.

(** Body of the loop over the selected signatures. *)
Definition stamp_signature (pdfDoc : PDFDocument num PDFImage)
    (sig : Signature num) : result Thrown (PDFDocument num PDFImage) :=
  match signature_data sig with
  | Some data =>
      if truthy_str data then
        match index (getPages pdfDoc) (page_number sig - 1) with
        | None => ret pdfDoc
        | Some page =>
            match embedPng data with
            | None => throw (EmbedError data)
            | Some pngImage =>
                match drawImage page pngImage (placement sig page) with
                | None => throw DrawError
                | Some page' =>
                    ret {| getPages :=
                             set_nth (Z.to_nat (page_number sig - 1)) page'
                                     (getPages pdfDoc);
                           embedded := embedded pdfDoc ++ [pngImage] |}
                end
            end
        end
      else ret pdfDoc
  | None => ret pdfDoc
  end.

Definition stamp (pdfDoc : PDFDocument num PDFImage)
    (sigs : list (Signature num)) : result Thrown (PDFDocument num PDFImage) :=
  for_of stamp_signature sigs pdfDoc.

(** [`${file_name.replace('.pdf', '')}_signed_${Date.now()}.pdf`]. *)
Definition signedFileName (document : DocumentRow) (now : N) : string :=
  (replace_first ".pdf" "" (file_name document)
     ++ "_signed_" ++ show_N now ++ ".pdf")%string.

(** The [try] block up to [pdfDoc.save()]: the file name and the bytes to
    upload. *)
Definition build (now : N) (req : Request) (be : Backend)
    : result Thrown (string * Bytes) :=
  (body <- match json req with
           | Some b => ret b
           | None => throw RequestJson
           end ;;
   document_id <- match body with
                  | Some i => if truthy_str i then ret i
                              else throw DocumentIdRequired
                  | None => throw DocumentIdRequired
                  end ;;
   document <- select_document be document_id ;;
   pdfFileData <- match lookup (file_path document) (bucket_documents be) with
                  | Some b => ret b
                  | None => throw FileError
                  end ;;
   sigs <- select_signed be document_id ;;
   pdfDoc <- match load pdfFileData with
             | Some d => ret d
             | None => throw LoadError
             end ;;
   stamped <- stamp pdfDoc sigs ;;
   ret (signedFileName document now, save stamped))%throw.

Definition upload (be : Backend) (name : string) (pdfBytes : Bytes)
    : result Thrown Backend :=
  match upload_fault be with
  | Some e => throw (UploadError e)
  | None =>
      ret {| documents := documents be;
             signatures := signatures be;
             bucket_documents := bucket_documents be;
             bucket_signed := upsert name pdfBytes (bucket_signed be);
             sig_fault := sig_fault be;
             upload_fault := upload_fault be |}
  end.

(** The handler: the response and the service afterwards. *)
Definition serve (now : N) (req : Request) (be : Backend)
    : Response * Backend :=
  if String.eqb (method req) "OPTIONS" then
    ({| resp_status := 200; resp_body := Ok_text |}, be)
  else
    match (out <- build now req be ;;
           be' <- upload be (fst out) (snd out) ;;
           ret (getPublicUrl (fst out), be'))%throw with
    | inr (url, be') =>
        ({| resp_status := 200; resp_body := SignedUrl url |}, be')
    | inl error =>
        ({| resp_status := 500; resp_body := ErrorBody error |}, be)
    end.

End Handler.

Arguments Backend : clear implicits.

End Stamper.

(* ================================================================== *)
(** * Field overlay: [SignatureField] *)
(* ================================================================== *)

Module Field.

Section Field.

Context {num : Type} `{Number num}.

Record Point : Type := { pt_x : num; pt_y : num }.

(** [getBoundingClientRect()], with the two sides the code reads. *)
Record DOMRect : Type := { left : num; top : num }.

Record MouseEvent : Type := { clientX : num; clientY : num }.

(** Props the code branches on, and the component's state. *)
Record Props : Type := {
  field_id : string;
  field_x : num;
  field_y : num;
  field_width : num;
  field_height : num;
  field_status : Status;
  signatureData : option string;
  has_onMove : bool;
  isDraggable : bool;
}.

Record State : Type := {
  isDragging : bool;
  dragOffset : Point;
}.

Definition initial : State :=
  {| isDragging := false; dragOffset := {| pt_x := zero; pt_y := zero |} |}.

(** [rect] is [fieldRef.current?.getBoundingClientRect()]. *)
Definition handleMouseDown (p : Props) (rect : option DOMRect)
    (e : MouseEvent) (st : State) : State :=
  if negb (isDraggable p) || status_eqb (field_status p) signed then st
  else
    match rect with
    | Some rect =>
        {| isDragging := true;
           dragOffset := {| pt_x := (clientX e - left rect)%js;
                            pt_y := (clientY e - top rect)%js |} |}
    | None => st
    end.

(** The call [onMove(id, x, y)] made, if any.  [containerRect] is
    [fieldRef.current?.parentElement.getBoundingClientRect()]. *)
Definition handleMouseMove (p : Props) (containerRect : option DOMRect)
    (e : MouseEvent) (st : State) : option (string * num * num) :=
  if negb (isDragging st) || negb (has_onMove p) then None
  else
    match containerRect with
    | Some containerRect =>
        let newX := (clientX e - left containerRect - pt_x (dragOffset st))%js in
        let newY := (clientY e - top containerRect - pt_y (dragOffset st))%js in
        Some (field_id p, max zero newX, max zero newY)
    | None => None
    end.

Definition handleMouseUp (st : State) : State :=
  {| isDragging := false; dragOffset := dragOffset st |}.

End Field.

Arguments Point : clear implicits.
Arguments DOMRect : clear implicits.
Arguments MouseEvent : clear implicits.
Arguments Props : clear implicits.
Arguments State : clear implicits.

End Field.

(* ================================================================== *)
(** * Owner's view: [DocumentViewer] *)
(* ================================================================== *)

Module Viewer.

Section Viewer.

Context {num : Type} `{Number num}.

Record Size : Type := { size_width : num; size_height : num }.

(** The scroll container [pdfContainerRef.current]. *)
Record Container : Type := {
  scrollWidth : num;
  scrollHeight : num;
  scrollLeft : num;
  scrollTop : num;
}.

Record State : Type := {
  signatures : list (Signature num);
  currentPage : Z;
  containerSize : Size;
}.

(** What a handler asks of the outside. *)
Inductive Effect : Type :=
| UpdatePosition (signatureId : string) (x_position y_position : num)
| Toast (title description : string)
| WindowOpen (url : string).

(** The [ResizeObserver] callback and the initial measurement. *)
Definition measure (container : Container) (st : State) : State :=
  {| signatures := signatures st;
     currentPage := currentPage st;
     containerSize := {| size_width := scrollWidth container;
                         size_height := scrollHeight container |} |}.

Definition set_position (normalizedX normalizedY : num) (sig : Signature num)
    : Signature num :=
  {| id := id sig;
     document_id := document_id sig;
     signer_email := signer_email sig;
     signer_name := signer_name sig;
     status := status sig;
     x_position := normalizedX;
     y_position := normalizedY;
     page_number := page_number sig;
     width := width sig;
     height := height sig;
     signed_at := signed_at sig;
     signature_data := signature_data sig;
     rejection_reason := rejection_reason sig |}.

(** [container] is [pdfContainerRef.current]; [error] is what the update
    of table [signatures] reports. *)
Definition handleMoveSignature (container : option Container)
    (error : option string) (signatureId : string) (x y : num) (st : State)
    : State * list Effect :=
  match container with
  | None => (st, [])
  | Some container =>
      let contentWidth := scrollWidth container in
      let contentHeight := scrollHeight container in
      let absoluteX := (x + scrollLeft container)%js in
      let absoluteY := (y + scrollTop container)%js in
      let normalizedX := (absoluteX / contentWidth)%js in
      let normalizedY := (absoluteY / contentHeight)%js in
      let request := UpdatePosition signatureId normalizedX normalizedY in
      match error with
      | Some _ =>
          (st, [request; Toast "Error" "Failed to update signature position"])
      | None =>
          ({| signatures :=
                map (fun sig => if String.eqb (id sig) signatureId
                                then set_position normalizedX normalizedY sig
                                else sig)
                    (signatures st);
              currentPage := currentPage st;
              containerSize := containerSize st |},
           [request])
      end
  end.

(** The overlay: the fields rendered over the page. *)
Definition overlay (st : State) : list (Field.Props num) :=
  if (size_width (containerSize st) >? zero)%js then
    map (fun signature =>
           {| Field.field_id := id signature;
              Field.field_x := (or_else (x_position signature) zero
                                * size_width (containerSize st))%js;
              Field.field_y := (or_else (y_position signature) zero
                                * size_height (containerSize st))%js;
              Field.field_width := width signature;
              Field.field_height := height signature;
              Field.field_status := status signature;
              Field.signatureData := signature_data signature;
              Field.has_onMove := true;
              Field.isDraggable := true |})
        (filter (fun sig => Z.eqb (page_number sig) (currentPage st))
                (signatures st))
  else [].

(** A [mousemove] during a drag of field [p], through [onMove]. *)
Definition drag (p : Field.Props num) (containerRect : option (Field.DOMRect num))
    (e : Field.MouseEvent num) (fst_ : Field.State num)
    (container : option Container) (error : option string) (st : State)
    : State * list Effect :=
  match Field.handleMouseMove p containerRect e fst_ with
  | Some (i, x, y) => handleMoveSignature container error i x y st
  | None => (st, [])
  end.

(** What [supabase.functions.invoke] hands back. *)
Record Invoked : Type := {
  inv_error : option string;       (* error *)
  data_error : option string;      (* data.error *)
  data_signedUrl : option string;  (* data.signedUrl *)
}.

Definition downloadDocument (r : Invoked) : list Effect :=
  let toast message :=
    [Toast "Error creating download link"
           (if truthy_str message then message
            else "An unknown error occurred.")] in
  match inv_error r with
  | Some message => toast message
  | None =>
      if truthy_opt (data_error r) then
        toast (match data_error r with Some m => m | None => "" end)
      else
        match data_signedUrl r with
        | Some url =>
            if truthy_str url then [WindowOpen url]
            else toast "Function did not return a valid URL."
        | None => toast "Function did not return a valid URL."
        end
  end.

End Viewer.

Arguments Size : clear implicits.
Arguments Container : clear implicits.
Arguments State : clear implicits.
Arguments Effect : clear implicits.

End Viewer.

(* ================================================================== *)
(** * Signature capture: [SignatureCapture] *)
(* ================================================================== *)

Module Capture.

Inductive Mode : Type := draw | type.

Inductive CaptureError : Type := EmptyInput | MissingSignerInfo.

(** What a press on "Complete Signature" leads to. *)
Inductive Outcome : Type :=
| Completed (signatureData : string)   (* onComplete(signatureData) *)
| Failed (e : CaptureError)            (* an error is signalled *)
| Nothing.                             (* no call, no signal *)

Section Capture.

(** The freehand canvas holds the strokes recorded so far;
    [toDataURL] rasterises them.  [renderTyped] is the data URL of the
    400x100 canvas with the text drawn on it, [None] when no 2d context is
    to be had. *)
Variable Stroke : Type.
Variable toDataURL : list Stroke -> string.
Variable renderTyped : string -> option string.

Definition isEmpty (canvas : list Stroke) : bool :=
  match canvas with
  | [] => true
  | _ :: _ => false
  end.

(** The component's [useState] cells. *)
Record State : Type := {
  signerName : string;
  signerEmail : string;
  signatureMode : Mode;
  typedSignature : string;
}.

(** [canvas] is [canvasRef.current]. *)
Definition handleComplete (s : State) (canvas : option (list Stroke))
    : Outcome :=
  let signatureData :=
    match signatureMode s with
    | draw =>
        match canvas with
        | Some c => if negb (isEmpty c) then toDataURL c else ""
        | None => ""
        end
    | type =>
        if truthy_str (trim (typedSignature s)) then
          match renderTyped (typedSignature s) with
          | Some url => url
          | None => ""
          end
        else ""
    end in
  if negb (truthy_str signatureData) then Nothing
  else Completed signatureData.

Definition hasSignature (s : State) (canvas : option (list Stroke)) : bool :=
  match signatureMode s with
  | draw =>
      match canvas with
      | Some c => negb (isEmpty c)
      | None => false
      end
  | type => (0 <? String.length (trim (typedSignature s)))%nat
  end.

(** [disabled] of the button, as of the render that saw [canvas]. *)
Definition disabled (s : State) (canvas : option (list Stroke)) : bool :=
  negb (hasSignature s canvas)
  || negb (truthy_str (trim (signerName s)))
  || negb (truthy_str (trim (signerEmail s))).

(** A press on the button: [shown] is the canvas the last render saw (a
    ref does not re-render), [canvas] the canvas now. *)
Definition complete (s : State) (shown canvas : option (list Stroke))
    : Outcome :=
  if disabled s shown then Nothing else handleComplete s canvas.

(** The contract of [complete()] in the specification's words: empty input
    fails with [EmptyInput], a missing signer name or email with
    [MissingSignerInfo], and only otherwise is an image produced. *)
Definition spec_input_empty (s : State) (canvas : option (list Stroke))
    : bool :=
  match signatureMode s with
  | draw =>
      match canvas with
      | Some (_ :: _) => false
      | _ => true
      end
  | type => String.eqb (trim (typedSignature s)) ""
  end.

Definition spec_complete (image : string) (s : State)
    (canvas : option (list Stroke)) : Outcome :=
  if spec_input_empty s canvas then Failed EmptyInput
  else if String.eqb (signerName s) "" || String.eqb (signerEmail s) ""
       then Failed MissingSignerInfo
  else Completed image.

End Capture.

End Capture.

(* ================================================================== *)
(** * Signer's page: [SignDocument] *)
(* ================================================================== *)

Module Signing.

Section Signing.

Context {num : Type}.

Record DocumentShare : Type := {
  share_id : string;
  share_document_id : string;
  share_signer_email : string;
}.

Record State : Type := {
  documentShare : option DocumentShare;
  signatures : list (Signature num);
  currentSignatureId : option string;
  signingMode : bool;
}.

(** Table [signatures], and the page while it is open ([None] after
    [navigate('/')]). *)
Record World : Type := {
  table : list (Signature num);
  page : option State;
}.

Definition set_signed (signatureData now : string) (sig : Signature num)
    : Signature num :=
  {| id := id sig;
     document_id := document_id sig;
     signer_email := signer_email sig;
     signer_name := signer_name sig;
     status := signed;
     x_position := x_position sig;
     y_position := y_position sig;
     page_number := page_number sig;
     width := width sig;
     height := height sig;
     signed_at := Some now;
     signature_data := Some signatureData;
     rejection_reason := rejection_reason sig |}.

(** The local copy gets [status] and [signature_data] only. *)
Definition set_signed_local (signatureData : string) (sig : Signature num)
    : Signature num :=
  {| id := id sig;
     document_id := document_id sig;
     signer_email := signer_email sig;
     signer_name := signer_name sig;
     status := signed;
     x_position := x_position sig;
     y_position := y_position sig;
     page_number := page_number sig;
     width := width sig;
     height := height sig;
     signed_at := signed_at sig;
     signature_data := Some signatureData;
     rejection_reason := rejection_reason sig |}.

Definition set_rejected (sig : Signature num) : Signature num :=
  {| id := id sig;
     document_id := document_id sig;
     signer_email := signer_email sig;
     signer_name := signer_name sig;
     status := rejected;
     x_position := x_position sig;
     y_position := y_position sig;
     page_number := page_number sig;
     width := width sig;
     height := height sig;
     signed_at := signed_at sig;
     signature_data := signature_data sig;
     rejection_reason := Some "Document rejected by signer" |}.

(** End of [loadDocumentShare]: the share and this signer's fields. *)
Definition loaded (share : DocumentShare) (tbl : list (Signature num))
    : World :=
  {| table := tbl;
     page :=
       Some {| documentShare := Some share;
               signatures :=
                 filter (fun sig =>
                           String.eqb (document_id sig) (share_document_id share)
                           && String.eqb (signer_email sig)
                                         (share_signer_email share))
                        tbl;
               currentSignatureId := None;
               signingMode := false |} |}.

Definition handleSignatureStart (signatureId : string) (st : State) : State :=
  {| documentShare := documentShare st;
     signatures := signatures st;
     currentSignatureId := Some signatureId;
     signingMode := true |}.

(** [error] is what the update of table [signatures] reports.  What the
    handler then writes to [document_shares] and [audit_logs], and its
    toasts, touch no signature and are left out. *)
Definition handleSignatureComplete (signatureData now : string)
    (error : option string) (w : World) (st : State) : World :=
  match currentSignatureId st, documentShare st with
  | Some cur, Some _ =>
      if negb (truthy_str cur) then w
      else
        match error with
        | Some _ => w
        | None =>
            {| table :=
                 map (fun sig => if String.eqb (id sig) cur
                                 then set_signed signatureData now sig
                                 else sig)
                     (table w);
               page :=
                 Some {| documentShare := documentShare st;
                         signatures :=
                           map (fun sig => if String.eqb (id sig) cur
                                           then set_signed_local signatureData sig
                                           else sig)
                               (signatures st);
                         currentSignatureId := None;
                         signingMode := false |} |}
        end
  | _, _ => w
  end.

(** The update of every field of the signer on the document; then the
    share is marked used, the rejection logged (other tables, left out)
    and the page left. *)
Definition handleRejectDocument (error : option string) (w : World)
    (st : State) : World :=
  match documentShare st with
  | None => w
  | Some share =>
      match error with
      | Some _ => w
      | None =>
          {| table :=
               map (fun sig =>
                      if String.eqb (document_id sig) (share_document_id share)
                         && String.eqb (signer_email sig)
                                       (share_signer_email share)
                      then set_rejected sig else sig)
                   (table w);
             page := None |}
      end
  end.

Definition onCancel (st : State) : State :=
  {| documentShare := documentShare st;
     signatures := signatures st;
     currentSignatureId := None;
     signingMode := false |}.

(** What the page renders. *)
Definition allSigned (st : State) : bool :=
  forallb (fun sig => status_eqb (status sig) signed) (signatures st).

Definition hasRejected (st : State) : bool :=
  existsb (fun sig => status_eqb (status sig) rejected) (signatures st).

Definition rendered (st : State) : bool :=
  match documentShare st with
  | Some _ => true
  | None => false
  end.

(** "Sign Here" of field [sig]. *)
Definition sign_here_shown (st : State) (sig : Signature num) : bool :=
  rendered st
  && (0 <? List.length (signatures st))%nat
  && negb (allSigned st) && negb (hasRejected st)
  && status_eqb (status sig) pending.

(** "Reject Document". *)
Definition reject_shown (st : State) : bool :=
  rendered st && negb (allSigned st) && negb (hasRejected st).

(** The capture dialog. *)
Definition capture_shown (st : State) : bool :=
  rendered st && signingMode st && truthy_opt (currentSignatureId st).

(** What the signer can do, each handler run whenever what triggers it is
    on the page.  [Complete] is the dialog calling [onComplete]; whether
    the dialog this page mounts ever does is the matter of [SignDocument]
    below. *)
Inductive Action : Type :=
| SignHere (signatureId : string)
| Complete (signatureData now : string) (error : option string)
| Cancel
| Reject (error : option string).

Definition step (w : World) (a : Action) : World :=
  match page w with
  | None => w
  | Some st =>
      match a with
      | SignHere i =>
          if existsb (fun sig => String.eqb (id sig) i && sign_here_shown st sig)
                     (signatures st)
          then {| table := table w; page := Some (handleSignatureStart i st) |}
          else w
      | Complete signatureData now error =>
          if capture_shown st
          then handleSignatureComplete signatureData now error w st
          else w
      | Cancel =>
          if capture_shown st
          then {| table := table w; page := Some (onCancel st) |}
          else w
      | Reject error =>
          if reject_shown st then handleRejectDocument error w st else w
      end
  end.

Definition run (w : World) (l : list Action) : World := fold_left step l w.

(** Status of the row with a given id. *)
Definition status_of (i : string) (tbl : list (Signature num))
    : option Status :=
  option_map (@status num) (find (fun sig => String.eqb (id sig) i) tbl).

(** The moves the specification allows a status: none, or away from
    [pending]. *)
Definition spec_move (before after : Status) : bool :=
  status_eqb before after || status_eqb before pending.

(** The moves the page makes: those, and [signed] to [rejected]. *)
Definition page_move (before after : Status) : bool :=
  spec_move before after
  || (status_eqb before signed && status_eqb after rejected).

End Signing.

Arguments State : clear implicits.
Arguments World : clear implicits.

End Signing.

(* ================================================================== *)
(** * The other callers of the handler *)
(* ================================================================== *)

Module Callers.

Section Callers.

Context {num : Type}.

(** [handleDownload] of the dashboard. *)
Definition handleDownload (r : Viewer.Invoked) : list (Viewer.Effect num) :=
  let toast message :=
    [Viewer.Toast "Error creating download link" message] in
  match Viewer.inv_error r with
  | Some message => toast message
  | None =>
      if truthy_opt (Viewer.data_error r) then
        toast (match Viewer.data_error r with Some m => m | None => "" end)
      else
        match Viewer.data_signedUrl r with
        | Some url =>
            if truthy_str url then [Viewer.WindowOpen url]
            else toast "Function did not return a valid URL."
        | None => toast "Function did not return a valid URL."
        end
  end.

(** [handlePreviewDownload] of the signing page. *)
Definition handlePreviewDownload (r : Viewer.Invoked)
    : list (Viewer.Effect num) :=
  let toast message :=
    [Viewer.Toast "Error creating preview"
                  (if truthy_str message then message
                   else "An unknown error occurred.")] in
  match Viewer.inv_error r with
  | Some message => toast message
  | None =>
      if truthy_opt (Viewer.data_error r) then
        toast (match Viewer.data_error r with Some m => m | None => "" end)
      else
        match Viewer.data_signedUrl r with
        | Some url =>
            if truthy_str url then [Viewer.WindowOpen url]
            else toast "Function did not return a valid URL."
        | None => toast "Function did not return a valid URL."
        end
  end.

End Callers.

End Callers.

(* ================================================================== *)
(** * The rest of [SignatureField] *)
(* ================================================================== *)

Module FieldView.

Section FieldView.

Context {num : Type} `{Number num}.

(** What the field renders: the signature image instead of the "Sign
    Here" placeholder, the delete button ([has_onDelete]: prop [onDelete]
    is given), the resize handle. *)
Definition shows_image (p : Field.Props num) : bool :=
  status_eqb (Field.field_status p) signed
  && truthy_opt (Field.signatureData p).

Definition delete_shown (has_onDelete : bool) (p : Field.Props num) : bool :=
  has_onDelete && status_eqb (Field.field_status p) pending.

Definition resize_shown (isResizable : bool) (p : Field.Props num) : bool :=
  isResizable && status_eqb (Field.field_status p) pending.

Definition getStatusColor (p : Field.Props num) : string :=
  match Field.field_status p with
  | signed => "border-green-500 bg-green-500/10"
  | rejected => "border-red-500 bg-red-500/10"
  | pending => "border-yellow-500 bg-yellow-500/10"
  end.

(** The mouse events the field handles: [mousedown] on the field (with
    the rectangle of the field), and, on the document, [mousemove] (with
    the rectangle of the parent) and [mouseup]. *)
Inductive Mouse : Type :=
| Down (rect : option (Field.DOMRect num)) (e : Field.MouseEvent num)
| Move (containerRect : option (Field.DOMRect num)) (e : Field.MouseEvent num)
| Up.

(** One event: the state after it and the call of [onMove] it makes. *)
Definition on_mouse (p : Field.Props num) (st : Field.State num) (m : Mouse)
    : Field.State num * option (string * num * num) :=
  match m with
  | Down rect e => (Field.handleMouseDown p rect e st, None)
  | Move containerRect e => (st, Field.handleMouseMove p containerRect e st)
  | Up => (Field.handleMouseUp st, None)
  end.

(** A sequence of events: the state after it and the calls of [onMove],
    oldest first. *)
Fixpoint on_mice (p : Field.Props num) (st : Field.State num)
    (ms : list Mouse) : Field.State num * list (string * num * num) :=
  match ms with
  | [] => (st, [])
  | m :: rest =>
      let (st1, call) := on_mouse p st m in
      let (st2, calls) := on_mice p st1 rest in
      (st2, match call with Some c => c :: calls | None => calls end)
  end.

End FieldView.

Arguments Mouse : clear implicits.

End FieldView.

(* ================================================================== *)
(** * The rest of [DocumentViewer], and [PDFViewer] *)
(* ================================================================== *)

(** Column [status] of table [documents]. *)
Module DocStatus.

Inductive t : Type := draft | pending | completed | cancelled.

Definition eqb (a b : t) : bool :=
  match a, b with
  | draft, draft | pending, pending | completed, completed
  | cancelled, cancelled => true
  | _, _ => false
  end.

End DocStatus.

(** Page navigation of [PDFViewer]; pages are whole numbers. *)
Module PdfViewer.

Definition goToPrevPage (currentPage : Z) : Z := Z.max (currentPage - 1) 1.

Definition goToNextPage (currentPage numPages : Z) : Z :=
  Z.min (currentPage + 1) numPages.

(** [disabled] of the two buttons. *)
Definition prev_disabled (currentPage : Z) : bool := currentPage <=? 1.

Definition next_disabled (currentPage numPages : Z) : bool :=
  numPages <=? currentPage.

Inductive Click : Type := Prev | Next.

(** A press on a button: the page handed to [onPageChange]. *)
Definition click (numPages currentPage : Z) (c : Click) : Z :=
  match c with
  | Prev => if prev_disabled currentPage then currentPage
            else goToPrevPage currentPage
  | Next => if next_disabled currentPage numPages then currentPage
            else goToNextPage currentPage numPages
  end.

Definition browse (numPages currentPage : Z) (cs : list Click) : Z :=
  fold_left (click numPages) cs currentPage.

End PdfViewer.

Module Owner.

(** The literals of [handleAddSigner]. *)
Class Literals (num : Type) : Type := {
  lit_0_1 : num;     (* 0.1 *)
  lit_150 : num;     (* 150 *)
  lit_50 : num;      (* 50 *)
}.

#[export] Instance literals_binary64 : Literals float :=
  {| lit_0_1 := 0.1%float; lit_150 := 150%float; lit_50 := 50%float |}.

#[export] Instance literals_exact : Literals xrat :=
  {| lit_0_1 := Fin 0.1; lit_150 := Fin 150; lit_50 := Fin 50 |}.

Section Owner.

Context {num : Type} `{Number num} `{Literals num}.

(** The row [handleAddSigner] inserts. *)
Record NewSignature : Type := {
  new_document_id : string;
  new_signer_email : string;
  new_signer_name : string;
  new_x_position : num;
  new_y_position : num;
  new_page_number : Z;
  new_width : num;
  new_height : num;
  new_status : Status;
}.

(** The row as the table keeps it: the id is generated, the columns not
    given are NULL. *)
Definition stored (generated_id : string) (row : NewSignature)
    : Signature num :=
  {| id := generated_id;
     document_id := new_document_id row;
     signer_email := new_signer_email row;
     signer_name := Some (new_signer_name row);
     status := new_status row;
     x_position := new_x_position row;
     y_position := new_y_position row;
     page_number := new_page_number row;
     width := new_width row;
     height := new_height row;
     signed_at := None;
     signature_data := None;
     rejection_reason := None |}.

(** What a handler asks of the outside, in order. *)
Inductive Call : Type :=
| InsertSignature (row : NewSignature)
| DeleteSignature (signatureId : string)
| UpdateDocumentStatus (document_id : string) (status : DocStatus.t)
| InsertShare (document_id signer_email token expires_at : string)
| InsertAudit (document_id action signer_email signature_id : string)
| ClipboardWrite (text : string)
| FetchSignatures
| OnUpdate
| Toast (title description : string).

(** [error] is what the insert reports. *)
Definition handleAddSigner (document_id : string) (currentPage : Z)
    (signerEmail signerName : string) (error : option string) : list Call :=
  InsertSignature
    {| new_document_id := document_id;
       new_signer_email := signerEmail;
       new_signer_name := signerName;
       new_x_position := lit_0_1;
       new_y_position := lit_0_1;
       new_page_number := currentPage;
       new_width := lit_150;
       new_height := lit_50;
       new_status := Model.pending |}
  :: match error with
     | Some message => [Toast "Error" message]
     | None => [Toast "Success!" "Signer added successfully";
                FetchSignatures; OnUpdate]
     end.

(** [error] is what the delete reports. *)
Definition handleDeleteSignature (error : option string)
    (signatureId : string) (st : Viewer.State num)
    : Viewer.State num * list Call :=
  match error with
  | Some _ =>
      (st, [DeleteSignature signatureId;
            Toast "Error" "Failed to remove signature field"])
  | None =>
      ({| Viewer.signatures :=
            filter (fun sig => negb (String.eqb (id sig) signatureId))
                   (Viewer.signatures st);
          Viewer.currentPage := Viewer.currentPage st;
          Viewer.containerSize := Viewer.containerSize st |},
       [DeleteSignature signatureId;
        Toast "Success" "Signature field removed"])
  end.

(** A press on the delete button of an overlay field, if it is there. *)
Definition press_delete (error : option string) (p : Field.Props num)
    (st : Viewer.State num) : Viewer.State num * list Call :=
  if FieldView.delete_shown true p
  then handleDeleteSignature error (Field.field_id p) st
  else (st, []).

(** [token] is [crypto.randomUUID()], [expiresAt] the ISO string of now
    plus 30 days, [origin] is [window.location.origin]; the errors are
    those of the update, the two inserts and the clipboard. *)
Definition generateSigningLink (document_id : string)
    (document_status : DocStatus.t) (signature : Signature num)
    (token expiresAt origin : string)
    (updateError shareError auditError clipboardError : option string)
    : list Call :=
  let failed message :=
    [Toast "Error" ("Failed to generate signing link: " ++ message)] in
  let share_on :=
    InsertShare document_id (signer_email signature) token expiresAt
    :: match shareError with
       | Some message => failed message
       | None =>
           InsertAudit document_id "signing_link_generated"
                       (signer_email signature) (id signature)
           :: match auditError with
              | Some message => failed message
              | None =>
                  ClipboardWrite (origin ++ "/sign/" ++ token)
                  :: match clipboardError with
                     | Some message => failed message
                     | None => [Toast "Success"
                                      "Signing link copied to clipboard."]
                     end
              end
       end in
  match document_status with
  | DocStatus.draft =>
      UpdateDocumentStatus document_id DocStatus.pending
      :: match updateError with
         | Some message => failed message
         | None => OnUpdate :: share_on
         end
  | _ => share_on
  end.

Definition handleShare (document_id : string) (document_status : DocStatus.t)
    (token expiresAt origin : string)
    (updateError shareError auditError clipboardError : option string)
    (st : Viewer.State num) : list Call :=
  match Viewer.signatures st with
  | [] => [Toast "Cannot Share"
                 "Please add at least one signer to the document first."]
  | firstSignature :: _ =>
      generateSigningLink document_id document_status firstSignature
                          token expiresAt origin
                          updateError shareError auditError clipboardError
  end.

(** [handleShare] of the dashboard, on the signatures of a document
    ([None]: the document has none attached). *)
Definition dashboard_handleShare (document_id : string)
    (signatures : option (list (Signature num)))
    (token expiresAt origin : string)
    (shareError clipboardError : option string) : list Call :=
  let failed message :=
    [Toast "Error" ("Failed to create share link: " ++ message)] in
  match signatures with
  | None | Some [] =>
      [Toast "No Signers" "Please add a signer before sharing."]
  | Some signatures =>
      match find (fun s => status_eqb (status s) Model.pending) signatures with
      | None => [Toast "All Signed"
                       "All parties have already signed this document."]
      | Some firstPendingSignature =>
          InsertShare document_id (signer_email firstPendingSignature)
                      token expiresAt
          :: match shareError with
             | Some message => failed message
             | None =>
                 ClipboardWrite (origin ++ "/sign/" ++ token)
                 :: match clipboardError with
                    | Some message => failed message
                    | None =>
                        [Toast "Link Copied!"
                               "Signing link for the next signer has been copied to your clipboard."]
                    end
             end
      end
  end.

End Owner.

Arguments NewSignature : clear implicits.
Arguments Call : clear implicits.

End Owner.

(* ================================================================== *)
(** * The rest of [SignatureCapture] *)
(* ================================================================== *)

Module CaptureOps.

Section CaptureOps.

Variable Stroke : Type.

(** The "Clear" button: the canvas, if mounted, is cleared, and the typed
    text emptied. *)
Definition clearSignature (s : Capture.State)
    (canvas : option (list Stroke))
    : Capture.State * option (list Stroke) :=
  ({| Capture.signerName := Capture.signerName s;
      Capture.signerEmail := Capture.signerEmail s;
      Capture.signatureMode := Capture.signatureMode s;
      Capture.typedSignature := "" |},
   match canvas with
   | Some _ => Some []
   | None => None
   end).

End CaptureOps.

End CaptureOps.

(* ================================================================== *)
(** * The rest of [SignDocument]: the signing link *)
(* ================================================================== *)

Module Link.

Section Link.

Context {num : Type}.

(** A row of table [document_shares]: the share as the page keeps it, its
    token, its expiry (milliseconds since the epoch) and when it was
    used. *)
Record ShareRow : Type := {
  share : Signing.DocumentShare;
  token : string;
  expires_at : N;
  used_at : option string;
}.

(** Why [loadDocumentShare] shows "Access Denied". *)
Inductive Refused : Type :=
| ShareError                (* .single() found no row, or several *)
| Expired                   (* 'This signing link has expired' *)
| Used                      (* 'This signing link has already been used' *)
| SigError (e : string).    (* the query of the signatures *)

(** [now] is [new Date()] in milliseconds, [sigError] what the query of
    the signatures reports. *)
Definition loadDocumentShare (tok : string) (now : N)
    (sigError : option string) (shares : list ShareRow)
    (tbl : list (Signature num)) : result Refused (Signing.World num) :=
  match filter (fun r => String.eqb (token r) tok) shares with
  | [shareData] =>
      if (expires_at shareData <? now)%N then throw Expired
      else
        if truthy_opt (used_at shareData) then throw Used
        else
          match sigError with
          | Some e => throw (SigError e)
          | None => ret (Signing.loaded (share shareData) tbl)
          end
  | _ => throw ShareError
  end.

(** [update({ used_at }).eq('id', documentShare.id)]. *)
Definition mark_used (stamp share_id : string) (shares : list ShareRow)
    : list ShareRow :=
  map (fun r => if String.eqb (Signing.share_id (share r)) share_id
                then {| share := share r; token := token r;
                        expires_at := expires_at r;
                        used_at := Some stamp |}
                else r)
      shares.

(** The copy [handleSignatureComplete] checks for completion: the status
    alone is set. *)
Definition mark_signed (sig : Signature num) : Signature num :=
  {| id := id sig;
     document_id := document_id sig;
     signer_email := signer_email sig;
     signer_name := signer_name sig;
     status := signed;
     x_position := x_position sig;
     y_position := y_position sig;
     page_number := page_number sig;
     width := width sig;
     height := height sig;
     signed_at := signed_at sig;
     signature_data := signature_data sig;
     rejection_reason := rejection_reason sig |}.

(** Table [document_shares] after an action of the signer on the page of
    [w]: what [handleSignatureComplete] and [handleRejectDocument] write
    to it, beside what [Signing.step] does.  [stamp] is the time written
    and [accepted] whether the update of the share goes through (its
    result is not looked at). *)
Definition shares_after (stamp : string) (accepted : bool)
    (w : Signing.World num) (a : Signing.Action) (shares : list ShareRow)
    : list ShareRow :=
  match Signing.page w with
  | None => shares
  | Some st =>
      match a with
      | Signing.Complete _ _ error =>
          if Signing.capture_shown st then
            match Signing.currentSignatureId st, Signing.documentShare st with
            | Some cur, Some documentShare =>
                if negb (truthy_str cur) then shares
                else
                  match error with
                  | Some _ => shares
                  | None =>
                      let updatedSignatures :=
                        map (fun sig => if String.eqb (id sig) cur
                                        then mark_signed sig else sig)
                            (Signing.signatures st) in
                      let allSigned :=
                        forallb (fun sig => status_eqb (status sig) signed)
                                updatedSignatures in
                      if allSigned && accepted
                      then mark_used stamp (Signing.share_id documentShare)
                                     shares
                      else shares
                  end
            | _, _ => shares
            end
          else shares
      | Signing.Reject error =>
          if Signing.reject_shown st then
            match Signing.documentShare st with
            | Some documentShare =>
                match error with
                | Some _ => shares
                | None =>
                    if accepted
                    then mark_used stamp (Signing.share_id documentShare)
                                   shares
                    else shares
                end
            | None => shares
            end
          else shares
      | _ => shares
      end
  end.

(** The two tables during a visit. *)
Record Site : Type := {
  world : Signing.World num;
  shares : list ShareRow;
}.

Definition act (stamp : string) (accepted : bool) (s : Site)
    (a : Signing.Action) : Site :=
  {| world := Signing.step (world s) a;
     shares := shares_after stamp accepted (world s) a (shares s) |}.

Definition visit (stamp : string) (accepted : bool) (s : Site)
    (l : list Signing.Action) : Site :=
  fold_left (act stamp accepted) l s.

End Link.

Arguments ShareRow : clear implicits.
Arguments Site : clear implicits.

End Link.

(* ================================================================== *)
(** * The signing page with its dialog: [pages/SignDocument.tsx] and
      [SignatureCapture.tsx] *)
(* ================================================================== *)

Module SignDocument.

Section SignDocument.

Context {num : Type}.
Variable Stroke : Type.
Variable toDataURL : list Stroke -> string.
Variable renderTyped : string -> option string.

(** The cells of the dialog as the page mounts it,
    [<SignatureCapture onComplete={...} onCancel={...} />]: neither
    [signerName] nor [signerEmail] is passed, and both take their default
    ['']. *)
Definition mounted : Capture.State :=
  {| Capture.signerName := EmptyString;
     Capture.signerEmail := EmptyString;
     Capture.signatureMode := Capture.draw;
     Capture.typedSignature := EmptyString |}.

(** What the signer can change in the dialog.  The inputs of name and
    email are [readOnly]: their [onChange] is not called. *)
Inductive Edit : Type :=
| SetMode (m : Capture.Mode)   (* "Draw Signature", "Type Signature" *)
| Typed (text : string)        (* the input of the typed mode *)
| Clear.                       (* "Clear" *)

Definition edit (e : Edit) (s : Capture.State) : Capture.State :=
  match e with
  | SetMode m =>
      {| Capture.signerName := Capture.signerName s;
         Capture.signerEmail := Capture.signerEmail s;
         Capture.signatureMode := m;
         Capture.typedSignature := Capture.typedSignature s |}
  | Typed text =>
      {| Capture.signerName := Capture.signerName s;
         Capture.signerEmail := Capture.signerEmail s;
         Capture.signatureMode := Capture.signatureMode s;
         Capture.typedSignature := text |}
  | Clear => fst (CaptureOps.clearSignature s (@None (list Stroke)))
  end.

(** The two tables, and the cells of the dialog while it is open. *)
Record Page : Type := {
  site : Link.Site num;
  dialog : Capture.State;
}.

Definition capture_open (p : Page) : bool :=
  match Signing.page (Link.world (site p)) with
  | Some st => Signing.capture_shown st
  | None => false
  end.

(** A handler of the page runs.  The dialog keeps its cells while it
    stays open, and is mounted afresh when it opens. *)
Definition on_site (stamp : string) (accepted : bool) (p : Page)
    (a : Signing.Action) : Page :=
  {| site := Link.act stamp accepted (site p) a;
     dialog := if capture_open p then dialog p else mounted |}.

(** What the signer can do.  A press on "Complete Signature" comes with
    the canvas the last render saw and the canvas now; [now] and [error]
    are the time and what the update of the signatures reports, should
    the dialog call [onComplete]. *)
Inductive Action : Type :=
| SignHere (signatureId : string)
| InDialog (e : Edit)
| PressComplete (shown canvas : option (list Stroke)) (now : string)
                (error : option string)
| Cancel
| Reject (error : option string).

Definition step (stamp : string) (accepted : bool) (p : Page) (a : Action)
    : Page :=
  match a with
  | SignHere i => on_site stamp accepted p (Signing.SignHere i)
  | InDialog e =>
      if capture_open p
      then {| site := site p; dialog := edit e (dialog p) |}
      else p
  | PressComplete shown canvas now error =>
      if capture_open p then
        match Capture.complete toDataURL renderTyped (dialog p) shown canvas
        with
        | Capture.Completed signatureData =>
            on_site stamp accepted p (Signing.Complete signatureData now error)
        | _ => p
        end
      else p
  | Cancel => on_site stamp accepted p Signing.Cancel
  | Reject error => on_site stamp accepted p (Signing.Reject error)
  end.

Definition run (stamp : string) (accepted : bool) (p : Page)
    (l : list Action) : Page :=
  fold_left (step stamp accepted) l p.

(** The page once [loadDocumentShare] has let the signer in. *)
Definition opened (share : Signing.DocumentShare)
    (tbl : list (Signature num)) (shares : list Link.ShareRow) : Page :=
  {| site := {| Link.world := Signing.loaded share tbl;
                Link.shares := shares |};
     dialog := mounted |}.

End SignDocument.

Arguments Page : clear implicits.
Arguments SignHere {Stroke}.
Arguments InDialog {Stroke}.
Arguments Cancel {Stroke}.
Arguments Reject {Stroke}.

End SignDocument.

(* ================================================================== *)
(** * The signing page of a token: [pages/[token].tsx] *)
(* ================================================================== *)

Module SigningPage.

Section SigningPage.

Context {num : Type}.

(** A row of table [documents], with its status. *)
Record Document : Type := {
  row : DocumentRow;
  document_status : DocStatus.t;
}.

Record State : Type := {
  document : option Document;
  signatures : list (Signature num);
  activeSignature : option (Signature num);
  currentUserEmail : option string;
  currentPage : Z;
  isPageRendered : bool;
}.

(** [.single()]: the row, if the query finds exactly one. *)
Definition single {A : Type} (l : list A) : option A :=
  match l with
  | [x] => Some x
  | _ => None
  end.

(** [fetchData]: the page, or the message it shows instead.  The three
    errors are those of the queries beyond what [.single()] reports. *)
Definition fetchData (tok : string)
    (shareError docError sigsError : option string)
    (shares : list Link.ShareRow) (docs : list Document)
    (tbl : list (Signature num)) : result string State :=
  match shareError,
        single (filter (fun r => String.eqb (Link.token r) tok) shares) with
  | None, Some shareData =>
      let document_id := Signing.share_document_id (Link.share shareData) in
      let signer_email := Signing.share_signer_email (Link.share shareData) in
      match docError,
            single (filter (fun d => String.eqb (doc_id (row d)) document_id)
                           docs) with
      | None, Some docData =>
          match sigsError with
          | Some _ => throw "Could not load signature fields."
          | None =>
              ret {| document := Some docData;
                     signatures :=
                       filter (fun sig => String.eqb (Model.document_id sig)
                                                     document_id)
                              tbl;
                     activeSignature := None;
                     currentUserEmail := Some signer_email;
                     currentPage := 1;
                     isPageRendered := false |}
          end
      | _, _ => throw "Could not load the document."
      end
  | _, _ => throw "Invalid or expired signing link."
  end.

(** [setCurrentPage] or [setZoom] with a new value: the effect on
    [currentPage, zoom] hides the fields until the page is rendered. *)
Definition view_changed (page : Z) (st : State) : State :=
  {| document := document st;
     signatures := signatures st;
     activeSignature := activeSignature st;
     currentUserEmail := currentUserEmail st;
     currentPage := page;
     isPageRendered := false |}.

(** [container]: whether [pdfContainerRef.current] is there. *)
Definition handlePageRenderSuccess (container : bool) (st : State) : State :=
  if container
  then {| document := document st;
          signatures := signatures st;
          activeSignature := activeSignature st;
          currentUserEmail := currentUserEmail st;
          currentPage := currentPage st;
          isPageRendered := true |}
  else st.

(** The fields laid over the page. *)
Definition fields_shown (st : State) : list (Signature num) :=
  if isPageRendered st
  then filter (fun sig => page_number sig =? currentPage st) (signatures st)
  else [].

Definition set_active (a : option (Signature num)) (st : State) : State :=
  {| document := document st;
     signatures := signatures st;
     activeSignature := a;
     currentUserEmail := currentUserEmail st;
     currentPage := currentPage st;
     isPageRendered := isPageRendered st |}.

(** [signature.signer_email === currentUserEmail]. *)
Definition is_user (st : State) (signature : Signature num) : bool :=
  match currentUserEmail st with
  | Some email => String.eqb (signer_email signature) email
  | None => false
  end.

(** The two toasts change nothing. *)
Definition handleSignatureFieldClick (signature : Signature num) (st : State)
    : State :=
  if is_user st signature && status_eqb (status signature) Model.pending
  then set_active (Some signature) st
  else st.

Definition set_completed (d : Document) : Document :=
  {| row := row d; document_status := DocStatus.completed |}.

Record World : Type := {
  table : list (Signature num);
  documents : list Document;
  page : State;
}.

(** [checkAndCompleteDocument] decides on the page's copy of the
    document. *)
Definition completes (st : State) (currentSignatures : list (Signature num))
    : bool :=
  forallb (fun sig => status_eqb (status sig) signed) currentSignatures
  && match document st with
     | Some d => DocStatus.eqb (document_status d) DocStatus.pending
     | None => false
     end.

(** [updateError] is what the update of the signature reports,
    [accepted] whether the update of the document goes through (its
    result is not looked at). *)
Definition handleSignatureComplete (signatureData now : string)
    (updateError : option string) (accepted : bool) (w : World) : World :=
  let st := page w in
  match activeSignature st with
  | None => w
  | Some active =>
      match updateError with
      | Some _ => w
      | None =>
          let updatedSignatures :=
            map (fun sig => if String.eqb (id sig) (id active)
                            then Signing.set_signed_local signatureData sig
                            else sig)
                (signatures st) in
          let done := completes st updatedSignatures in
          {| table :=
               map (fun sig => if String.eqb (id sig) (id active)
                               then Signing.set_signed signatureData now sig
                               else sig)
                   (table w);
             documents :=
               if done && accepted
               then map (fun d => if String.eqb (doc_id (row d))
                                                (Model.document_id active)
                                  then set_completed d else d)
                        (documents w)
               else documents w;
             page :=
               {| document := if done
                              then option_map set_completed (document st)
                              else document st;
                  signatures := updatedSignatures;
                  activeSignature := None;
                  currentUserEmail := currentUserEmail st;
                  currentPage := currentPage st;
                  isPageRendered := isPageRendered st |} |}
      end
  end.

(** What happens on the page. *)
Inductive Action : Type :=
| ViewChanged (page : Z)
| PageRendered (container : bool)
| Click (n : nat)                       (* the n-th field laid over *)
| Complete (signatureData now : string) (updateError : option string)
           (accepted : bool)
| Cancel.

Definition on_page (f : State -> State) (w : World) : World :=
  {| table := table w; documents := documents w; page := f (page w) |}.

Definition step (w : World) (a : Action) : World :=
  match a with
  | ViewChanged p => on_page (view_changed p) w
  | PageRendered container => on_page (handlePageRenderSuccess container) w
  | Click n =>
      match nth_error (fields_shown (page w)) n with
      | Some signature => on_page (handleSignatureFieldClick signature) w
      | None => w
      end
  | Complete signatureData now updateError accepted =>
      handleSignatureComplete signatureData now updateError accepted w
  | Cancel => on_page (set_active None) w
  end.

Definition run (w : World) (l : list Action) : World := fold_left step l w.

End SigningPage.

Arguments State : clear implicits.
Arguments World : clear implicits.

End SigningPage.

(* ================================================================== *)
(** * Uploading a document: [DocumentUpload] *)
(* ================================================================== *)

Module Upload.

Record File : Type := {
  name : string;
  type : string;
  size : N;
}.

(** [setFile] after a choice in the dialog or a drop; [selectedFile] is
    [files?.[0]]. *)
Definition handleFileSelect (selectedFile : option File) (file : option File)
    : option File :=
  match selectedFile with
  | Some selected =>
      if negb (String.eqb (type selected) "application/pdf") then file
      else Some selected
  | None => file
  end.

(** [s.split('.').pop()]: what follows the last dot, or all of [s]. *)
Fixpoint split_pop (last s : string) : string :=
  match s with
  | EmptyString => last
  | String c rest =>
      if Ascii.eqb c "."%char then split_pop EmptyString rest
      else split_pop (last ++ String c EmptyString) rest
  end.

(** The row inserted into [documents]. *)
Record NewDocument : Type := {
  user_id : string;
  title : string;
  description : string;
  new_file_name : string;
  new_file_path : string;
  file_size : N;
  status : DocStatus.t;
}.

Inductive Call : Type :=
| StorageUpload (fileName : string) (file : File)
| InsertDocument (row : NewDocument)
| Toast (title description : string)
| OnSuccess.

(** [user] is the id of [auth.getUser()], [now] is [Date.now()],
    [uploaded] the path the storage reports or its error, [dbError] what
    the insert reports. *)
Definition handleUpload (file : option File) (title description : string)
    (user : option string) (now : N) (uploaded : string + string)
    (dbError : option string) : list Call :=
  match file with
  | None => [Toast "No File" "Please select a file to upload."]
  | Some file =>
      match user with
      | None => [Toast "Upload failed"
                       "Not authenticated. Please sign in again."]
      | Some user =>
          let fileExt := split_pop EmptyString (name file) in
          let fileName := (user ++ "/" ++ show_N now ++ "." ++ fileExt)%string in
          StorageUpload fileName file
          :: match uploaded with
             | inl message => [Toast "Upload failed" message]
             | inr path =>
                 InsertDocument
                   {| user_id := user;
                      title := title;
                      description := description;
                      new_file_name := name file;
                      new_file_path := path;
                      file_size := size file;
                      status := DocStatus.draft |}
                 :: match dbError with
                    | Some message => [Toast "Upload failed" message]
                    | None => [Toast "Success!"
                                     "Document uploaded successfully.";
                               OnSuccess]
                    end
             end
      end
  end.

(** The file kept after a sequence of choices. *)
Definition selected (choices : list (option File)) : option File :=
  fold_left (fun file choice => handleFileSelect choice file) choices None.

End Upload.

(* ================================================================== *)
(** * Properties *)
(* ================================================================== *)

Import Stamper.

(** ** Placement of a stamped image *)

(** Closes [a <> b] for two closed binary64 values, through a comparison
    that tells them apart. *)
Ltac float_neq b :=
  let H := fresh in
  intro H;
  apply (f_equal (fun z => PrimFloat.eqb z b)) in H;
  vm_compute in H; discriminate H.

(** The field of the example: fractions 0.1 and 0.1, a box of 150 by 50. *)
Definition letter_field {num} (x y w h : num) : Signature num :=
  {| id := "f1"; document_id := "d1"; signer_email := "a@b.c";
     signer_name := Some "A"; status := signed;
     x_position := x; y_position := y; page_number := 1;
     width := w; height := h;
     signed_at := Some "2025-01-01T00:00:00.000Z";
     signature_data := Some "data:image/png;base64,AAAA";
     rejection_reason := None |}.

Definition letter_page {num} (w h : num) : PDFPage num string :=
  {| getWidth := w; getHeight := h; content := "text"; drawn := [] |}.

Example letter_binary64 :
  (placement (letter_field 0.1 0.1 150 50) (letter_page 612 792)
   = {| opt_x := 61.2; opt_y := 662.8; opt_width := 150; opt_height := 50 |})%float.
Proof. reflexivity. Qed.

Example letter_exact :
  (placement (letter_field (Fin 0.1) (Fin 0.1) (Fin 150) (Fin 50))
             (letter_page (Fin 612) (Fin 792))
   = {| opt_x := Fin 61.2; opt_y := Fin 662.8;
        opt_width := Fin 150; opt_height := Fin 50 |})%Q.
Proof. reflexivity. Qed.

(** What [stamp_signature] draws is what [placement] says; whether it
    draws is up to the check of [drawImage]. *)
Lemma stamp_signature_draws {num} `{Number num} (I : Type)
    (embedPng : string -> option I) (doc : PDFDocument num I)
    (sig : Signature num) (data : string) (page : PDFPage num I) (img : I) :
  signature_data sig = Some data ->
  truthy_str data = true ->
  index (getPages doc) (page_number sig - 1) = Some page ->
  embedPng data = Some img ->
  stamp_signature embedPng doc sig
  = if accepted (placement sig page)
    then inr {| getPages :=
                  set_nth (Z.to_nat (page_number sig - 1))
                          (with_image page img (placement sig page))
                          (getPages doc);
                embedded := embedded doc ++ [img] |}
    else inl DrawError.
Proof.
  intros Hd Ht Hp He. unfold stamp_signature, drawImage.
  rewrite Hd, Ht, Hp, He.
  destruct (accepted (placement sig page)); reflexivity.
Qed.

(** C1, as the code computes it.  On a page of 612 by 792 points, a field
    with xFraction 0.1, yFraction 0.1 and height 50 is drawn with its
    bottom-left corner at X = 0.1*612 = 61.2 and
    Y = 792 - 0.1*792 - 50 = 662.8 (not 663.2), following
    pdfY = pageHeight - yFraction*pageHeight - height: in binary64 these
    are the doubles written 61.2 and 662.8, in exact arithmetic the
    rationals 61.2 and 662.8. *)
Theorem stamping_placement_letter :
  (forall (I : Type) (sig : Signature float) (page : PDFPage float I),
      x_position sig = 0.1%float -> y_position sig = 0.1%float ->
      height sig = 50%float ->
      getWidth page = 612%float -> getHeight page = 792%float ->
      opt_x (placement sig page) = 61.2%float
      /\ opt_y (placement sig page) = 662.8%float
      /\ opt_height (placement sig page) = 50%float)
  /\
  (forall (I : Type) (sig : Signature xrat) (page : PDFPage xrat I),
      x_position sig = Fin 0.1 -> y_position sig = Fin 0.1 ->
      height sig = Fin 50 ->
      getWidth page = Fin 612 -> getHeight page = Fin 792 ->
      xeq (opt_x (placement sig page)) (Fin 61.2)
      /\ xeq (opt_y (placement sig page)) (Fin 662.8)
      /\ xeq (opt_height (placement sig page)) (Fin 50)).
Proof.
  split; intros I sig page Hx Hy Hh Hw Hhe; unfold placement;
    cbn [opt_x opt_y opt_height]; rewrite Hx, Hy, Hh, Hw, Hhe.
  - repeat split; reflexivity.
  - repeat split; vm_compute; reflexivity.
Qed.

Lemma stamping_placement_letter_witness :
  ((opt_x (placement (letter_field 0.1 0.1 150 50)
                     (letter_page 612 792)) = 61.2
    /\ opt_y (placement (letter_field 0.1 0.1 150 50)
                        (letter_page 612 792)) = 662.8
    /\ opt_height (placement (letter_field 0.1 0.1 150 50)
                             (letter_page 612 792)) = 50)%float)
  /\
  (xeq (opt_x (placement (letter_field (Fin 0.1) (Fin 0.1) (Fin 150) (Fin 50))
                         (letter_page (Fin 612) (Fin 792)))) (Fin 61.2)
   /\ xeq (opt_y (placement (letter_field (Fin 0.1) (Fin 0.1) (Fin 150) (Fin 50))
                            (letter_page (Fin 612) (Fin 792)))) (Fin 662.8)
   /\ xeq (opt_height (placement (letter_field (Fin 0.1) (Fin 0.1) (Fin 150) (Fin 50))
                                 (letter_page (Fin 612) (Fin 792)))) (Fin 50)).
Proof.
  split.
  - apply (proj1 stamping_placement_letter); reflexivity.
  - apply (proj2 stamping_placement_letter); reflexivity.
Defined.

(** C1 as stated fails: at the input of the claim the bottom-left Y is not
    663.2, in binary64 as in exact arithmetic. *)
Lemma stamping_placement_letter_not_663_2 :
  opt_y (placement (letter_field 0.1 0.1 150 50) (letter_page 612 792))%float
    <> 663.2%float
  /\ ~ xeq (opt_y (placement (letter_field (Fin 0.1) (Fin 0.1) (Fin 150) (Fin 50))
                             (letter_page (Fin 612) (Fin 792))))
           (Fin 663.2).
Proof.
  split.
  - float_neq 663.2%float.
  - vm_compute. discriminate.
Qed.

(** ** Exact arithmetic on finite values *)

Section ExactArith.

Local Open Scope Q_scope.

Lemma Qzero_false (q : Q) : ~ q == 0 -> Qzero q = false.
Proof.
  intro Hq. unfold Qzero. destruct (Qeq_bool q 0) eqn:E; [|reflexivity].
  apply Qeq_bool_iff in E. contradiction.
Qed.

Lemma Qzero_true (q : Q) : q == 0 -> Qzero q = true.
Proof. intro Hq. unfold Qzero. apply Qeq_bool_iff. exact Hq. Qed.

Lemma xdiv_fin (p q : Q) : ~ q == 0 -> xdiv (Fin p) (Fin q) = Fin (p / q).
Proof. intro Hq. unfold xdiv. rewrite (Qzero_false Hq). reflexivity. Qed.

(** A finite value over zero is Infinity or NaN. *)
Lemma xdiv_zero (a : xrat) (q : Q) :
  q == 0 -> is_finite (xdiv a (Fin q)) = false.
Proof.
  intro Hq. destruct a as [|s|p]; cbn; try reflexivity.
  rewrite (Qzero_true Hq). destruct (Qzero p); reflexivity.
Qed.

Lemma xmax_zero (q : Q) :
  exists m, max zero (Fin q) = Fin m /\ m == Qminmax.Qmax 0 q.
Proof.
  cbn. destruct (Qlt_le_dec 0 q) as [Hlt|Hle].
  - exists q. split; [reflexivity|].
    symmetry. apply Qminmax.Q.max_r. apply Qlt_le_weak. exact Hlt.
  - exists 0. split; [reflexivity|].
    symmetry. apply Qminmax.Q.max_l. exact Hle.
Qed.

End ExactArith.

(** ** Rounding to binary64 *)

Section Rounding.

Local Open Scope Q_scope.

Lemma pow2_pos (e : Z) : 0 < pow2 e.
Proof. unfold pow2. apply Qpower_0_lt. reflexivity. Qed.

Lemma pow2_plus (a b : Z) : pow2 (a + b) == pow2 a * pow2 b.
Proof. unfold pow2. apply Qpower_plus. discriminate. Qed.

Lemma pow2_Z (n : Z) : (0 <= n)%Z -> pow2 n == inject_Z (2 ^ n).
Proof. intro Hn. unfold pow2. now rewrite (Zpower_Qpower 2 n Hn). Qed.

(** The nearest integer is within a half. *)
Lemma round_even_error (q : Q) :
  Qabs (inject_Z (round_even q) - q) <= 1 # 2.
Proof.
  unfold round_even.
  pose proof (Qfloor_le q) as Hlo. pose proof (Qlt_floor q) as Hhi.
  rewrite inject_Z_plus in Hhi. change (inject_Z 1) with 1 in Hhi.
  apply Qabs_Qle_condition.
  destruct (Qcompare_spec (q - inject_Z (Qfloor q)) (1 # 2)) as [E|E|E].
  - destruct (Z.even (Qfloor q));
      [|rewrite inject_Z_plus; change (inject_Z 1) with 1]; lra.
  - lra.
  - rewrite inject_Z_plus. change (inject_Z 1) with 1. lra.
Qed.

(** [2 ^ ilog2 q] is at most [q]. *)
Lemma ilog2_le (q : Q) : 0 < q -> pow2 (ilog2 q) <= q.
Proof.
  intro Hq. unfold ilog2.
  destruct (Qle_bool _ q) eqn:E; [now apply Qle_bool_iff|].
  clear E. destruct q as [n d].
  assert (Hn : (0 < n)%Z).
  { unfold Qlt in Hq. cbn in Hq. lia. }
  cbn [Qnum Qden].
  destruct (Z.log2_spec n Hn) as [Hn1 _].
  destruct (Z.log2_spec (Z.pos d) eq_refl) as [_ Hd2].
  pose proof (Z.log2_nonneg n) as Hln.
  pose proof (Z.log2_nonneg (Z.pos d)) as Hld.
  replace (Z.log2 n - Z.log2 (Z.pos d) - 1)%Z
    with (Z.log2 n + - Z.succ (Z.log2 (Z.pos d)))%Z by lia.
  rewrite pow2_plus. unfold pow2 at 2. rewrite Qpower_opp.
  fold (pow2 (Z.succ (Z.log2 (Z.pos d)))).
  rewrite !pow2_Z by lia.
  rewrite (Qmake_Qdiv n d).
  set (a := (2 ^ Z.log2 n)%Z) in *.
  set (b := (2 ^ Z.succ (Z.log2 (Z.pos d)))%Z) in *.
  assert (Hb : (0 < b)%Z) by lia.
  assert (Ha : (0 < a)%Z) by (unfold a; apply Z.pow_pos_nonneg; lia).
  assert (HbQ : 0 < inject_Z b) by (unfold Qlt; cbn; lia).
  assert (HdQ : 0 < inject_Z (Z.pos d)) by reflexivity.
  apply Qle_shift_div_l; [exact HdQ|].
  unfold Qdiv. rewrite Qmult_comm, Qmult_assoc.
  apply Qle_shift_div_r; [exact HbQ|].
  rewrite <- !inject_Z_mult. rewrite <- Zle_Qle. nia.
Qed.

(** Rounding a positive number moves it by at most the unit roundoff times
    the number, or by half the smallest binary64 number. *)
Lemma nearest_error (q : Q) :
  0 < q -> Qabs (nearest q - q) <= unit_roundoff * q + underflow.
Proof.
  intro Hq. unfold nearest.
  set (e := ulp_exp q). set (p := pow2 e).
  assert (Hp : 0 < p) by apply pow2_pos.
  set (s := q / p).
  assert (Hs : s * p == q) by (unfold s; field; lra).
  assert (E : inject_Z (round_even s) * p - q
              == (inject_Z (round_even s) - s) * p)
    by (rewrite <- Hs at 1; ring).
  rewrite E, Qabs_Qmult, (Qabs_pos p) by lra.
  pose proof (round_even_error s) as Hm.
  assert (Hhalf : Qabs (inject_Z (round_even s) - s) * p <= (1 # 2) * p).
  { apply Qmult_le_compat_r; [exact Hm | lra]. }
  assert (Hcase : (1 # 2) * p <= unit_roundoff * q
                  \/ (1 # 2) * p == underflow).
  { unfold p, e, ulp_exp.
    destruct (Z.max_spec (ilog2 q - 52) (-1074)) as [[_ ->]|[_ ->]].
    - right. reflexivity.
    - left. replace (ilog2 q - 52)%Z with (ilog2 q + -52)%Z by lia.
      rewrite pow2_plus. pose proof (ilog2_le Hq) as Hl.
      assert (Hu : unit_roundoff == (1 # 2) * pow2 (-52)) by reflexivity.
      rewrite Hu.
      assert (H52 : 0 < pow2 (-52)) by apply pow2_pos.
      nra. }
  pose proof (pow2_pos (-1075)) as Heta. fold underflow in Heta.
  assert (Hu0 : 0 < unit_roundoff) by apply pow2_pos.
  destruct Hcase as [Hc|Hc]; nra.
Qed.

Lemma b64_zero (q : Q) : q == 0 -> b64 q = Fin 0.
Proof.
  intro Hq. unfold b64, Qzero.
  assert (E : Qeq_bool q 0 = true) by now apply Qeq_bool_iff.
  now rewrite E.
Qed.

(** The standard model of binary64 arithmetic: an exact result of size at
    most 2^1023 is rounded to a finite number, with a relative error of at
    most 2^-53, or an absolute error of at most 2^-1075. *)
Lemma b64_error (q : Q) :
  Qabs q <= largest ->
  exists r, b64 q = Fin r
            /\ Qabs (r - q) <= unit_roundoff * Qabs q + underflow.
Proof.
  intro Hq. unfold b64, Qzero.
  destruct (Qeq_bool q 0) eqn:E0.
  - apply Qeq_bool_iff in E0. exists 0. split; [reflexivity|].
    rewrite E0. cbn. vm_compute. discriminate.
  - assert (Hne : ~ q == 0).
    { intro H. apply Qeq_bool_iff in H. congruence. }
    assert (Hpos : 0 < Qabs q).
    { pose proof (Qabs_nonneg q) as H0.
      destruct (Qlt_le_dec 0 (Qabs q)) as [H|H]; [exact H|].
      exfalso. apply Hne. revert H. apply Qabs_case; intros; lra. }
    pose proof (nearest_error Hpos) as Herr.
    set (r := nearest (Qabs q)) in *.
    apply Qabs_Qle_condition in Herr.
    assert (Hbig : largest * (1 + unit_roundoff) + underflow < pow2 1024)
      by (vm_compute; reflexivity).
    assert (Hu0 : 0 < unit_roundoff) by apply pow2_pos.
    assert (Hr : r < pow2 1024) by nra.
    destruct (Qle_bool (pow2 1024) r) eqn:Eo.
    { apply Qle_bool_iff in Eo. lra. }
    eexists. split; [reflexivity|].
    apply Qabs_Qle_condition.
    unfold Qneg. destruct (Qlt_le_dec q 0) as [Hn|Hn].
    + rewrite (Qabs_neg q) in * by lra. lra.
    + rewrite (Qabs_pos q) in * by lra. lra.
Qed.

Lemma u_small : 0 < unit_roundoff /\ unit_roundoff <= 1 # 1000.
Proof. split; vm_compute; [reflexivity|discriminate]. Qed.

Lemma eta_small : 0 < underflow /\ underflow <= 1 # 1000.
Proof. split; vm_compute; [reflexivity|discriminate]. Qed.

(** How far a position shown can be from the exact one: three unit
    roundoffs of the position, and an underflow term. *)
Definition tolerance (p size : Q) : Q :=
  3 * unit_roundoff * p + underflow * (2 * size + 1).

(** A position [p] of content of width [W], divided by [W] and multiplied
    by a width [W2], both with rounding. *)
Lemma shown_error (W W2 p : Q) :
  0 < W -> 0 <= p <= W -> 0 < W2 <= pow2 1022 ->
  exists f d,
    b64 (p / W) = Fin f
    /\ (if Qzero f then Fin 0 else b64 (f * W2)) = Fin d
    /\ Qabs (d - p / W * W2) <= tolerance (p / W * W2) W2.
Proof.
  intros HW [Hp0 HpW] [HW2 Hbig]. unfold tolerance.
  destruct u_small as [Hu0 Hu1]. destruct eta_small as [He0 He1].
  set (u := unit_roundoff) in *. set (eta := underflow) in *.
  set (t := p / W).
  assert (Ht : 0 <= t <= 1).
  { unfold t. split.
    - apply Qle_shift_div_l; lra.
    - apply Qle_shift_div_r; lra. }
  assert (Hl1 : 1 <= largest) by (vm_compute; discriminate).
  assert (H2 : 2 * pow2 1022 == largest) by reflexivity.
  assert (HA : 0 <= t * W2) by (apply Qmult_le_0_compat; lra).
  assert (HuA : 0 <= u * (t * W2)) by (apply Qmult_le_0_compat; lra).
  assert (HuuA : 0 <= u * (u * (t * W2)) <= u * (t * W2)).
  { split; [apply Qmult_le_0_compat; lra|].
    rewrite <- (Qmult_1_l (u * (t * W2))) at 2.
    apply Qmult_le_compat_r; lra. }
  assert (HeW : 0 <= eta * W2) by (apply Qmult_le_0_compat; lra).
  assert (HueW : 0 <= u * (eta * W2) <= eta * W2).
  { split; [apply Qmult_le_0_compat; lra|].
    rewrite <- (Qmult_1_l (eta * W2)) at 2.
    apply Qmult_le_compat_r; lra. }
  assert (Hut : 0 <= u * t <= 1 # 1000).
  { split; [apply Qmult_le_0_compat; lra|].
    apply Qle_trans with (u * 1); [apply Qmult_le_l; lra | lra]. }
  destruct (@b64_error t) as [f [Ef Hf]].
  { rewrite Qabs_pos; lra. }
  rewrite (Qabs_pos t) in Hf by lra.
  apply Qabs_Qle_condition in Hf. fold u eta in Hf.
  exists f.
  assert (Hgt : (t - u * t - eta) * W2 <= f * W2
                <= (t + u * t + eta) * W2).
  { split; apply Qmult_le_compat_r; lra. }
  unfold Qzero. destruct (Qeq_bool f 0) eqn:E0.
  - apply Qeq_bool_iff in E0. exists 0. split; [exact Ef|].
    split; [reflexivity|].
    apply Qabs_Qle_condition. rewrite E0 in Hgt.
    split; lra.
  - set (g := f * W2) in *.
    assert (Hf2 : 0 - 1 <= f <= 2) by lra.
    assert (Hg : Qabs g <= largest).
    { apply Qabs_Qle_condition. unfold g.
      assert (f * W2 <= 2 * W2) by (apply Qmult_le_compat_r; lra).
      assert ((0 - 1) * W2 <= f * W2) by (apply Qmult_le_compat_r; lra).
      split; lra. }
    destruct (@b64_error g Hg) as [d [Ed Hd]]. fold u eta in Hd.
    exists d. split; [exact Ef|]. split; [exact Ed|].
    assert (Hga : Qabs g <= (t + u * t + eta) * W2).
    { apply Qabs_Qle_condition. split; lra. }
    assert (Hug : u * Qabs g <= u * ((t + u * t + eta) * W2))
      by (apply Qmult_le_l; lra).
    apply Qabs_Qle_condition in Hd.
    apply Qabs_Qle_condition.
    fold t. split; lra.
Qed.

(** For content of at most 2^1022 pixels the tolerance is 1e-15 of the
    position, and 1e-15 of a pixel below one pixel. *)
Lemma tolerance_small (p size : Q) :
  0 <= p -> 0 < size <= pow2 1022 ->
  tolerance p size <= (1 # 1000000000000000) * Qmax 1 p.
Proof.
  intros Hp [Hs Hbig]. unfold tolerance.
  assert (Hu : 3 * unit_roundoff <= 4 # 10000000000000000)
    by (vm_compute; discriminate).
  assert (He : underflow * (2 * pow2 1022 + 1) <= 3 # 10000000000000000)
    by (vm_compute; discriminate).
  assert (He0 : 0 < underflow) by apply pow2_pos.
  assert (Hes : underflow * (2 * size + 1)
                <= underflow * (2 * pow2 1022 + 1))
    by (apply Qmult_le_l; lra).
  assert (Hup : 3 * unit_roundoff * p <= (4 # 10000000000000000) * p)
    by (apply Qmult_le_compat_r; lra).
  pose proof (Q.le_max_l 1 p) as H1. pose proof (Q.le_max_r 1 p) as H2.
  assert (Hpm : (4 # 10000000000000000) * p
                <= (4 # 10000000000000000) * Qmax 1 p)
    by (apply Qmult_le_l; [reflexivity | exact H2]).
  lra.
Qed.

(** The same bound, from a bound [B] on the size of the exact result. *)
Lemma b64_within (q B : Q) :
  Qabs q <= B -> B <= largest ->
  exists r, b64 q = Fin r
            /\ - (unit_roundoff * B + underflow) <= r - q
               <= unit_roundoff * B + underflow.
Proof.
  intros Hq HB.
  destruct (@b64_error q) as [r [Er Hr]]; [lra|].
  exists r. split; [exact Er|].
  destruct u_small as [Hu0 _].
  assert (Hm : unit_roundoff * Qabs q <= unit_roundoff * B).
  { apply Qmult_le_l; assumption. }
  apply Qabs_Qle_condition in Hr. lra.
Qed.

Lemma below_largest (M k : Q) :
  M <= pow2 1000 -> 0 <= k <= 1000 -> k * M <= largest.
Proof.
  intros HM Hk.
  assert (H1 : 1000 * pow2 1000 <= largest) by (vm_compute; discriminate).
  assert (H0 : 0 < pow2 1000) by apply pow2_pos.
  generalize dependent (pow2 1000). intros P HM H1 H0.
  destruct (Qlt_le_dec M 0).
  - assert (k * M <= 0).
    { setoid_replace (k * M) with (- (k * - M)) by ring.
      assert (0 <= k * - M) by (apply Qmult_le_0_compat; lra). lra. }
    lra.
  - assert (k * M <= 1000 * M).
    { apply Qmult_le_compat_r; lra. }
    lra.
Qed.

End Rounding.

(** The rounding of the model is that of the machine: on these numbers
    (fractions, sizes, the largest and the smallest binary64 numbers,
    numbers without a binary64 value of their own) the four operations of
    the kernel's floats give the value [b64] gives of the exact result. *)
Definition rounding_samples : list float :=
  [0.1; 0.3; 1; 7; 816; 1056; 612; 1.7976931348623157e308; 1e308;
   5e-324; 2.2250738585072014e-308; 1e-310; 9007199254740993;
   123456.789; -0.1; -7; 0.008578431372549019]%float.

Definition rounds_alike (machine : float -> float -> float)
    (exactly : Q -> Q -> Q) : bool :=
  forallb (fun a =>
             forallb (fun b =>
                        match of_float a, of_float b with
                        | Fin p, Fin q =>
                            xeqb (of_float (machine a b)) (b64 (exactly p q))
                        | _, _ => false
                        end)
                     rounding_samples)
          rounding_samples.

Example b64_is_binary64 :
  rounds_alike PrimFloat.add Qplus = true
  /\ rounds_alike PrimFloat.sub Qminus = true
  /\ rounds_alike PrimFloat.mul Qmult = true
  /\ rounds_alike PrimFloat.div Qdiv = true.
Proof. split; [|split; [|split]]; vm_compute; reflexivity. Qed.

(** ** Capture and display of a field position *)

Section RoundTrip.

Local Open Scope Q_scope.

Variable st : Viewer.State xrat.
Variable container : Viewer.Container xrat.
Variables W H sl stp : Q.

Hypothesis width_measured : Viewer.scrollWidth container = Fin W.
Hypothesis height_measured : Viewer.scrollHeight container = Fin H.
Hypothesis left_measured : Viewer.scrollLeft container = Fin sl.
Hypothesis top_measured : Viewer.scrollTop container = Fin stp.

(** The request a move issues. *)
Lemma moved_request (error : option string) (signatureId : string) (x y : Q) :
  ~ W == 0 -> ~ H == 0 ->
  exists rest,
    snd (Viewer.handleMoveSignature (Some container) error signatureId
                                    (Fin x) (Fin y) st)
    = Viewer.UpdatePosition signatureId (Fin ((x + sl) / W))
                            (Fin ((y + stp) / H)) :: rest.
Proof.
  intros HW HH. unfold Viewer.handleMoveSignature.
  rewrite width_measured, height_measured, left_measured, top_measured.
  cbn [add div exact xadd]. rewrite (xdiv_fin _ HW), (xdiv_fin _ HH).
  destruct error; cbn [snd]; eexists; reflexivity.
Qed.

End RoundTrip.

(** The same, with every operation rounded to binary64. *)
Section RoundedTrip.

Local Open Scope Q_scope.

Variable st : Viewer.State rfloat.
Variable container : Viewer.Container rfloat.
Variables W H sl stp : Q.

Hypothesis width_measured : Viewer.scrollWidth container = Fin W.
Hypothesis height_measured : Viewer.scrollHeight container = Fin H.
Hypothesis left_measured : Viewer.scrollLeft container = Fin sl.
Hypothesis top_measured : Viewer.scrollTop container = Fin stp.

(** The state a successful move leaves: the fractions are the rounded
    quotients of the rounded sums. *)
Lemma moved_rounded (signatureId : string) (x y px py : Q) :
  ~ W == 0 -> ~ H == 0 ->
  b64 (x + sl) = Fin px -> b64 (y + stp) = Fin py ->
  Viewer.signatures
    (fst (Viewer.handleMoveSignature (Some container) None signatureId
                                     (Fin x) (Fin y) st))
  = map (fun sig => if String.eqb (id sig) signatureId
                    then Viewer.set_position (b64 (px / W) : rfloat)
                                             (b64 (py / H) : rfloat) sig
                    else sig)
        (Viewer.signatures st).
Proof.
  intros HW HH Hx Hy. unfold Viewer.handleMoveSignature.
  cbn [fst Viewer.signatures].
  rewrite width_measured, height_measured, left_measured, top_measured.
  cbn [add div correctly_rounded xadd xround]. rewrite Hx, Hy.
  rewrite (xdiv_fin _ HW), (xdiv_fin _ HH). reflexivity.
Qed.

(** What the overlay makes of a stored fraction. *)
Lemma shown_rounded (f size : Q) :
  ((or_else (Fin f : rfloat) zero * (Fin size : rfloat))%js : rfloat)
  = if Qzero f then Fin 0 else b64 (f * size).
Proof.
  unfold or_else. cbn [truthy correctly_rounded xtruthy zero mul].
  destruct (Qzero f); cbn [negb xmul xround]; [|reflexivity].
  apply b64_zero. ring.
Qed.

(** A field moved to a position that is [px] by [py] within content of
    [W] by [H], and shown while the content is taken to measure [W2] by
    [H2]. *)
Lemma moved_then_shown (st2 : Viewer.State rfloat) (signatureId : string)
    (x y px py W2 H2 : Q) :
  0 < W -> 0 < H -> 0 < W2 <= pow2 1022 -> 0 < H2 <= pow2 1022 ->
  xeq (b64 (x + sl)) (Fin px) -> xeq (b64 (y + stp)) (Fin py) ->
  0 <= px <= W -> 0 <= py <= H ->
  Viewer.signatures st2
  = Viewer.signatures
      (fst (Viewer.handleMoveSignature (Some container) None signatureId
                                       (Fin x) (Fin y) st)) ->
  Viewer.currentPage st2 = Viewer.currentPage st ->
  Viewer.containerSize st2
  = {| Viewer.size_width := Fin W2; Viewer.size_height := Fin H2 |} ->
  (forall p, In p (Viewer.overlay st2) ->
             Field.field_id p = signatureId ->
             exists dx dy,
               Field.field_x p = Fin dx /\ Field.field_y p = Fin dy
               /\ Qabs (dx - px / W * W2) <= tolerance (px / W * W2) W2
               /\ Qabs (dy - py / H * H2) <= tolerance (py / H * H2) H2)
  /\ (forall sig, In sig (Viewer.signatures st) ->
                  id sig = signatureId ->
                  page_number sig = Viewer.currentPage st ->
                  exists p, In p (Viewer.overlay st2)
                            /\ Field.field_id p = signatureId).
Proof.
  intros HW HH HW2 HH2 Hx Hy Hpx Hpy Hsigs Hcp Hsize.
  assert (HW0 : ~ W == 0) by lra.
  assert (HH0 : ~ H == 0) by lra.
  destruct (b64 (x + sl)) as [| |px'] eqn:Ex; cbn in Hx; try contradiction.
  destruct (b64 (y + stp)) as [| |py'] eqn:Ey; cbn in Hy; try contradiction.
  rewrite (@moved_rounded signatureId x y px' py' HW0 HH0 Ex Ey) in Hsigs.
  unfold Viewer.overlay. rewrite Hsize, Hcp, Hsigs.
  cbn [Viewer.size_width Viewer.size_height].
  assert (Hgt : ((Fin W2 : rfloat) >? zero)%js = true).
  { cbn. destruct (Qlt_le_dec 0 W2); [reflexivity | lra]. }
  rewrite Hgt.
  split.
  - intros p Hin Hid.
    apply in_map_iff in Hin. destruct Hin as [s' [Hp Hin]].
    apply filter_In in Hin. destruct Hin as [Hin _].
    apply in_map_iff in Hin. destruct Hin as [s [Hs' _]].
    subst p. cbn [Field.field_id Field.field_x Field.field_y] in *.
    destruct (String.eqb (id s) signatureId) eqn:E.
    + subst s'. cbn [Viewer.set_position x_position y_position].
      destruct (@shown_error W W2 px') as [fx [dx [Efx [Edx Hdx]]]];
        [lra | lra | exact HW2 |].
      destruct (@shown_error H H2 py') as [fy [dy [Efy [Edy Hdy]]]];
        [lra | lra | exact HH2 |].
      exists dx, dy. rewrite Efx, Efy, !shown_rounded.
      split; [exact Edx|]. split; [exact Edy|].
      unfold tolerance in *. rewrite Hx in Hdx. rewrite Hy in Hdy.
      split; assumption.
    + subst s'. apply String.eqb_neq in E. contradiction.
  - intros sig Hin Hid Hpage.
    eexists. split.
    + apply in_map. apply filter_In. split.
      * apply in_map_iff. exists sig. split; [reflexivity | exact Hin].
      * rewrite Hid, String.eqb_refl. cbn [Viewer.set_position page_number].
        apply Z.eqb_eq. exact Hpage.
    + cbn [Field.field_id]. rewrite Hid, String.eqb_refl. exact Hid.
Qed.

(** C2.  With content of positive width and height (up to 2^1022), a
    field moved to a pixel position within the content (the pointer
    position plus the scroll offset, as the handler computes it) and then
    rendered by the overlay against the same content size is shown at that
    pixel position within the tolerance of binary64 arithmetic: three unit
    roundoffs (3 * 2^-53) of the position, plus an underflow term of
    2^-1075 * (2 * size + 1).  That is within 1e-15 of the position, and
    within 1e-15 of a pixel for positions below one pixel.  Every
    operation of the handler and of the overlay is rounded to the nearest
    binary64 number. *)
Theorem capture_display_round_trip :
  forall (signatureId : string) (x y px py : Q),
    0 < W <= pow2 1022 -> 0 < H <= pow2 1022 ->
    Viewer.containerSize st
      = {| Viewer.size_width := Fin W; Viewer.size_height := Fin H |} ->
    xeq (b64 (x + sl)) (Fin px) -> xeq (b64 (y + stp)) (Fin py) ->
    0 <= px <= W -> 0 <= py <= H ->
    let st' := fst (Viewer.handleMoveSignature (Some container) None
                                               signatureId (Fin x) (Fin y) st) in
    (forall p, In p (Viewer.overlay st') ->
               Field.field_id p = signatureId ->
               exists dx dy,
                 Field.field_x p = Fin dx /\ Field.field_y p = Fin dy
                 /\ Qabs (dx - px) <= tolerance px W
                 /\ Qabs (dy - py) <= tolerance py H
                 /\ Qabs (dx - px) <= (1 # 1000000000000000) * Qmax 1 px
                 /\ Qabs (dy - py) <= (1 # 1000000000000000) * Qmax 1 py)
    /\ (forall sig, In sig (Viewer.signatures st) ->
                    id sig = signatureId ->
                    page_number sig = Viewer.currentPage st ->
                    exists p, In p (Viewer.overlay st')
                              /\ Field.field_id p = signatureId).
Proof.
  intros signatureId x y px py HW HH Hsize Hx Hy Hpx Hpy st'.
  destruct (@moved_then_shown st' signatureId x y px py W H)
    as [Hall Hex]; try assumption; try reflexivity; try lra.
  split; [|exact Hex].
  intros p Hin Hid. destruct (Hall p Hin Hid) as [dx [dy [Ex [Ey [Hdx Hdy]]]]].
  exists dx, dy. split; [exact Ex|]. split; [exact Ey|].
  assert (Epx : px / W * W == px) by (field; lra).
  assert (Epy : py / H * H == py) by (field; lra).
  unfold tolerance in *. rewrite Epx in Hdx. rewrite Epy in Hdy.
  split; [exact Hdx|]. split; [exact Hdy|].
  split.
  - eapply Qle_trans; [exact Hdx|].
    apply (@tolerance_small px W); [lra | exact HW].
  - eapply Qle_trans; [exact Hdy|].
    apply (@tolerance_small py H); [lra | exact HH].
Qed.

End RoundedTrip.

(** A viewer with one pending field on page 1, measured at 800 by 1000. *)
Definition viewer_one {num} (x y w h cw ch : num) : Viewer.State num :=
  {| Viewer.signatures :=
       [ {| id := "f1"; document_id := "d1"; signer_email := "a@b.c";
            signer_name := Some "A"; status := pending;
            x_position := x; y_position := y; page_number := 1;
            width := w; height := h; signed_at := None;
            signature_data := None; rejection_reason := None |} ];
     Viewer.currentPage := 1;
     Viewer.containerSize :=
       {| Viewer.size_width := cw; Viewer.size_height := ch |} |}.

Definition box {num} (w h l t : num) : Viewer.Container num :=
  {| Viewer.scrollWidth := w; Viewer.scrollHeight := h;
     Viewer.scrollLeft := l; Viewer.scrollTop := t |}.

Lemma capture_display_round_trip_witness :
  exists p dx dy,
    In p (Viewer.overlay
            (fst (Viewer.handleMoveSignature
                    (Some (@box rfloat (Fin 816) (Fin 1056) (Fin 0) (Fin 200)))
                    None "f1" (Fin 7) (Fin 50)
                    (@viewer_one rfloat (Fin 0.1) (Fin 0.1) (Fin 150) (Fin 50)
                                 (Fin 816) (Fin 1056)))))
    /\ Field.field_x p = Fin dx /\ Field.field_y p = Fin dy
    /\ (Qabs (dx - 7) <= (1 # 1000000000000000) * Qmax 1 7)%Q
    /\ (Qabs (dy - 250) <= (1 # 1000000000000000) * Qmax 1 250)%Q.
Proof.
  destruct (@capture_display_round_trip
              (@viewer_one rfloat (Fin 0.1) (Fin 0.1) (Fin 150) (Fin 50)
                           (Fin 816) (Fin 1056))
              (@box rfloat (Fin 816) (Fin 1056) (Fin 0) (Fin 200))
              816%Q 1056%Q 0%Q 200%Q eq_refl eq_refl eq_refl eq_refl
              "f1" 7%Q 50%Q 7%Q 250%Q) as [Hall Hex].
  - split; [reflexivity | vm_compute; discriminate].
  - split; [reflexivity | vm_compute; discriminate].
  - reflexivity.
  - vm_compute. reflexivity.
  - vm_compute. reflexivity.
  - split; vm_compute; discriminate.
  - split; vm_compute; discriminate.
  - destruct (Hex _ (or_introl eq_refl) eq_refl eq_refl) as [p [Hin Hid]].
    destruct (Hall p Hin Hid) as [dx [dy [Ex [Ey [_ [_ [Hx Hy]]]]]]].
    exists p, dx, dy. auto.
Defined.

(** The same move in binary64. *)
Example round_trip_binary64 :
  (map (fun p => (Field.field_x p, Field.field_y p))
       (Viewer.overlay
          (fst (Viewer.handleMoveSignature
                  (Some (box 800 1000 0 200)) None "f1" 100 50
                  (viewer_one 0.1 0.1 150 50 800 1000))))
   = [(100, 250)])%float.
Proof. reflexivity. Qed.

(** ** Capture with unmeasured content *)

(** C4 as stated fails: with a content width and height of zero the move is
    not declined.  The update is requested with Infinity (10 / 0) and NaN
    (0 / 0) as coordinates, these are stored in the state, and no other
    signal is given; in binary64 as in exact arithmetic. *)
Lemma capture_zero_size_emits_infinity :
  (Viewer.handleMoveSignature (Some (box 0 0 0 0)) None "f1" 10 0
                              (viewer_one 0.1 0.1 150 50 0 0)
   = (viewer_one infinity nan 150 50 0 0,
      [Viewer.UpdatePosition "f1" infinity nan]))%float
  /\ Viewer.handleMoveSignature (Some (box (Fin 0) (Fin 0) (Fin 0) (Fin 0)))
                                None "f1" (Fin 10) (Fin 0)
                                (viewer_one (Fin 0.1) (Fin 0.1) (Fin 150)
                                            (Fin 50) (Fin 0) (Fin 0))
     = (viewer_one (Inf false) NaN (Fin 150) (Fin 50) (Fin 0) (Fin 0),
        [Viewer.UpdatePosition "f1" (Inf false) NaN]).
Proof. split; reflexivity. Qed.

(** C4, as the code behaves.  (a) A move is dropped, with no effect at all,
    only when the container element is absent.  (b) With a content width or
    height of zero the update is still requested, and the coordinate over
    the zero size is not finite (Infinity or NaN).  (c) With positive sizes
    and finite inputs both coordinates are finite.  (d) The readiness gate
    is on the display side: while the measured content width is not
    positive the overlay renders no field, so none can be dragged. *)
Theorem capture_not_ready_behaviour :
  (forall (num : Type) (N : Number num) error signatureId (x y : num) st,
      Viewer.handleMoveSignature None error signatureId x y st = (st, []))
  /\ (forall (c : Viewer.Container xrat) error signatureId x y st,
         exists nx ny rest,
           snd (Viewer.handleMoveSignature (Some c) error signatureId x y st)
           = Viewer.UpdatePosition signatureId nx ny :: rest
           /\ (forall q, Viewer.scrollWidth c = Fin q -> (q == 0)%Q ->
                         is_finite nx = false)
           /\ (forall q, Viewer.scrollHeight c = Fin q -> (q == 0)%Q ->
                         is_finite ny = false))
  /\ (forall (W H sl stp x y : Q) error signatureId st,
         (0 < W)%Q -> (0 < H)%Q ->
         exists qx qy rest,
           snd (Viewer.handleMoveSignature
                  (Some (box (Fin W) (Fin H) (Fin sl) (Fin stp)))
                  error signatureId (Fin x) (Fin y) st)
           = Viewer.UpdatePosition signatureId (Fin qx) (Fin qy) :: rest)
  /\ (forall (num : Type) (N : Number num) (st : Viewer.State num),
         (Viewer.size_width (Viewer.containerSize st) >? zero)%js = false ->
         Viewer.overlay st = []).
Proof.
  split; [|split; [|split]].
  - reflexivity.
  - intros c error signatureId x y st.
    unfold Viewer.handleMoveSignature.
    exists ((x + Viewer.scrollLeft c) / Viewer.scrollWidth c)%js,
           ((y + Viewer.scrollTop c) / Viewer.scrollHeight c)%js.
    assert (Hnf : (forall q, Viewer.scrollWidth c = Fin q -> (q == 0)%Q ->
                     is_finite ((x + Viewer.scrollLeft c)
                                / Viewer.scrollWidth c)%js = false)
                  /\ (forall q, Viewer.scrollHeight c = Fin q -> (q == 0)%Q ->
                        is_finite ((y + Viewer.scrollTop c)
                                   / Viewer.scrollHeight c)%js = false)).
    { split; intros q Hq Hq0; rewrite Hq; apply (xdiv_zero _ Hq0). }
    destruct error; cbn [snd]; eexists; (split; [reflexivity | exact Hnf]).
  - intros W H sl stp x y error signatureId st HW HH.
    assert (HW0 : ~ (W == 0)%Q) by (intro E; rewrite E in HW; discriminate).
    assert (HH0 : ~ (H == 0)%Q) by (intro E; rewrite E in HH; discriminate).
    destruct (@moved_request st (box (Fin W) (Fin H) (Fin sl) (Fin stp))
                W H sl stp eq_refl eq_refl eq_refl eq_refl
                error signatureId x y HW0 HH0) as [rest Hr].
    eexists _, _, rest. exact Hr.
  - intros num N st Hgate. unfold Viewer.overlay. rewrite Hgate. reflexivity.
Qed.

Lemma capture_not_ready_behaviour_witness :
  exists nx ny rest,
    snd (Viewer.handleMoveSignature
           (Some (box (Fin 0) (Fin 1000) (Fin 0) (Fin 0))) None "f1"
           (Fin 10) (Fin 5)
           (viewer_one (Fin 0.1) (Fin 0.1) (Fin 150) (Fin 50) (Fin 0) (Fin 0)))
    = Viewer.UpdatePosition "f1" nx ny :: rest
    /\ is_finite nx = false.
Proof.
  destruct (proj1 (proj2 capture_not_ready_behaviour)
              (box (Fin 0) (Fin 1000) (Fin 0) (Fin 0)) None "f1"
              (Fin 10) (Fin 5)
              (viewer_one (Fin 0.1) (Fin 0.1) (Fin 150) (Fin 50)
                          (Fin 0) (Fin 0)))
    as [nx [ny [rest [E [Hx _]]]]].
  exists nx, ny, rest. split; [exact E|].
  apply (Hx 0%Q); reflexivity.
Defined.

(** ** Clamping of dragged positions *)

Definition dragging {num} (dx dy : num) : Field.State num :=
  {| Field.isDragging := true;
     Field.dragOffset := {| Field.pt_x := dx; Field.pt_y := dy |} |}.

Definition mouse {num} (x y : num) : Field.MouseEvent num :=
  {| Field.clientX := x; Field.clientY := y |}.

Definition rect {num} (l t : num) : Field.DOMRect num :=
  {| Field.left := l; Field.top := t |}.

(** The pending field "f1" as the overlay renders it. *)
Definition shown_field {num} (x y w h : num) : Field.Props num :=
  {| Field.field_id := "f1"; Field.field_x := x; Field.field_y := y;
     Field.field_width := w; Field.field_height := h;
     Field.field_status := pending; Field.signatureData := None;
     Field.has_onMove := true; Field.isDraggable := true |}.



(** ** The stamping loop *)

Section StampingFacts.

Context {num : Type} `{Number num}.
Variable PDFImage : Type.
Variable embedPng : string -> option PDFImage.

Local Abbreviation Doc := (PDFDocument num PDFImage).
Local Abbreviation Page := (PDFPage num PDFImage).

(** The loop reaches [embedPng] for [sig], on a document of [n] pages:
    the signature data is truthy and [page_number - 1] is an index. *)
Definition stampable (n : nat) (sig : Signature num) : bool :=
  truthy_opt (signature_data sig)
  && (0 <=? page_number sig - 1) && (page_number sig - 1 <? Z.of_nat n).

(** [drawImage] accepts the place of [sig] on the page it names: none of
    the four numbers is NaN.  Of a field that names no page nothing is
    asked. *)
Definition drawable (pages : list Page) (sig : Signature num) : bool :=
  match index pages (page_number sig - 1) with
  | Some page => accepted (placement sig page)
  | None => true
  end.

(** The images [embedPng] makes of the data of [sigs]. *)
Definition images_of (sigs : list (Signature num)) : list PDFImage :=
  flat_map (fun sig => match signature_data sig with
                       | Some data => match embedPng data with
                                      | Some img => [img]
                                      | None => []
                                      end
                       | None => []
                       end) sigs.

(** Size and original content of a page. *)
Definition shape (p : Page) : num * num * string :=
  (getWidth p, getHeight p, content p).

(** [sig] has truthy signature data and names page [j] (from 0). *)
Definition on_page (j : nat) (sig : Signature num) : bool :=
  truthy_opt (signature_data sig) && (page_number sig - 1 =? Z.of_nat j).

(** The images of the fields of [sigs] on page [j], each with the place
    computed from the size of [page], in the order of [sigs]. *)
Definition drawn_by (sigs : list (Signature num)) (j : nat)
    (page : Page) : list (PDFImage * ImageOptions num) :=
  flat_map (fun sig =>
              if on_page j sig then
                match signature_data sig with
                | Some data => match embedPng data with
                               | Some img => [(img, placement sig page)]
                               | None => []
                               end
                | None => []
                end
              else []) sigs.

Lemma index_in_range {A} (l : list A) (i : Z) :
  0 <= i < Z.of_nat (List.length l) ->
  exists a, index l i = Some a /\ nth_error l (Z.to_nat i) = Some a.
Proof.
  intros [Hlo Hhi]. unfold index.
  destruct (i <? 0) eqn:E; [apply Z.ltb_lt in E; lia|].
  destruct (nth_error l (Z.to_nat i)) eqn:N; [eauto|].
  apply nth_error_None in N. lia.
Qed.

Lemma index_out_of_range {A} (l : list A) (i : Z) :
  i < 0 \/ Z.of_nat (List.length l) <= i -> index l i = None.
Proof.
  intros Hout. unfold index.
  destruct (i <? 0) eqn:E; [reflexivity|].
  apply Z.ltb_ge in E. apply nth_error_None. lia.
Qed.

Lemma set_nth_length {A} (n : nat) (a : A) (l : list A) :
  List.length (set_nth n a l) = List.length l.
Proof.
  revert n; induction l as [|b l IH]; intros [|n]; cbn; auto.
Qed.

Lemma set_nth_map {A B} (f : A -> B) (n : nat) (a b : A) (l : list A) :
  nth_error l n = Some b -> f a = f b ->
  map f (set_nth n a l) = map f l.
Proof.
  revert n; induction l as [|c l IH]; intros [|n] Hn Hf; cbn in *;
    try discriminate.
  - injection Hn as ->. now rewrite Hf.
  - f_equal. now apply IH.
Qed.

Lemma nth_error_set_nth {A} (i j : nat) (a : A) (l : list A) :
  nth_error (set_nth i a l) j
  = if Nat.eqb j i then option_map (fun _ => a) (nth_error l j)
    else nth_error l j.
Proof.
  revert i j. induction l as [|b l IH]; intros [|i] [|j]; cbn; auto.
  - destruct (Nat.eqb j i); reflexivity.
Qed.

Lemma set_nth_drawn (n : nat) (page : Page) (img : PDFImage)
    (opts : ImageOptions num) (l : list Page) :
  nth_error l n = Some page ->
  List.length (flat_map (@drawn num PDFImage)
                        (set_nth n (with_image page img opts) l))
  = S (List.length (flat_map (@drawn num PDFImage) l)).
Proof.
  revert n; induction l as [|c l IH]; intros [|n] Hn; cbn in *;
    try discriminate.
  - injection Hn as ->. rewrite !length_app. cbn. lia.
  - rewrite !length_app, (IH _ Hn). lia.
Qed.

Lemma stampable_data (n : nat) (sig : Signature num) :
  stampable n sig = true ->
  exists data, signature_data sig = Some data /\ truthy_str data = true
               /\ 0 <= page_number sig - 1 < Z.of_nat n.
Proof.
  unfold stampable. intro Hs.
  apply andb_prop in Hs. destruct Hs as [Hs Hhi].
  apply andb_prop in Hs. destruct Hs as [Ht Hlo].
  apply Z.leb_le in Hlo. apply Z.ltb_lt in Hhi.
  destruct (signature_data sig) as [data|]; [|discriminate].
  exists data. repeat split; auto.
Qed.

(** A field the loop does not reach leaves the document as it is. *)
Lemma stamp_signature_skip (doc : Doc) (sig : Signature num) :
  stampable (List.length (getPages doc)) sig = false ->
  stamp_signature embedPng doc sig = inr doc.
Proof.
  unfold stampable, stamp_signature. intro Hs.
  destruct (signature_data sig) as [data|]; [|reflexivity].
  cbn [truthy_opt] in Hs.
  destruct (truthy_str data); [|reflexivity].
  rewrite index_out_of_range; [reflexivity|].
  cbn [andb] in Hs. apply andb_false_iff in Hs.
  destruct Hs as [Hs|Hs]; [apply Z.leb_gt in Hs | apply Z.ltb_ge in Hs]; lia.
Qed.

(** A field the loop reaches: [embedPng] throws, or [drawImage] throws,
    or the image is embedded and drawn on the page the field names. *)
Lemma stamp_signature_reach (doc : Doc) (sig : Signature num) :
  stampable (List.length (getPages doc)) sig = true ->
  exists data page,
    signature_data sig = Some data
    /\ index (getPages doc) (page_number sig - 1) = Some page
    /\ nth_error (getPages doc) (Z.to_nat (page_number sig - 1)) = Some page
    /\ stamp_signature embedPng doc sig
       = match embedPng data with
         | None => inl (EmbedError data)
         | Some img =>
             if accepted (placement sig page)
             then inr {| getPages :=
                           set_nth (Z.to_nat (page_number sig - 1))
                                   (with_image page img (placement sig page))
                                   (getPages doc);
                         embedded := embedded doc ++ [img] |}
             else inl DrawError
         end.
Proof.
  intro Hs. destruct (stampable_data _ _ Hs) as [data [Hd [Ht Hr]]].
  destruct (index_in_range (getPages doc) Hr) as [page [Hi Hn]].
  exists data, page. split; [exact Hd|]. split; [exact Hi|].
  split; [exact Hn|].
  destruct (embedPng data) as [img|] eqn:He.
  - apply stamp_signature_draws with (data := data); assumption.
  - unfold stamp_signature. rewrite Hd, Ht, Hi, He. reflexivity.
Qed.

(** The loop body keeps the size and content of every page. *)
Lemma stamp_signature_shape (doc doc' : Doc) (sig : Signature num) :
  stamp_signature embedPng doc sig = inr doc' ->
  map shape (getPages doc') = map shape (getPages doc).
Proof.
  destruct (stampable (List.length (getPages doc)) sig) eqn:Hs.
  - destruct (stamp_signature_reach doc sig Hs)
      as [data [page [_ [_ [Hn ->]]]]].
    destruct (embedPng data) as [img|]; [|discriminate].
    destruct (accepted (placement sig page)); [|discriminate].
    intro E. injection E as <-. cbn [getPages].
    apply set_nth_map with (b := page); [exact Hn | reflexivity].
  - rewrite (stamp_signature_skip _ _ Hs). intro E. now injection E as <-.
Qed.

Lemma map_shape_length (l l' : list Page) :
  map shape l' = map shape l -> List.length l' = List.length l.
Proof. intro E. rewrite <- (length_map shape l'), E. apply length_map. Qed.

(** What [drawImage] is asked depends on the size of the page only. *)
Lemma drawable_shape (l l' : list Page) (sig : Signature num) :
  map shape l' = map shape l -> drawable l' sig = drawable l sig.
Proof.
  intro E. unfold drawable, index.
  destruct (page_number sig - 1 <? 0); [reflexivity|].
  assert (En : nth_error (map shape l') (Z.to_nat (page_number sig - 1))
               = nth_error (map shape l) (Z.to_nat (page_number sig - 1)))
    by now rewrite E.
  rewrite !nth_error_map in En.
  destruct (nth_error l' _) as [p'|], (nth_error l _) as [p|];
    cbn in En; try discriminate; [|reflexivity].
  injection En as Hw Hh _. unfold placement. now rewrite Hw, Hh.
Qed.

(** The loop over a list is the loop over the fields it reaches. *)
Lemma stamp_filter (sigs : list (Signature num)) :
  forall doc : Doc,
    stamp embedPng doc sigs
    = stamp embedPng doc (filter (stampable (List.length (getPages doc))) sigs).
Proof.
  unfold stamp. induction sigs as [|sig sigs IH]; intro doc; [reflexivity|].
  cbn [filter for_of].
  destruct (stampable (List.length (getPages doc)) sig) eqn:Hs.
  - cbn [for_of].
    destruct (stamp_signature embedPng doc sig) as [e|doc'] eqn:E;
      [reflexivity|]. cbn [bind].
    rewrite (IH doc'),
      (map_shape_length _ _ (stamp_signature_shape _ _ E)).
    reflexivity.
  - rewrite (stamp_signature_skip _ _ Hs). cbn [bind]. apply IH.
Qed.

(** The images decode and their places are accepted, for the fields of
    [sigs] the loop reaches on [doc]. *)
Definition goes_through (doc : Doc) (sigs : list (Signature num)) : Prop :=
  forall sig, In sig sigs ->
              stampable (List.length (getPages doc)) sig = true ->
              drawable (getPages doc) sig = true
              /\ forall data, signature_data sig = Some data ->
                              embedPng data <> None.

Lemma goes_through_tail (doc doc1 : Doc) sig (sigs : list (Signature num)) :
  goes_through doc (sig :: sigs) ->
  map shape (getPages doc1) = map shape (getPages doc) ->
  goes_through doc1 sigs.
Proof.
  intros Hok Hshape s Hin. rewrite (map_shape_length _ _ Hshape).
  intro Hs. rewrite (@drawable_shape (getPages doc) (getPages doc1) s Hshape).
  apply Hok; [now right|exact Hs].
Qed.

(** A field that goes through is embedded and drawn. *)
Lemma stamp_signature_through (doc : Doc) sig (sigs : list (Signature num)) :
  goes_through doc (sig :: sigs) ->
  stampable (List.length (getPages doc)) sig = true ->
  exists data img page,
    signature_data sig = Some data /\ truthy_str data = true
    /\ embedPng data = Some img
    /\ nth_error (getPages doc) (Z.to_nat (page_number sig - 1)) = Some page
    /\ stamp_signature embedPng doc sig
       = inr {| getPages :=
                  set_nth (Z.to_nat (page_number sig - 1))
                          (with_image page img (placement sig page))
                          (getPages doc);
                embedded := embedded doc ++ [img] |}.
Proof.
  intros Hok Hs.
  destruct (Hok sig (or_introl eq_refl) Hs) as [Hdraw Hdec].
  destruct (stampable_data _ _ Hs) as [data0 [Hd0 [Ht _]]].
  destruct (stamp_signature_reach doc sig Hs)
    as [data [page [Hd [Hi [Hn E]]]]].
  assert (data0 = data) by congruence. subst data0.
  specialize (Hdec data Hd).
  destruct (embedPng data) as [img|] eqn:He; [|contradiction].
  unfold drawable in Hdraw. rewrite Hi in Hdraw. rewrite Hdraw in E.
  exists data, img, page. auto.
Qed.

(** When the fields the loop reaches go through, the loop ends: the pages
    keep size and content, and one image is embedded and drawn per field
    reached, in order. *)
Lemma stamp_succeeds (sigs : list (Signature num)) :
  forall doc : Doc,
    goes_through doc sigs ->
    let reached := filter (stampable (List.length (getPages doc))) sigs in
    exists doc',
      stamp embedPng doc sigs = inr doc'
      /\ map shape (getPages doc') = map shape (getPages doc)
      /\ embedded doc' = embedded doc ++ images_of reached
      /\ List.length (images_drawn doc')
         = (List.length (images_drawn doc) + List.length reached)%nat.
Proof.
  unfold stamp. induction sigs as [|sig sigs IH]; intros doc Hok; cbn zeta.
  - exists doc. cbn. rewrite app_nil_r, Nat.add_0_r. auto.
  - cbn [filter for_of].
    destruct (stampable (List.length (getPages doc)) sig) eqn:Hs.
    + destruct (@stamp_signature_through _ _ _ Hok Hs)
        as [data [img [page [Hd [_ [He [Hn E]]]]]]].
      pose proof (stamp_signature_shape _ _ E) as Hshape.
      rewrite E. cbn [bind].
      pose proof (map_shape_length _ _ Hshape) as Hlen.
      destruct (IH _ (@goes_through_tail _ _ _ _ Hok Hshape))
        as [doc' [E' [Hshape' [Hemb' Hdrawn']]]].
      rewrite Hlen in *. cbn [getPages embedded] in *.
      exists doc'. split; [exact E'|]. split; [congruence|]. split.
      * rewrite Hemb', <- app_assoc. f_equal.
        cbn [images_of flat_map]. rewrite Hd, He. reflexivity.
      * rewrite Hdrawn'. unfold images_drawn at 1. cbn [getPages].
        rewrite (set_nth_drawn _ _ _ _ Hn). unfold images_drawn.
        cbn [List.length]. lia.
    + rewrite (stamp_signature_skip _ _ Hs). cbn [bind].
      apply IH. intros s Hin. apply Hok. now right.
Qed.

(** When the fields the loop reaches go through, each page of the result
    is the page of the original followed by the images of the fields that
    name it. *)
Lemma stamp_pages (sigs : list (Signature num)) :
  forall doc : Doc,
    goes_through doc sigs ->
    exists doc',
      stamp embedPng doc sigs = inr doc'
      /\ List.length (getPages doc') = List.length (getPages doc)
      /\ forall j page,
           nth_error (getPages doc) j = Some page ->
           exists page',
             nth_error (getPages doc') j = Some page'
             /\ getWidth page' = getWidth page
             /\ getHeight page' = getHeight page
             /\ content page' = content page
             /\ drawn page' = drawn page ++ drawn_by sigs j page.
Proof.
  unfold stamp. induction sigs as [|a rest IH]; intros doc Hok.
  - exists doc. cbn. split; [reflexivity|]. split; [reflexivity|].
    intros j page Hj. exists page. rewrite app_nil_r. auto.
  - cbn [for_of].
    destruct (stampable (List.length (getPages doc)) a) eqn:Hs.
    + destruct (@stamp_signature_through _ _ _ Hok Hs)
        as [data [img [pg [Hd [Ht [He [Hn E]]]]]]].
      pose proof (stamp_signature_shape _ _ E) as Hshape.
      rewrite E. cbn [bind].
      set (i := Z.to_nat (page_number a - 1)) in *.
      set (doc1 := {| getPages := set_nth i (with_image pg img (placement a pg))
                                          (getPages doc);
                      embedded := embedded doc ++ [img] |}) in *.
      assert (Hlen : List.length (getPages doc1) = List.length (getPages doc))
        by apply set_nth_length.
      destruct (IH doc1 (@goes_through_tail _ _ _ _ Hok Hshape))
        as [doc' [E' [Hlen' Hpages]]].
      exists doc'. split; [exact E'|]. split; [congruence|].
      intros j page Hj.
      assert (Hj1 : nth_error (getPages doc1) j
                    = if Nat.eqb j i
                      then Some (with_image pg img (placement a pg))
                      else Some page).
      { unfold doc1. cbn [getPages]. rewrite nth_error_set_nth, Hj.
        destruct (Nat.eqb j i); reflexivity. }
      unfold drawn_by. cbn [flat_map]. fold (drawn_by rest j page).
      unfold on_page at 1. rewrite Hd. cbn [truthy_opt]. rewrite Ht, He.
      cbn [andb].
      destruct (stampable_data _ _ Hs) as [_ [_ [_ Hr]]].
      destruct (Nat.eqb j i) eqn:Eji.
      * apply Nat.eqb_eq in Eji. subst j.
        assert (pg = page) by congruence. subst pg.
        destruct (Hpages _ _ Hj1) as [page' [Hp' [Hw [Hh [Hc Hdr]]]]].
        exists page'. split; [exact Hp'|].
        cbn [with_image getWidth getHeight content drawn] in Hw, Hh, Hc, Hdr.
        repeat split; auto.
        assert (Ei : (page_number a - 1 =? Z.of_nat i) = true).
        { apply Z.eqb_eq. unfold i. lia. }
        rewrite Ei, Hdr, <- app_assoc. cbn [app]. reflexivity.
      * destruct (Hpages _ _ Hj1) as [page' [Hp' [Hw [Hh [Hc Hdr]]]]].
        exists page'. repeat split; auto.
        assert (Ei : (page_number a - 1 =? Z.of_nat j) = false).
        { apply Z.eqb_neq. apply Nat.eqb_neq in Eji. unfold i in Eji. lia. }
        rewrite Ei. exact Hdr.
    + rewrite (stamp_signature_skip _ _ Hs). cbn [bind].
      destruct (IH doc) as [doc' [E [Hlen' Hpages]]].
      { intros s Hin. apply Hok. now right. }
      exists doc'. split; [exact E|]. split; [exact Hlen'|].
      intros j page Hj.
      destruct (Hpages _ _ Hj) as [page' [Hp' [Hw [Hh [Hc Hdr]]]]].
      exists page'. repeat split; auto.
      unfold drawn_by. cbn [flat_map]. fold (drawn_by rest j page).
      assert (Hoff : on_page j a = false).
      { unfold on_page. unfold stampable in Hs.
        destruct (truthy_opt (signature_data a)); [|reflexivity].
        cbn [andb] in *.
        destruct (page_number a - 1 =? Z.of_nat j) eqn:Ej; [|reflexivity].
        apply Z.eqb_eq in Ej.
        assert (Hlt : (j < List.length (getPages doc))%nat).
        { apply nth_error_Some. congruence. }
        apply andb_false_iff in Hs.
        destruct Hs as [Hs|Hs];
          [apply Z.leb_gt in Hs | apply Z.ltb_ge in Hs]; lia. }
      rewrite Hoff. exact Hdr.
Qed.

(** A field that names no page, or has no truthy data, draws on no
    page. *)
Lemma drawn_by_skip (before after : list (Signature num)) sig j
    (page : Page) :
  on_page j sig = false ->
  drawn_by (before ++ sig :: after) j page = drawn_by (before ++ after) j page.
Proof.
  intro Hoff. unfold drawn_by. rewrite !flat_map_app. cbn [flat_map].
  rewrite Hoff. reflexivity.
Qed.

(** The loop has thrown as [embedPng] does on data it cannot decode, or
    as [drawImage] does on a place that is not made of numbers. *)
Definition aborted (e : Thrown) : Prop :=
  e = DrawError \/ exists d, e = EmbedError d /\ embedPng d = None.

(** When some image the loop reaches does not decode, the loop throws:
    there, or earlier; and as [embedPng] does when every place is
    accepted. *)
Lemma stamp_throws (sigs : list (Signature num)) :
  forall (doc : Doc) sig data,
    In sig sigs ->
    stampable (List.length (getPages doc)) sig = true ->
    signature_data sig = Some data -> embedPng data = None ->
    exists e, stamp embedPng doc sigs = inl e /\ aborted e
              /\ ((forall s, In s sigs -> drawable (getPages doc) s = true) ->
                  exists d, e = EmbedError d /\ embedPng d = None).
Proof.
  unfold stamp. induction sigs as [|a sigs IH]; intros doc sig data Hin Hs Hd He;
    [contradiction|].
  cbn [for_of].
  destruct (stampable (List.length (getPages doc)) a) eqn:Ha.
  - destruct (stamp_signature_reach doc a Ha)
      as [da [page [Hda [Hi [_ E]]]]].
    destruct (embedPng da) as [img|] eqn:Hea.
    + destruct (accepted (placement a page)) eqn:Hacc.
      * match type of E with _ = inr ?d => set (doc1 := d) in * end.
        pose proof (stamp_signature_shape _ _ E) as Hshape.
        rewrite E. cbn [bind].
        destruct Hin as [->|Hin]; [congruence|].
        destruct (IH doc1 sig data Hin) as [e [Ee [Hab Hemb]]]; auto.
        { rewrite (map_shape_length _ _ Hshape). exact Hs. }
        exists e. split; [exact Ee|]. split; [exact Hab|].
        intro Hdraw. apply Hemb. intros s Hs'.
        rewrite (@drawable_shape (getPages doc) (getPages doc1) s Hshape).
        apply Hdraw. now right.
      * rewrite E. exists DrawError. split; [reflexivity|].
        split; [now left|]. intro Hdraw.
        specialize (Hdraw a (or_introl eq_refl)).
        unfold drawable in Hdraw. rewrite Hi in Hdraw. congruence.
    + rewrite E. exists (EmbedError da). split; [reflexivity|].
      split; [right; eauto | eauto].
  - rewrite (stamp_signature_skip _ _ Ha). cbn [bind].
    destruct Hin as [->|Hin]; [congruence|].
    destruct (IH doc sig data Hin) as [e [Ee [Hab Hemb]]]; auto.
    exists e. split; [exact Ee|]. split; [exact Hab|].
    intro Hdraw. apply Hemb. intros s Hs'. apply Hdraw. now right.
Qed.

End StampingFacts.

(** ** The stamper as a whole *)

Section HandlerFacts.

Context {num : Type} `{Number num}.
Variables Bytes PDFImage : Type.
Variable load : Bytes -> option (PDFDocument num PDFImage).
Variable embedPng : string -> option PDFImage.
Variable save : PDFDocument num PDFImage -> Bytes.
Variable getPublicUrl : string -> string.

(** The rows the query of the handler selects for a document. *)
Definition selected (be : Backend num Bytes) (document_id : string)
    : list (Signature num) :=
  filter (fun s => String.eqb (Model.document_id s) document_id
                   && status_eqb (status s) signed)
         (signatures be).

(** Everything before the loop goes through: the request names a document,
    its row and file are found, the query reports no fault and the file
    parses to [pdfDoc]. *)
Record reaches_loop (req : Request) (be : Backend num Bytes)
    (document_id : string) (document : DocumentRow)
    (pdfDoc : PDFDocument num PDFImage) : Prop := {
  request_method : String.eqb (method req) "OPTIONS" = false;
  request_id : json req = Some (Some document_id);
  request_id_truthy : truthy_str document_id = true;
  document_found : select_document be document_id = inr document;
  file_loaded : exists bytes,
      lookup (file_path document) (bucket_documents be) = Some bytes
      /\ load bytes = Some pdfDoc;
  query_answers : sig_fault be = None;
}.

Lemma build_loop req be document_id document pdfDoc now :
  reaches_loop req be document_id document pdfDoc ->
  build load embedPng save now req be
  = bind (stamp embedPng pdfDoc (selected be document_id))
         (fun stamped => ret (signedFileName document now, save stamped)).
Proof.
  intros [_ Hid Ht Hdoc [bytes [Hfile Hload]] Hq].
  unfold build, select_signed. rewrite Hid. cbn [bind ret].
  rewrite Ht. cbn [bind ret]. rewrite Hdoc. cbn [bind ret].
  rewrite Hfile. cbn [bind ret]. rewrite Hq. cbn [bind ret].
  rewrite Hload. reflexivity.
Qed.

(** Every selected row is signed: pending and rejected rows never reach
    the loop. *)
Lemma selected_signed be document_id sig :
  In sig (selected be document_id) ->
  In sig (signatures be) /\ status sig = signed
  /\ Model.document_id sig = document_id.
Proof.
  unfold selected. intro Hin. apply filter_In in Hin.
  destruct Hin as [Hin Hb]. apply andb_prop in Hb. destruct Hb as [Hd Hs].
  apply String.eqb_eq in Hd.
  destruct (status sig); try discriminate. auto.
Qed.

(** A response other than success leaves the service as it was: nothing
    is uploaded. *)
Lemma serve_failure_uploads_nothing now req be :
  resp_status (fst (serve load embedPng save getPublicUrl now req be)) <> 200 ->
  snd (serve load embedPng save getPublicUrl now req be) = be.
Proof.
  unfold serve. destruct (String.eqb (method req) "OPTIONS"); [reflexivity|].
  destruct (bind _ _) as [e|[url be']]; cbn; [reflexivity|].
  intro Hne. exfalso. apply Hne. reflexivity.
Qed.

End HandlerFacts.

(** What [supabase.functions.invoke] may hand back for a response of the
    handler: a response outside 2xx as [error], or the JSON body as [data],
    where [message] renders a thrown value. *)
Definition delivered (message : Thrown -> string) (r : Response)
    (i : Viewer.Invoked) : Prop :=
  (resp_status r <> 200 /\ Viewer.inv_error i <> None)
  \/ (Viewer.inv_error i = None
      /\ match resp_body r with
         | ErrorBody e => Viewer.data_error i = Some (message e)
                          /\ Viewer.data_signedUrl i = None
         | SignedUrl u => Viewer.data_error i = None
                          /\ Viewer.data_signedUrl i = Some u
         | Ok_text => Viewer.data_error i = None
                      /\ Viewer.data_signedUrl i = None
         end).

Section StamperClaims.

Context {num : Type} `{Number num}.
Variables Bytes PDFImage : Type.
Variable load : Bytes -> option (PDFDocument num PDFImage).
Variable embedPng : string -> option PDFImage.
Variable save : PDFDocument num PDFImage -> Bytes.
Variable getPublicUrl : string -> string.

(** C6.  When the handler reaches the loop and the fields it reaches go
    through (their images decode and [drawImage] accepts their places),
    the bytes it saves are those of a document [stamped] with the pages of
    the original in size and content, and with one image embedded and
    drawn for each row of the document that is signed, has truthy
    signature data and a page in range, and for no other row: pending and
    rejected rows are not selected.  Each page carries what it carried,
    followed by the images of the selected rows that name it.  So when
    every signed row has an image and a page, there are as many new images
    as signed rows (2 for 3 fields of which 2 are signed), and with no
    signed row the document is unchanged. *)
Theorem stamping_embeds_signed_only :
  forall req be document_id document pdfDoc now,
    reaches_loop load req be document_id document pdfDoc ->
    goes_through embedPng pdfDoc (selected be document_id) ->
    let reached := filter (stampable (List.length (getPages pdfDoc)))
                          (selected be document_id) in
    exists stamped,
      build load embedPng save now req be
      = inr (signedFileName document now, save stamped)
      /\ map (@shape num PDFImage) (getPages stamped)
         = map (@shape num PDFImage) (getPages pdfDoc)
      /\ embedded stamped = embedded pdfDoc ++ images_of embedPng reached
      /\ List.length (images_drawn stamped)
         = (List.length (images_drawn pdfDoc) + List.length reached)%nat
      /\ (forall j page,
             nth_error (getPages pdfDoc) j = Some page ->
             exists page',
               nth_error (getPages stamped) j = Some page'
               /\ drawn page'
                  = drawn page
                    ++ drawn_by embedPng (selected be document_id) j page)
      /\ (forall sig, In sig reached ->
                      In sig (signatures be) /\ status sig = signed
                      /\ signature_data sig <> None)
      /\ ((forall sig, In sig (selected be document_id) ->
                       stampable (List.length (getPages pdfDoc)) sig = true) ->
          List.length (images_drawn stamped)
          = (List.length (images_drawn pdfDoc)
             + List.length (selected be document_id))%nat)
      /\ (selected be document_id = [] -> stamped = pdfDoc).
Proof.
  intros req be document_id document pdfDoc now Hreach Hok reached.
  destruct (@stamp_succeeds _ _ _ embedPng (selected be document_id) pdfDoc Hok)
    as [stamped [E [Hshape [Hemb Hdrawn]]]].
  destruct (@stamp_pages _ _ _ embedPng (selected be document_id) pdfDoc Hok)
    as [stamped' [E' [_ Hpages]]].
  assert (stamped' = stamped) by congruence. subst stamped'.
  exists stamped.
  split; [rewrite (build_loop embedPng save now Hreach), E; reflexivity|].
  split; [exact Hshape|]. split; [exact Hemb|]. split; [exact Hdrawn|].
  split; [|split; [|split]].
  - intros j page Hj.
    destruct (Hpages j page Hj) as [page' [Hp [_ [_ [_ Hd]]]]]. eauto.
  - intros sig Hin. apply filter_In in Hin. destruct Hin as [Hsel Hs].
    destruct (selected_signed _ _ _ Hsel) as [Hin [Hst _]].
    destruct (stampable_data _ _ Hs) as [data [Hd _]].
    repeat split; auto. congruence.
  - intro Hall. rewrite Hdrawn. f_equal. unfold reached. f_equal.
    apply forallb_filter_id. apply forallb_forall. exact Hall.
  - intro Hnil. rewrite Hnil in E. cbn in E. congruence.
Qed.

(** C7.  When the loop reaches a signature whose image does not decode,
    the handler answers 500 with what the loop threw, uploads nothing (the
    service is as before), and the caller, whatever the client makes of
    that response, opens no document: it only shows the error.  What the
    loop threw is the error of [embedPng] on data it cannot decode, unless
    [drawImage] has thrown on an earlier field; it is the error of
    [embedPng] whenever the places of the fields are accepted. *)
Theorem embed_failure_aborts_run :
  forall req be document_id document pdfDoc now sig data,
    reaches_loop load req be document_id document pdfDoc ->
    In sig (selected be document_id) ->
    stampable (List.length (getPages pdfDoc)) sig = true ->
    signature_data sig = Some data ->
    embedPng data = None ->
    exists e,
      aborted embedPng e
      /\ ((forall s, In s (selected be document_id) ->
                     drawable (getPages pdfDoc) s = true) ->
          exists d, e = EmbedError d /\ embedPng d = None)
      /\ serve load embedPng save getPublicUrl now req be
         = ({| resp_status := 500; resp_body := ErrorBody e |}, be)
      /\ forall message r,
           delivered message
                     (fst (serve load embedPng save getPublicUrl now req be)) r ->
           forall eff : Viewer.Effect num,
             In eff (Viewer.downloadDocument r) ->
             exists title description, eff = Viewer.Toast title description.
Proof.
  intros req be document_id document pdfDoc now sig data Hreach Hin Hs Hd He.
  destruct (@stamp_throws _ _ _ embedPng _ pdfDoc sig data Hin Hs Hd He)
    as [e [E [Hab Hemb]]].
  exists e. split; [exact Hab|]. split; [exact Hemb|].
  assert (Hserve : serve load embedPng save getPublicUrl now req be
                   = ({| resp_status := 500; resp_body := ErrorBody e |}, be)).
  { unfold serve. rewrite (request_method Hreach).
    rewrite (build_loop embedPng save now Hreach), E. reflexivity. }
  split; [exact Hserve|].
  rewrite Hserve. cbn [fst]. intros message r Hdel eff Heff.
  unfold Viewer.downloadDocument in Heff.
  destruct Hdel as [[_ Herr] | [Herr [Hde Hurl]]]; cbn [resp_body] in *.
  - destruct (Viewer.inv_error r); [|contradiction].
    destruct Heff as [<-|[]]. eauto.
  - rewrite Herr, Hde, Hurl in Heff. cbn [truthy_opt] in Heff.
    destruct (truthy_str (message e));
      destruct Heff as [<-|[]]; eauto.
Qed.

(** C8.  A field whose [page_number - 1] is no index of the page list is
    passed over: the run with it is the run without it, so it aborts
    nothing and every other field is stamped as if it were not there.
    When the other fields go through (their images decode and [drawImage]
    accepts their places), the run ends, with exactly their images
    embedded, and every page carries what it carried followed by the
    images of the other fields that name it, each drawn at its place. *)
Theorem out_of_range_page_skipped :
  forall (pdfDoc : PDFDocument num PDFImage) before after bad,
    page_number bad - 1 < 0
    \/ Z.of_nat (List.length (getPages pdfDoc)) <= page_number bad - 1 ->
    stamp embedPng pdfDoc (before ++ bad :: after)
    = stamp embedPng pdfDoc (before ++ after)
    /\ (goes_through embedPng pdfDoc (before ++ after) ->
        exists stamped,
          stamp embedPng pdfDoc (before ++ bad :: after) = inr stamped
          /\ embedded stamped
             = embedded pdfDoc
               ++ images_of embedPng
                    (filter (stampable (List.length (getPages pdfDoc)))
                            (before ++ after))
          /\ forall j page,
               nth_error (getPages pdfDoc) j = Some page ->
               exists page',
                 nth_error (getPages stamped) j = Some page'
                 /\ shape page' = shape page
                 /\ drawn page'
                    = drawn page
                      ++ drawn_by embedPng (before ++ after) j page).
Proof.
  intros pdfDoc before after bad Hout.
  assert (Hbad : stampable (List.length (getPages pdfDoc)) bad = false).
  { unfold stampable. apply andb_false_iff.
    destruct Hout as [Hlo|Hhi].
    - left. apply andb_false_iff. right. apply Z.leb_gt. exact Hlo.
    - right. apply Z.ltb_ge. exact Hhi. }
  assert (Heq : stamp embedPng pdfDoc (before ++ bad :: after)
                = stamp embedPng pdfDoc (before ++ after)).
  { rewrite (stamp_filter embedPng (before ++ bad :: after)).
    rewrite (stamp_filter embedPng (before ++ after)).
    rewrite !filter_app. cbn [filter]. rewrite Hbad. reflexivity. }
  split; [exact Heq|].
  intro Hok. rewrite Heq.
  destruct (@stamp_succeeds _ _ _ embedPng (before ++ after) pdfDoc Hok)
    as [stamped [E [_ [Hemb _]]]].
  destruct (@stamp_pages _ _ _ embedPng (before ++ after) pdfDoc Hok)
    as [stamped' [E' [_ Hpages]]].
  assert (stamped' = stamped) by congruence. subst stamped'.
  exists stamped. split; [exact E|]. split; [exact Hemb|].
  intros j page Hj.
  destruct (Hpages j page Hj) as [page' [Hp [Hw [Hh [Hc Hd]]]]].
  exists page'. split; [exact Hp|]. split; [|exact Hd].
  unfold shape. now rewrite Hw, Hh, Hc.
Qed.

(** C10.  A row that is signed but carries no signature data does not
    fail the run: the run with it is the run without it.  When the other
    fields go through (their images decode and [drawImage] accepts their
    places), the run ends with exactly their images embedded and drawn,
    each on the page its field names: no image stands for the row. *)
Theorem signed_without_image_skipped :
  forall (pdfDoc : PDFDocument num PDFImage) before after sig,
    status sig = signed ->
    signature_data sig = None ->
    stamp embedPng pdfDoc (before ++ sig :: after)
    = stamp embedPng pdfDoc (before ++ after)
    /\ (goes_through embedPng pdfDoc (before ++ after) ->
        exists stamped,
          stamp embedPng pdfDoc (before ++ sig :: after) = inr stamped
          /\ embedded stamped
             = embedded pdfDoc
               ++ images_of embedPng
                    (filter (stampable (List.length (getPages pdfDoc)))
                            (before ++ after))
          /\ List.length (images_drawn stamped)
             = (List.length (images_drawn pdfDoc)
                + List.length (filter (stampable (List.length (getPages pdfDoc)))
                                      (before ++ after)))%nat
          /\ forall j page,
               nth_error (getPages pdfDoc) j = Some page ->
               exists page',
                 nth_error (getPages stamped) j = Some page'
                 /\ shape page' = shape page
                 /\ drawn page'
                    = drawn page
                      ++ drawn_by embedPng (before ++ after) j page).
Proof.
  intros pdfDoc before after sig _ Hnone.
  assert (Hskip : stampable (List.length (getPages pdfDoc)) sig = false).
  { unfold stampable. rewrite Hnone. reflexivity. }
  assert (Heq : stamp embedPng pdfDoc (before ++ sig :: after)
                = stamp embedPng pdfDoc (before ++ after)).
  { rewrite (stamp_filter embedPng (before ++ sig :: after)).
    rewrite (stamp_filter embedPng (before ++ after)).
    rewrite !filter_app. cbn [filter]. rewrite Hskip. reflexivity. }
  split; [exact Heq|].
  intro Hok. rewrite Heq.
  destruct (@stamp_succeeds _ _ _ embedPng (before ++ after) pdfDoc Hok)
    as [stamped [E [_ [Hemb Hdrawn]]]].
  destruct (@stamp_pages _ _ _ embedPng (before ++ after) pdfDoc Hok)
    as [stamped' [E' [_ Hpages]]].
  assert (stamped' = stamped) by congruence. subst stamped'.
  exists stamped. split; [exact E|]. split; [exact Hemb|].
  split; [exact Hdrawn|].
  intros j page Hj.
  destruct (Hpages j page Hj) as [page' [Hp [Hw [Hh [Hc Hd]]]]].
  exists page'. split; [exact Hp|]. split; [|exact Hd].
  unfold shape. now rewrite Hw, Hh, Hc.
Qed.

End StamperClaims.

(** ** A three-page document with three fields *)

Module Sample.

Definition field (i : string) (st : Status) (page : Z) (data : option string)
    : Signature float :=
  {| id := i; document_id := "d1"; signer_email := "a@b.c";
     signer_name := Some "A"; status := st;
     x_position := 0.1; y_position := 0.1; page_number := page;
     width := 150; height := 50;
     signed_at := None; signature_data := data;
     rejection_reason := None |}%float.

Definition png : string := "data:image/png;base64,iVBORw0KGgo=".

(** A decoder that accepts PNG data URLs. *)
Definition embed (data : string) : option string :=
  if String.prefix "data:image/png;base64," data then Some data else None.

Definition pdf : PDFDocument float string :=
  {| getPages := [letter_page 612 792; letter_page 612 792;
                  letter_page 612 792]%float;
     embedded := [] |}.

Definition request : Request :=
  {| method := "POST"; json := Some (Some "d1") |}.

Definition contract : DocumentRow :=
  {| doc_id := "d1"; file_path := "u1/1.pdf"; file_name := "contract.pdf" |}.

(** The service with the given rows; a file is stored as the document it
    parses to. *)
Definition service (rows : list (Signature float))
    : Backend float (PDFDocument float string) :=
  {| documents := [contract];
     signatures := rows;
     bucket_documents := [("u1/1.pdf", pdf)];
     bucket_signed := [];
     sig_fault := None;
     upload_fault := None |}.

Definition two_of_three : list (Signature float) :=
  [field "f1" signed 1 (Some png); field "f2" pending 1 None;
   field "f3" signed 2 (Some png)].

Definition one_corrupt : list (Signature float) :=
  [field "f1" signed 1 (Some png); field "f3" signed 2 (Some "garbage")].

Definition url (name : string) : string :=
  ("https://x.supabase.co/storage/v1/object/public/signed-documents/"
     ++ name)%string.

Lemma reaches rows :
  reaches_loop (@Some _) request (service rows) "d1" contract pdf.
Proof.
  constructor; try reflexivity. exists pdf. split; reflexivity.
Qed.

End Sample.

(** The handler on the sample: two images, on pages 1 and 2, each at
    (61.2, 662.8), in the file uploaded. *)
Example serve_two_of_three :
  serve (@Some _) Sample.embed (fun d => d) Sample.url 1700000000000
        Sample.request (Sample.service Sample.two_of_three)
  = ({| resp_status := 200;
        resp_body :=
          SignedUrl (Sample.url "contract_signed_1700000000000.pdf") |},
     {| documents := [Sample.contract];
        signatures := Sample.two_of_three;
        bucket_documents := [("u1/1.pdf", Sample.pdf)];
        bucket_signed :=
          [("contract_signed_1700000000000.pdf",
            {| getPages :=
                 [with_image (letter_page 612 792) Sample.png
                             {| opt_x := 61.2; opt_y := 662.8;
                                opt_width := 150; opt_height := 50 |};
                  with_image (letter_page 612 792) Sample.png
                             {| opt_x := 61.2; opt_y := 662.8;
                                opt_width := 150; opt_height := 50 |};
                  letter_page 612 792]%float;
               embedded := [Sample.png; Sample.png] |})];
        sig_fault := None;
        upload_fault := None |}).
Proof. vm_compute. reflexivity. Qed.

(** A signed field whose stored fraction is NaN: [drawImage] throws, the
    handler answers 500 and stores nothing. *)
Example serve_nan_place :
  serve (@Some _) Sample.embed (fun d => d) Sample.url 1700000000000
        Sample.request
        (Sample.service
           [{| id := "f1"; document_id := "d1"; signer_email := "a@b.c";
               signer_name := Some "A"; status := signed;
               x_position := PrimFloat.nan; y_position := 0.1%float;
               page_number := 1; width := 150%float; height := 50%float;
               signed_at := None; signature_data := Some Sample.png;
               rejection_reason := None |}])
  = ({| resp_status := 500; resp_body := ErrorBody DrawError |},
     Sample.service
       [{| id := "f1"; document_id := "d1"; signer_email := "a@b.c";
           signer_name := Some "A"; status := signed;
           x_position := PrimFloat.nan; y_position := 0.1%float;
           page_number := 1; width := 150%float; height := 50%float;
           signed_at := None; signature_data := Some Sample.png;
           rejection_reason := None |}]).
Proof. vm_compute. reflexivity. Qed.

(** The fields of the sample go through. *)
Ltac sample_goes_through :=
  let sig := fresh "sig" in
  let Hin := fresh "Hin" in
  intros sig Hin _;
  repeat (destruct Hin as [<-|Hin]; [split; [reflexivity|];
                                     let d := fresh "data" in
                                     let Hd := fresh "Hd" in
                                     intros d Hd;
                                     first [ discriminate Hd
                                           | injection Hd as <-; discriminate ]|]);
  destruct Hin.

Lemma stamping_embeds_signed_only_witness :
  exists stamped,
    build (@Some _) Sample.embed (fun d => d) 1700000000000 Sample.request
          (Sample.service Sample.two_of_three)
    = inr ("contract_signed_1700000000000.pdf", stamped)
    /\ List.length (images_drawn stamped) = 2%nat.
Proof.
  destruct (@stamping_embeds_signed_only
              float _ _ string (@Some _) Sample.embed (fun d => d)
              Sample.request (Sample.service Sample.two_of_three)
              "d1" Sample.contract Sample.pdf 1700000000000
              (Sample.reaches Sample.two_of_three))
    as [stamped [Hb [_ [_ [Hlen _]]]]].
  - sample_goes_through.
  - exists stamped. split; [exact Hb | rewrite Hlen; reflexivity].
Defined.

Lemma embed_failure_aborts_run_witness :
  exists d,
    Sample.embed d = None
    /\ serve (@Some _) Sample.embed (fun d => d) Sample.url 1700000000000
             Sample.request (Sample.service Sample.one_corrupt)
       = ({| resp_status := 500; resp_body := ErrorBody (EmbedError d) |},
          Sample.service Sample.one_corrupt).
Proof.
  destruct (@embed_failure_aborts_run
              float _ _ string (@Some _) Sample.embed (fun d => d) Sample.url
              Sample.request (Sample.service Sample.one_corrupt)
              "d1" Sample.contract Sample.pdf 1700000000000
              (Sample.field "f3" signed 2 (Some "garbage")) "garbage"
              (Sample.reaches Sample.one_corrupt)
              (or_intror (or_introl eq_refl)) eq_refl eq_refl eq_refl)
    as [e [_ [Hemb [Hs _]]]].
  destruct Hemb as [d [-> Hd]].
  - intros s Hin. destruct Hin as [<-|[<-|[]]]; reflexivity.
  - exists d. split; [exact Hd | exact Hs].
Defined.

Lemma out_of_range_page_skipped_witness :
  exists stamped page1 page2,
    stamp Sample.embed Sample.pdf
          ([Sample.field "f1" signed 1 (Some Sample.png)]
             ++ Sample.field "f9" signed 99 (Some Sample.png)
             :: [Sample.field "f3" signed 2 (Some Sample.png)])
    = inr stamped
    /\ getPages stamped = [page1; page2; letter_page 612 792]%float
    /\ drawn page1 = [(Sample.png, {| opt_x := 61.2; opt_y := 662.8;
                                      opt_width := 150; opt_height := 50 |})]%float
    /\ drawn page2 = [(Sample.png, {| opt_x := 61.2; opt_y := 662.8;
                                      opt_width := 150; opt_height := 50 |})]%float.
Proof.
  destruct (@out_of_range_page_skipped float _ string Sample.embed Sample.pdf
              [Sample.field "f1" signed 1 (Some Sample.png)]
              [Sample.field "f3" signed 2 (Some Sample.png)]
              (Sample.field "f9" signed 99 (Some Sample.png)))
    as [_ Hrun].
  - right. cbn. lia.
  - destruct Hrun as [stamped [E _]].
    + sample_goes_through.
    + vm_compute in E. injection E as <-.
      do 3 eexists. split; [vm_compute; reflexivity|].
      split; [reflexivity|]. split; reflexivity.
Defined.

Lemma signed_without_image_skipped_witness :
  exists stamped page1 page2,
    stamp Sample.embed Sample.pdf
          ([Sample.field "f1" signed 1 (Some Sample.png)]
             ++ Sample.field "f2" signed 1 None
             :: [Sample.field "f3" signed 2 (Some Sample.png)])
    = inr stamped
    /\ getPages stamped = [page1; page2; letter_page 612 792]%float
    /\ drawn page1 = [(Sample.png, {| opt_x := 61.2; opt_y := 662.8;
                                      opt_width := 150; opt_height := 50 |})]%float
    /\ drawn page2 = [(Sample.png, {| opt_x := 61.2; opt_y := 662.8;
                                      opt_width := 150; opt_height := 50 |})]%float.
Proof.
  destruct (@signed_without_image_skipped float _ string Sample.embed
              Sample.pdf
              [Sample.field "f1" signed 1 (Some Sample.png)]
              [Sample.field "f3" signed 2 (Some Sample.png)]
              (Sample.field "f2" signed 1 None) eq_refl eq_refl)
    as [_ Hrun].
  destruct Hrun as [stamped [E _]].
  - sample_goes_through.
  - vm_compute in E. injection E as <-.
    do 3 eexists. split; [vm_compute; reflexivity|].
    split; [reflexivity|]. split; reflexivity.
Defined.


(** ** Status of a field on the signer's page *)

Section SigningFacts.

Context {num : Type}.

Local Abbreviation Sig := (Signature num).

(** The page's copy and the table give the same status to the same id. *)
Definition agrees (tbl : list Sig) (st : Signing.State num) : Prop :=
  forall s r, In s (Signing.signatures st) -> In r tbl ->
              id r = id s -> status r = status s.

(** The field the capture dialog is open for is one of the page's pending
    fields. *)
Definition armed (st : Signing.State num) : Prop :=
  forall cur, Signing.currentSignatureId st = Some cur ->
              exists s, In s (Signing.signatures st)
                        /\ id s = cur /\ status s = pending.

Definition consistent (w : Signing.World num) : Prop :=
  match Signing.page w with
  | Some st => agrees (Signing.table w) st /\ armed st
  | None => True
  end.

(** One row before and after a step. *)
Definition moves (ok : Status -> Status -> bool) (r r' : Sig) : Prop :=
  id r = id r' /\ ok (status r) (status r') = true.

Lemma moves_map (ok : Status -> Status -> bool) (g : Sig -> Sig)
    (l : list Sig) :
  (forall r, In r l -> moves ok r (g r)) -> Forall2 (moves ok) l (map g l).
Proof.
  induction l as [|r l IH]; intro Hall; cbn; constructor.
  - apply Hall. now left.
  - apply IH. intros r' Hin. apply Hall. now right.
Qed.

Lemma status_eqb_refl (s : Status) : status_eqb s s = true.
Proof. destruct s; reflexivity. Qed.

Lemma moves_same (l : list Sig) : Forall2 (moves Signing.spec_move) l l.
Proof.
  induction l; constructor; auto. split; [reflexivity|].
  unfold Signing.spec_move. now rewrite status_eqb_refl.
Qed.

Lemma spec_move_page_move (l l' : list Sig) :
  Forall2 (moves Signing.spec_move) l l' ->
  Forall2 (moves Signing.page_move) l l'.
Proof.
  induction 1 as [|r r' l l' [Hid Hm] _ IH]; constructor; auto.
  split; [exact Hid|]. unfold Signing.page_move. now rewrite Hm.
Qed.

Lemma loaded_consistent (share : Signing.DocumentShare) (tbl : list Sig) :
  NoDup (map (@id num) tbl) -> consistent (Signing.loaded share tbl).
Proof.
  intro Hnd. cbn. split.
  - intros s r Hs Hr Hid. cbn in Hs. apply filter_In in Hs.
    destruct Hs as [Hs _].
    assert (r = s); [|now subst].
    clear share. induction tbl as [|t tbl IH]; [contradiction|].
    cbn in Hnd. inversion Hnd as [|? ? Hnot Hnd']; subst.
    destruct Hr as [->|Hr], Hs as [->|Hs]; auto.
    + exfalso. apply Hnot. rewrite Hid. now apply in_map.
    + exfalso. apply Hnot. rewrite <- Hid. now apply in_map.
  - intros cur Hcur. discriminate.
Qed.

Lemma step_consistent (w : Signing.World num) (a : Signing.Action) :
  consistent w -> consistent (Signing.step w a).
Proof.
  unfold consistent, Signing.step.
  destruct (Signing.page w) as [st|] eqn:Hp; [|now rewrite Hp].
  intros [Hag Harm]. destruct a as [i | data now error | | error].
  - destruct (existsb _ _) eqn:Hex; [|now rewrite Hp].
    cbn. split; [exact Hag|].
    intros cur Hcur. cbn in Hcur. injection Hcur as <-.
    apply existsb_exists in Hex. destruct Hex as [s [Hin Hb]].
    apply andb_prop in Hb. destruct Hb as [Hid Hshown].
    apply String.eqb_eq in Hid.
    unfold Signing.sign_here_shown in Hshown.
    apply andb_prop in Hshown. destruct Hshown as [_ Hst].
    exists s. repeat split; auto. now destruct (status s).
  - destruct (Signing.capture_shown st); [|now rewrite Hp].
    unfold Signing.handleSignatureComplete.
    destruct (Signing.currentSignatureId st) as [cur|]; [|now rewrite Hp].
    destruct (Signing.documentShare st); [|now rewrite Hp].
    destruct (negb (truthy_str cur)); [now rewrite Hp|].
    destruct error; [now rewrite Hp|].
    cbn. split; [|intros ? ?; discriminate].
    intros s' r' Hs' Hr' Hid. cbn in Hs'.
    apply in_map_iff in Hs'. destruct Hs' as [s [<- Hs]].
    apply in_map_iff in Hr'. destruct Hr' as [r [<- Hr]].
    assert (Hid' : id r = id s).
    { destruct (String.eqb (id r) cur), (String.eqb (id s) cur); exact Hid. }
    rewrite Hid'. destruct (String.eqb (id s) cur); [reflexivity|].
    now apply Hag.
  - destruct (Signing.capture_shown st); [|now rewrite Hp].
    cbn. split; [exact Hag | intros ? ?; discriminate].
  - destruct (Signing.reject_shown st); [|now rewrite Hp].
    unfold Signing.handleRejectDocument.
    destruct (Signing.documentShare st); [|now rewrite Hp].
    destruct error; [now rewrite Hp|]. exact I.
Qed.

Lemma run_consistent (l : list Signing.Action) :
  forall w : Signing.World num, consistent w -> consistent (Signing.run w l).
Proof.
  unfold Signing.run. induction l as [|a l IH]; intros w Hw; [exact Hw|].
  cbn. apply IH. now apply step_consistent.
Qed.

(** A step other than a rejection moves no status but from [pending]. *)
Lemma step_moves_sign (w : Signing.World num) (a : Signing.Action) :
  consistent w -> (forall error, a <> Signing.Reject error) ->
  Forall2 (moves Signing.spec_move) (Signing.table w)
          (Signing.table (Signing.step w a)).
Proof.
  unfold consistent, Signing.step.
  destruct (Signing.page w) as [st|] eqn:Hp; [|intros; apply moves_same].
  intros [Hag Harm] Hnr. destruct a as [i | data now error | | error].
  - destruct (existsb _ _); apply moves_same.
  - destruct (Signing.capture_shown st); [|apply moves_same].
    unfold Signing.handleSignatureComplete.
    destruct (Signing.currentSignatureId st) as [cur|] eqn:Hcur;
      [|apply moves_same].
    destruct (Signing.documentShare st); [|apply moves_same].
    destruct (negb (truthy_str cur)); [apply moves_same|].
    destruct error; [apply moves_same|].
    cbn [Signing.table]. apply moves_map. intros r Hr.
    destruct (String.eqb (id r) cur) eqn:E.
    + apply String.eqb_eq in E.
      destruct (Harm cur Hcur) as [s [Hs [Hid Hst]]].
      split; [reflexivity|]. cbn [Signing.set_signed status].
      rewrite (Hag s r Hs Hr) by congruence. rewrite Hst. reflexivity.
    + split; [reflexivity|]. unfold Signing.spec_move.
      now rewrite status_eqb_refl.
  - destruct (Signing.capture_shown st); apply moves_same.
  - exfalso. now apply (Hnr error).
Qed.

(** Any step moves a status from [pending], or from [signed] to
    [rejected]. *)
Lemma step_moves (w : Signing.World num) (a : Signing.Action) :
  consistent w ->
  Forall2 (moves Signing.page_move) (Signing.table w)
          (Signing.table (Signing.step w a)).
Proof.
  intro Hw. destruct a as [i | data now error | | error].
  1-3: apply spec_move_page_move, step_moves_sign; [exact Hw | discriminate].
  unfold Signing.step.
  destruct (Signing.page w) as [st|];
    [|apply spec_move_page_move, moves_same].
  destruct (Signing.reject_shown st);
    [|apply spec_move_page_move, moves_same].
  unfold Signing.handleRejectDocument.
  destruct (Signing.documentShare st) as [share|];
    [|apply spec_move_page_move, moves_same].
  destruct error; [apply spec_move_page_move, moves_same|].
  cbn [Signing.table]. apply moves_map. intros r _.
  destruct (_ && _).
  - split; [reflexivity|]. cbn [Signing.set_rejected status].
    now destruct (status r).
  - split; [reflexivity|]. unfold Signing.page_move, Signing.spec_move.
    now rewrite status_eqb_refl.
Qed.

(** C3, as the page behaves.  Starting from the page as loaded for a
    share, over a table with unique ids, and after any sequence of the
    signer's actions, one more action leaves every row its id and either
    its status, or moves it from pending (to signed or to rejected), or
    moves it from signed to rejected; the last only by "Reject Document",
    which sets every field of the signer on the document to rejected.  A
    rejected status never changes, and a status never returns to
    pending. *)
Theorem status_transitions :
  forall (share : Signing.DocumentShare) (tbl : list Sig)
         (done : list Signing.Action) (a : Signing.Action),
    NoDup (map (@id num) tbl) ->
    let w := Signing.run (Signing.loaded share tbl) done in
    Forall2 (moves Signing.page_move) (Signing.table w)
            (Signing.table (Signing.step w a))
    /\ ((forall error, a <> Signing.Reject error) ->
        Forall2 (moves Signing.spec_move) (Signing.table w)
                (Signing.table (Signing.step w a)))
    /\ (forall before after,
           Signing.page_move before after = true ->
           (before = rejected -> after = rejected)
           /\ (after = pending -> before = pending)
           /\ (before = signed -> after = signed \/ after = rejected)).
Proof.
  intros share tbl done a Hnd w.
  assert (Hw : consistent w)
    by (apply run_consistent, loaded_consistent; exact Hnd).
  split; [apply step_moves; exact Hw|].
  split; [apply step_moves_sign; exact Hw|].
  intros before after; destruct before, after; cbn; intro Hm;
    repeat split; intros; try discriminate; auto.
Qed.

End SigningFacts.

Definition two_fields : list (Signature float) :=
  [Sample.field "A" pending 1 None; Sample.field "B" pending 1 None].

(** Field A signed in an earlier session, field B still pending. *)
Definition one_signed : list (Signature float) :=
  [Sample.field "A" signed 1 (Some Sample.png);
   Sample.field "B" pending 1 None].

Definition share_a : Signing.DocumentShare :=
  {| Signing.share_id := "s1"; Signing.share_document_id := "d1";
     Signing.share_signer_email := "a@b.c" |}.

(** C3 as stated fails: a signer with a signed field A and a pending field
    B opens the page and presses "Reject Document"; field A goes from
    signed to rejected, a move the specification rules out. *)
Lemma signed_field_rejected :
  Signing.status_of "A" (Signing.table (Signing.loaded share_a one_signed))
  = Some signed
  /\ option_map Signing.reject_shown
                (Signing.page (Signing.loaded share_a one_signed))
     = Some true
  /\ Signing.status_of "A"
       (Signing.table (Signing.step (Signing.loaded share_a one_signed)
                                    (Signing.Reject None)))
     = Some rejected
  /\ Signing.spec_move signed rejected = false.
Proof. vm_compute. repeat split. Qed.

Lemma status_transitions_witness :
  Forall2 (moves Signing.page_move)
          (Signing.table
             (Signing.run (Signing.loaded share_a two_fields)
                          [Signing.SignHere "A"]))
          (Signing.table
             (Signing.step
                (Signing.run (Signing.loaded share_a two_fields)
                             [Signing.SignHere "A"])
                (Signing.Complete Sample.png "2025-01-01T00:00:00.000Z" None))).
Proof.
  apply (@status_transitions float share_a two_fields [Signing.SignHere "A"]).
  repeat constructor; cbn; intuition discriminate.
Defined.

(** ** Gating of signature capture *)

Lemma truthy_str_iff (s : string) : truthy_str s = true <-> s <> "".
Proof. destruct s; cbn; split; intro; congruence. Qed.

Lemma length_pos_iff (s : string) :
  (0 <? String.length s)%nat = true <-> s <> "".
Proof. destruct s; cbn; split; intro; congruence. Qed.

Lemma trim_empty : trim "" = "".
Proof. reflexivity. Qed.

Section CaptureFacts.

Variable Stroke : Type.
Variable toDataURL : list Stroke -> string.
Variable renderTyped : string -> option string.

Local Abbreviation complete := (Capture.complete toDataURL renderTyped).
Local Abbreviation handleComplete :=
  (Capture.handleComplete toDataURL renderTyped).

(** What the handler passes on is never empty, and there was input. *)
Lemma handleComplete_completed s canvas data :
  handleComplete s canvas = Capture.Completed data ->
  data <> "" /\ Capture.hasSignature s canvas = true
  /\ Capture.spec_input_empty s canvas = false.
Proof.
  unfold Capture.handleComplete, Capture.hasSignature,
    Capture.spec_input_empty.
  destruct (Capture.signatureMode s).
  - destruct canvas as [[|k c]|]; cbn; try discriminate.
    destruct (truthy_str (toDataURL (k :: c))) eqn:T; cbn; [|discriminate].
    intro E. injection E as <-. apply truthy_str_iff in T. auto.
  - destruct (truthy_str (trim (Capture.typedSignature s))) eqn:T.
    + apply truthy_str_iff in T.
      destruct (renderTyped (Capture.typedSignature s)) as [url|];
        [|cbn; discriminate].
      destruct (truthy_str url) eqn:U; cbn; [|discriminate].
      intro E. injection E as <-. apply truthy_str_iff in U.
      repeat split; auto.
      * now apply length_pos_iff.
      * now apply String.eqb_neq.
    + cbn. discriminate.
Qed.

Lemma handleComplete_never_fails s canvas e :
  handleComplete s canvas <> Capture.Failed e.
Proof.
  unfold Capture.handleComplete.
  destruct (negb (truthy_str _)); discriminate.
Qed.

(** C9, as the component behaves.  (a) A press on "Complete Signature"
    never signals an error: it calls [onComplete] with an image or does
    nothing.  (b) An image is passed on only when there is input (a stroke
    on the canvas, or typed text that is not blank), the signer name and
    the signer email are not blank and the image is not empty; then the
    contract of the specification yields that image too.  (c) With no
    input nothing happens, and (d) with a blank signer name or email
    nothing happens.  (e) With strokes, a name and an email, and a canvas
    the render has seen, the image of the canvas is passed on. *)
Theorem capture_gating :
  forall (s : Capture.State) (shown canvas : option (list Stroke)),
    (forall e, complete s shown canvas <> Capture.Failed e)
    /\ (forall data,
           complete s shown canvas = Capture.Completed data ->
           Capture.hasSignature s canvas = true
           /\ trim (Capture.signerName s) <> ""
           /\ trim (Capture.signerEmail s) <> ""
           /\ data <> ""
           /\ Capture.spec_complete data s canvas = Capture.Completed data)
    /\ (Capture.spec_input_empty s canvas = true ->
        complete s shown canvas = Capture.Nothing)
    /\ (trim (Capture.signerName s) = ""
        \/ trim (Capture.signerEmail s) = "" ->
        complete s shown canvas = Capture.Nothing)
    /\ (forall k c,
           Capture.signatureMode s = Capture.draw ->
           canvas = Some (k :: c) -> shown = canvas ->
           trim (Capture.signerName s) <> "" ->
           trim (Capture.signerEmail s) <> "" ->
           toDataURL (k :: c) <> "" ->
           complete s shown canvas = Capture.Completed (toDataURL (k :: c))).
Proof.
  intros s shown canvas. unfold Capture.complete, Capture.disabled.
  split; [|split; [|split; [|split]]].
  - intro e. destruct (_ || _); [discriminate|].
    apply handleComplete_never_fails.
  - intros data.
    destruct (negb (Capture.hasSignature s shown)); [discriminate|].
    destruct (truthy_str (trim (Capture.signerName s))) eqn:Hn;
      [|discriminate].
    destruct (truthy_str (trim (Capture.signerEmail s))) eqn:He;
      [|discriminate].
    cbn [negb orb]. intro Hc.
    destruct (handleComplete_completed _ _ Hc) as [Hd [Hs Hi]].
    apply truthy_str_iff in Hn, He.
    repeat split; auto.
    unfold Capture.spec_complete. rewrite Hi.
    assert (Hn' : String.eqb (Capture.signerName s) "" = false).
    { apply String.eqb_neq. intro E. rewrite E in Hn. now apply Hn. }
    assert (He' : String.eqb (Capture.signerEmail s) "" = false).
    { apply String.eqb_neq. intro E. rewrite E in He. now apply He. }
    rewrite Hn', He'. reflexivity.
  - intro Hi. destruct (_ || _); [reflexivity|].
    destruct (handleComplete s canvas) as [data| |] eqn:Hc; [| |reflexivity].
    + destruct (handleComplete_completed _ _ Hc) as [_ [_ Hi']]. congruence.
    + now apply handleComplete_never_fails in Hc.
  - intros Hblank.
    assert (Hb : negb (truthy_str (trim (Capture.signerName s)))
                 || negb (truthy_str (trim (Capture.signerEmail s))) = true).
    { destruct Hblank as [-> | ->]; cbn; [reflexivity | apply orb_true_r]. }
    rewrite <- orb_assoc, Hb, orb_true_r. reflexivity.
  - intros k c Hmode -> -> Hn He Hurl.
    apply truthy_str_iff in Hn, He, Hurl.
    unfold Capture.hasSignature, Capture.handleComplete.
    rewrite Hmode, Hn, He. cbn. rewrite Hurl. reflexivity.
Qed.

End CaptureFacts.

Module Pad.

(** A canvas of numbered strokes and renderers with fixed results. *)
Definition toDataURL (c : list nat) : string := Sample.png.
Definition renderTyped (t : string) : option string :=
  Some ("data:image/png;base64," ++ t)%string.

Definition state (name email : string) (m : Capture.Mode) (typed : string)
    : Capture.State :=
  {| Capture.signerName := name; Capture.signerEmail := email;
     Capture.signatureMode := m; Capture.typedSignature := typed |}.

End Pad.

(** C9 as stated fails: where the claim has [complete()] fail with
    [EmptyInput] (empty canvas; blank typed text) or with
    [MissingSignerInfo] (strokes, but no email), a press on the button does
    nothing at all, and the same nothing in the three cases.  The handler
    itself does not look at the signer: called with strokes and no email it
    passes the image on; only the disabled button stands in the way. *)
Lemma capture_signals_no_error :
  Capture.complete Pad.toDataURL Pad.renderTyped
    (Pad.state "Ann" "ann@x.org" Capture.draw "") (Some []) (Some [])
  = Capture.Nothing
  /\ Capture.spec_complete Sample.png
       (Pad.state "Ann" "ann@x.org" Capture.draw "") (Some (@nil nat))
     = Capture.Failed Capture.EmptyInput
  /\ Capture.complete Pad.toDataURL Pad.renderTyped
       (Pad.state "Ann" "ann@x.org" Capture.type "   ") None None
     = Capture.Nothing
  /\ Capture.spec_complete Sample.png
       (Pad.state "Ann" "ann@x.org" Capture.type "   ") (@None (list nat))
     = Capture.Failed Capture.EmptyInput
  /\ Capture.complete Pad.toDataURL Pad.renderTyped
       (Pad.state "Ann" "" Capture.draw "") (Some [1%nat]) (Some [1%nat])
     = Capture.Nothing
  /\ Capture.spec_complete Sample.png
       (Pad.state "Ann" "" Capture.draw "") (Some [1%nat])
     = Capture.Failed Capture.MissingSignerInfo
  /\ Capture.handleComplete Pad.toDataURL Pad.renderTyped
       (Pad.state "Ann" "" Capture.draw "") (Some [1%nat])
     = Capture.Completed Sample.png.
Proof. repeat split. Qed.

Lemma capture_gating_witness :
  Capture.complete Pad.toDataURL Pad.renderTyped
    (Pad.state "Ann" "ann@x.org" Capture.draw "") (Some [1%nat]) (Some [1%nat])
  = Capture.Completed Sample.png.
Proof.
  apply (proj2 (proj2 (proj2 (proj2
           (@capture_gating nat Pad.toDataURL Pad.renderTyped
              (Pad.state "Ann" "ann@x.org" Capture.draw "")
              (Some [1%nat]) (Some [1%nat]))))) 1%nat []);
    try reflexivity; discriminate.
Defined.

(** The same in typed mode. *)
Example typed_signature_completes :
  Capture.complete Pad.toDataURL Pad.renderTyped
    (Pad.state "Ann" "ann@x.org" Capture.type " Ann ") None None
  = Capture.Completed "data:image/png;base64, Ann ".
Proof. reflexivity. Qed.

Example trim_examples :
  trim "  a b  " = "a b" /\ trim "   " = "" /\ trim "x" = "x".
Proof. repeat split. Qed.

(** As [SignDocument] renders the dialog, without signer name and email,
    the button stays disabled: no press completes. *)
Remark capture_without_signer_never_completes :
  forall (Stroke : Type) toDataURL renderTyped m typed
         (shown canvas : option (list Stroke)),
    Capture.complete toDataURL renderTyped (Pad.state "" "" m typed)
                     shown canvas
    = Capture.Nothing.
Proof.
  intros. unfold Capture.complete, Capture.disabled. cbn.
  rewrite orb_true_r. reflexivity.
Qed.

(** ** Round trip in binary64, on a grid

    Content of 816 by 1056 pixels: every whole pixel position on the
    diagonal from (0, 0) to (816, 816), moved and rendered again, is shown
    within a relative error of 1e-9 of where it was put. *)

Fixpoint float_of_nat (n : nat) : float :=
  match n with
  | O => 0%float
  | S k => (float_of_nat k + 1)%float
  end.

Definition shown_after_move (W H x y : float) : list (float * float) :=
  map (fun p => (Field.field_x p, Field.field_y p))
      (Viewer.overlay
         (fst (Viewer.handleMoveSignature (Some (box W H 0 0)%float) None
                                          "f1" x y
                                          (viewer_one 0.1 0.1 150 50 W H)%float))).

Definition close (a b : float) : bool :=
  (PrimFloat.abs (a - b) <=? 1e-9 * PrimFloat.abs b)%float.

Example round_trip_binary64_grid :
  forallb (fun n => match shown_after_move 816 1056 (float_of_nat n)
                                           (float_of_nat n) with
                    | [(x, y)] => close x (float_of_nat n)
                                  && close y (float_of_nat n)
                    | _ => false
                    end)
          (seq 0 817)
  = true.
Proof. vm_compute. reflexivity. Qed.

(** Rounding shows below the normal range: half of the least positive
    double rounds to 0, so a position of 2^-1074 on content 2 wide comes
    back as 0, an absolute error of 2^-1074. *)
Example round_trip_binary64_subnormal :
  shown_after_move 2 2 0x1p-1074 0x1p-1074 = [(0, 0)]%float.
Proof. reflexivity. Qed.

(** On the same grid the rounded model shows, bit for bit, what the
    machine shows (7.0000000000000009 for 7, for one). *)
Definition shown_after_move_rounded (W H x y : Q) : list (rfloat * rfloat) :=
  map (fun p => (Field.field_x p, Field.field_y p))
      (Viewer.overlay
         (fst (Viewer.handleMoveSignature
                 (Some (@box rfloat (Fin W) (Fin H) (Fin 0) (Fin 0))) None
                 "f1" (Fin x) (Fin y)
                 (@viewer_one rfloat (Fin 0.1) (Fin 0.1) (Fin 150) (Fin 50)
                              (Fin W) (Fin H))))).

Example round_trip_models_agree :
  forallb (fun n =>
             match shown_after_move 816 1056 (float_of_nat n) (float_of_nat n),
                   shown_after_move_rounded 816 1056
                     (inject_Z (Z.of_nat n)) (inject_Z (Z.of_nat n)) with
             | [(x, y)], [(rx, ry)] =>
                 xeqb (of_float x) rx && xeqb (of_float y) ry
             | _, _ => false
             end)
          (seq 0 817)
  = true
  /\ shown_after_move 816 1056 7 7
     = [(7.0000000000000009, 7)]%float.
Proof. split; vm_compute; reflexivity. Qed.

(* ================================================================== *)
(** * Further properties of the viewer and the stamper *)
(* ================================================================== *)

(** ** Display after a change of content size *)

Section Rescale.

Local Open Scope Q_scope.

Variable st : Viewer.State rfloat.
Variables container resized : Viewer.Container rfloat.
Variables W H sl stp W2 H2 : Q.

Hypothesis width_measured : Viewer.scrollWidth container = Fin W.
Hypothesis height_measured : Viewer.scrollHeight container = Fin H.
Hypothesis left_measured : Viewer.scrollLeft container = Fin sl.
Hypothesis top_measured : Viewer.scrollTop container = Fin stp.
Hypothesis width_resized : Viewer.scrollWidth resized = Fin W2.
Hypothesis height_resized : Viewer.scrollHeight resized = Fin H2.

(** X1.  A field moved to a pixel position [px], [py] within content that
    measures W by H, and rendered after the content has been measured
    again at W2 by H2 (a zoom, a resize), is shown at the position scaled
    by W2/W and H2/H, within the tolerance of binary64 arithmetic (three
    unit roundoffs of the scaled position and an underflow term): the
    stored fraction is independent of the size at capture.  Every
    operation is rounded to the nearest binary64 number. *)
Theorem capture_display_rescaled :
  forall (signatureId : string) (x y px py : Q),
    0 < W -> 0 < H -> 0 < W2 <= pow2 1022 -> 0 < H2 <= pow2 1022 ->
    xeq (b64 (x + sl)) (Fin px) -> xeq (b64 (y + stp)) (Fin py) ->
    0 <= px <= W -> 0 <= py <= H ->
    let st' := Viewer.measure resized
                 (fst (Viewer.handleMoveSignature (Some container) None
                                                  signatureId (Fin x) (Fin y)
                                                  st)) in
    (forall p, In p (Viewer.overlay st') ->
               Field.field_id p = signatureId ->
               exists dx dy,
                 Field.field_x p = Fin dx /\ Field.field_y p = Fin dy
                 /\ Qabs (dx - px / W * W2) <= tolerance (px / W * W2) W2
                 /\ Qabs (dy - py / H * H2) <= tolerance (py / H * H2) H2)
    /\ (forall sig, In sig (Viewer.signatures st) ->
                    id sig = signatureId ->
                    page_number sig = Viewer.currentPage st ->
                    exists p, In p (Viewer.overlay st')
                              /\ Field.field_id p = signatureId).
Proof.
  intros signatureId x y px py HW HH HW2 HH2 Hx Hy Hpx Hpy st'.
  apply (@moved_then_shown st container W H sl stp width_measured
           height_measured left_measured top_measured
           st' signatureId x y px py W2 H2); try assumption.
  - reflexivity.
  - reflexivity.
  - unfold st', Viewer.measure. cbn [Viewer.containerSize].
    now rewrite width_resized, height_resized.
Qed.

End Rescale.

Lemma capture_display_rescaled_witness :
  exists p dx dy,
    In p (Viewer.overlay
            (Viewer.measure
               (@box rfloat (Fin 1632) (Fin 2112) (Fin 0) (Fin 0))
               (fst (Viewer.handleMoveSignature
                       (Some (@box rfloat (Fin 816) (Fin 1056) (Fin 0)
                                   (Fin 200)))
                       None "f1" (Fin 7) (Fin 50)
                       (@viewer_one rfloat (Fin 0.1) (Fin 0.1) (Fin 150)
                                    (Fin 50) (Fin 816) (Fin 1056))))))
    /\ Field.field_x p = Fin dx /\ Field.field_y p = Fin dy
    /\ (Qabs (dx - 7 / 816 * 1632) <= tolerance (7 / 816 * 1632) 1632)%Q
    /\ (Qabs (dy - 250 / 1056 * 2112) <= tolerance (250 / 1056 * 2112) 2112)%Q.
Proof.
  destruct (@capture_display_rescaled
              (@viewer_one rfloat (Fin 0.1) (Fin 0.1) (Fin 150) (Fin 50)
                           (Fin 816) (Fin 1056))
              (@box rfloat (Fin 816) (Fin 1056) (Fin 0) (Fin 200))
              (@box rfloat (Fin 1632) (Fin 2112) (Fin 0) (Fin 0))
              816%Q 1056%Q 0%Q 200%Q 1632%Q 2112%Q
              eq_refl eq_refl eq_refl eq_refl eq_refl eq_refl
              "f1" 7%Q 50%Q 7%Q 250%Q) as [Hall Hex].
  - reflexivity.
  - reflexivity.
  - split; [reflexivity | vm_compute; discriminate].
  - split; [reflexivity | vm_compute; discriminate].
  - vm_compute. reflexivity.
  - vm_compute. reflexivity.
  - split; vm_compute; discriminate.
  - split; vm_compute; discriminate.
  - destruct (Hex _ (or_introl eq_refl) eq_refl eq_refl) as [p [Hin Hid]].
    destruct (Hall p Hin Hid) as [dx [dy [Ex [Ey [Hx Hy]]]]].
    exists p, dx, dy. auto.
Defined.

(** The same in binary64: captured at 800 by 1000, shown at 1600 by
    2000. *)
Example rescaled_binary64 :
  (map (fun p => (Field.field_x p, Field.field_y p))
       (Viewer.overlay
          (Viewer.measure (box 1600 2000 0 0)
             (fst (Viewer.handleMoveSignature
                     (Some (box 800 1000 0 200)) None "f1" 100 50
                     (viewer_one 0.1 0.1 150 50 800 1000)))))
   = [(200, 500)])%float.
Proof. reflexivity. Qed.

(** ** Where the field is shown and where its image is stamped *)

(** How far the top of a stamped image can be from the exact one on a
    page of height [ph]: six unit roundoffs of the height, and an underflow
    term. *)
Definition stamp_tolerance (ph : Q) : Q :=
  6 * unit_roundoff * ph + 3 * underflow.

(** The [y] given to [drawImage], with its three rounded operations. *)
Lemma stamped_top (fy h ph : Q) :
  (0 <= fy <= 1)%Q -> (0 <= h <= ph)%Q -> (1 <= ph <= pow2 1000)%Q ->
  exists oy,
    (((Fin ph : rfloat) - (Fin fy : rfloat) * Fin ph - Fin h)%js : rfloat)
    = Fin oy
    /\ (Qabs ((ph - (oy + h)) - fy * ph) <= stamp_tolerance ph)%Q.
Proof.
  intros [Hf0 Hf1] [Hh0 Hh1] [Hp1 Hpb]. unfold stamp_tolerance.
  destruct u_small as [Hu0 Hu1]. destruct eta_small as [He0 He1].
  assert (HuM : (0 <= unit_roundoff * ph <= (1 # 1000) * ph)%Q).
  { split; [apply Qmult_le_0_compat; lra|].
    apply Qmult_le_compat_r; lra. }
  assert (Ha : (0 <= fy * ph <= ph)%Q).
  { split; [apply Qmult_le_0_compat; lra|].
    setoid_replace ph with (1 * ph)%Q at 2 by ring.
    apply Qmult_le_compat_r; lra. }
  cbn [sub mul correctly_rounded xadd xopp xmul xround].
  destruct (@b64_within (fy * ph) (1 * ph)) as [A [EA HA]];
    [apply Qabs_Qle_condition; lra | apply below_largest; lra |].
  rewrite EA. cbn [xadd xopp xround].
  destruct (@b64_within (ph + - A) (2 * ph)) as [B [EB HB]];
    [apply Qabs_Qle_condition; lra | apply below_largest; lra |].
  rewrite EB. cbn [xadd xopp xround].
  destruct (@b64_within (B + - h) (3 * ph)) as [C [EC HC]];
    [apply Qabs_Qle_condition; lra | apply below_largest; lra |].
  exists C. split; [exact EC|].
  apply Qabs_Qle_condition. lra.
Qed.

(** A fraction of a size, rounded. *)
Lemma rounded_product (f size : Q) :
  (0 <= f <= 1)%Q -> (1 <= size <= pow2 1000)%Q ->
  exists d, b64 (f * size) = Fin d
            /\ (Qabs (d - f * size) <= unit_roundoff * (f * size) + underflow)%Q.
Proof.
  intros [Hf0 Hf1] [Hs1 Hsb].
  assert (Ha : (0 <= f * size <= size)%Q).
  { split; [apply Qmult_le_0_compat; lra|].
    setoid_replace size with (1 * size)%Q at 2 by ring.
    apply Qmult_le_compat_r; lra. }
  destruct (@b64_error (f * size)) as [d [Ed Hd]].
  { rewrite (Qabs_pos (f * size)) by lra. apply Qle_trans with (1 * size)%Q; [lra|].
    apply below_largest; lra. }
  exists d. split; [exact Ed|]. rewrite (Qabs_pos (f * size)) in Hd by lra. exact Hd.
Qed.

(** X2.  A field on the page in view, with the fractions the row carries
    (between 0 and 1), a height of at most the page's, and content and
    page of 1 to 2^1000 each way; every operation is rounded to the
    nearest binary64 number.  The overlay shows the field and the handler
    places its image at the same relative position, each to the precision
    of its own arithmetic: the left edge of the shown field is the
    fraction of the content width and the left edge of the image the
    fraction of the page width, within one unit roundoff of the product
    and 2^-1075; the top of the shown field is the fraction of the content
    height within the same bound, and the top edge of the image, measured
    down from the top of the page, is the fraction of the page height
    within six unit roundoffs of the page height and 3 * 2^-1075.  The box
    is given the width and height of the field, unscaled. *)
Theorem stamp_agrees_with_overlay :
  forall (I : Type) (st : Viewer.State rfloat) (sig : Signature rfloat)
         (page : PDFPage rfloat I) (fx fy h cw ch pw ph : Q),
    In sig (Viewer.signatures st) ->
    page_number sig = Viewer.currentPage st ->
    x_position sig = Fin fx -> y_position sig = Fin fy ->
    height sig = Fin h ->
    Viewer.containerSize st
      = {| Viewer.size_width := Fin cw; Viewer.size_height := Fin ch |} ->
    getWidth page = Fin pw -> getHeight page = Fin ph ->
    (0 <= fx <= 1)%Q -> (0 <= fy <= 1)%Q -> (0 <= h <= ph)%Q ->
    (1 <= cw <= pow2 1000)%Q -> (1 <= ch <= pow2 1000)%Q ->
    (1 <= pw <= pow2 1000)%Q -> (1 <= ph <= pow2 1000)%Q ->
    exists p dx dy ox oy,
      In p (Viewer.overlay st) /\ Field.field_id p = id sig
      /\ Field.field_x p = Fin dx /\ Field.field_y p = Fin dy
      /\ opt_x (placement sig page) = Fin ox
      /\ opt_y (placement sig page) = Fin oy
      /\ opt_width (placement sig page) = width sig
      /\ opt_height (placement sig page) = height sig
      /\ (Qabs (dx - fx * cw) <= unit_roundoff * (fx * cw) + underflow)%Q
      /\ (Qabs (ox - fx * pw) <= unit_roundoff * (fx * pw) + underflow)%Q
      /\ (Qabs (dy - fy * ch) <= unit_roundoff * (fy * ch) + underflow)%Q
      /\ (Qabs ((ph - (oy + h)) - fy * ph) <= stamp_tolerance ph)%Q.
Proof.
  intros I st sig page fx fy h cw ch pw ph Hin Hpage Hx Hy Hh Hsize Hpw Hph
         Hfx Hfy Hhh Hcw Hch Hpwb Hphb.
  destruct (@rounded_product fx cw Hfx Hcw) as [dx [Edx Hdx]].
  destruct (@rounded_product fy ch Hfy Hch) as [dy [Edy Hdy]].
  destruct (@rounded_product fx pw Hfx Hpwb) as [ox [Eox Hox]].
  destruct (@stamped_top fy h ph Hfy Hhh Hphb) as [oy [Eoy Hoy]].
  assert (Hgt : ((Fin cw : rfloat) >? zero)%js = true).
  { cbn. destruct (Qlt_le_dec 0 cw); [reflexivity | lra]. }
  eexists _, dx, dy, ox, oy.
  split.
  { unfold Viewer.overlay. rewrite Hsize.
    cbn [Viewer.size_width Viewer.size_height]. rewrite Hgt.
    apply in_map. apply filter_In. split; [exact Hin|].
    apply Z.eqb_eq. exact Hpage. }
  split; [reflexivity|].
  unfold placement.
  cbn [opt_x opt_y opt_width opt_height Field.field_x Field.field_y].
  rewrite Hx, Hy, Hh, Hpw, Hph, !shown_rounded.
  split.
  { destruct (Qzero fx) eqn:E; [|exact Edx].
    rewrite <- Edx. symmetry. apply b64_zero.
    unfold Qzero in E. apply Qeq_bool_iff in E. rewrite E. ring. }
  split.
  { destruct (Qzero fy) eqn:E; [|exact Edy].
    rewrite <- Edy. symmetry. apply b64_zero.
    unfold Qzero in E. apply Qeq_bool_iff in E. rewrite E. ring. }
  split; [exact Eox|]. split; [exact Eoy|].
  repeat split; assumption.
Qed.

(** The field of [viewer_one]. *)
Definition pending_field {num} (x y w h : num) : Signature num :=
  {| id := "f1"; document_id := "d1"; signer_email := "a@b.c";
     signer_name := Some "A"; status := pending;
     x_position := x; y_position := y; page_number := 1;
     width := w; height := h; signed_at := None;
     signature_data := None; rejection_reason := None |}.

Lemma stamp_agrees_with_overlay_witness :
  exists p dx dy ox oy,
    In p (Viewer.overlay (@viewer_one rfloat (Fin 0.25) (Fin 0.5) (Fin 150)
                                      (Fin 50) (Fin 800) (Fin 1000)))
    /\ Field.field_x p = Fin dx /\ Field.field_y p = Fin dy
    /\ opt_x (placement (@pending_field rfloat (Fin 0.25) (Fin 0.5) (Fin 150)
                                        (Fin 50))
                        (@letter_page rfloat (Fin 612) (Fin 792))) = Fin ox
    /\ opt_y (placement (@pending_field rfloat (Fin 0.25) (Fin 0.5) (Fin 150)
                                        (Fin 50))
                        (@letter_page rfloat (Fin 612) (Fin 792))) = Fin oy
    /\ (Qabs (dx - 0.25 * 800) <= unit_roundoff * (0.25 * 800) + underflow)%Q
    /\ (Qabs (ox - 0.25 * 612) <= unit_roundoff * (0.25 * 612) + underflow)%Q
    /\ (Qabs (dy - 0.5 * 1000) <= unit_roundoff * (0.5 * 1000) + underflow)%Q
    /\ (Qabs (792 - (oy + 50) - 0.5 * 792) <= stamp_tolerance 792)%Q.
Proof.
  destruct (@stamp_agrees_with_overlay
              string
              (@viewer_one rfloat (Fin 0.25) (Fin 0.5) (Fin 150) (Fin 50)
                           (Fin 800) (Fin 1000))
              (@pending_field rfloat (Fin 0.25) (Fin 0.5) (Fin 150) (Fin 50))
              (@letter_page rfloat (Fin 612) (Fin 792))
              0.25%Q 0.5%Q 50%Q 800%Q 1000%Q 612%Q 792%Q
              (or_introl eq_refl) eq_refl eq_refl eq_refl eq_refl eq_refl
              eq_refl eq_refl
              ltac:(split; vm_compute; discriminate)
              ltac:(split; vm_compute; discriminate)
              ltac:(split; vm_compute; discriminate)
              ltac:(split; vm_compute; discriminate)
              ltac:(split; vm_compute; discriminate)
              ltac:(split; vm_compute; discriminate)
              ltac:(split; vm_compute; discriminate))
    as [p [dx [dy [ox [oy [Hin [_ [Hdx [Hdy [Hox [Hoy [_ [_ H]]]]]]]]]]]]].
  exists p, dx, dy, ox, oy. split; [exact Hin|].
  split; [exact Hdx|]. split; [exact Hdy|]. split; [exact Hox|].
  split; [exact Hoy|]. exact H.
Defined.

(** ** What the loop draws on each page *)

Section StampedPages.

Context {num : Type} `{Number num}.
Variable PDFImage : Type.
Variable embedPng : string -> option PDFImage.

(** X3.  When the fields the loop reaches go through (their images decode
    and [drawImage] accepts their places: no NaN among x, y, width and
    height), the loop ends, and each page of the result is the page of the
    original, of the same size and content, followed by the images of the
    fields with truthy data that name this page, in the order of the
    query, each at the place computed from the field and the size of this
    page.  No other page is drawn on.  When [drawImage] refuses the place
    of a field the loop reaches, once its image and those of the fields
    before it are decoded and drawn, the loop throws. *)
Theorem stamp_page_contents (sigs : list (Signature num)) :
  forall doc : PDFDocument num PDFImage,
    (goes_through embedPng doc sigs ->
     exists doc',
       stamp embedPng doc sigs = inr doc'
       /\ List.length (getPages doc') = List.length (getPages doc)
       /\ forall j page,
            nth_error (getPages doc) j = Some page ->
            exists page',
              nth_error (getPages doc') j = Some page'
              /\ getWidth page' = getWidth page
              /\ getHeight page' = getHeight page
              /\ content page' = content page
              /\ drawn page' = drawn page ++ drawn_by embedPng sigs j page)
    /\ (forall before bad after,
           sigs = before ++ bad :: after ->
           goes_through embedPng doc before ->
           stampable (List.length (getPages doc)) bad = true ->
           (forall data, signature_data bad = Some data ->
                         embedPng data <> None) ->
           drawable (getPages doc) bad = false ->
           stamp embedPng doc sigs = inl DrawError).
Proof.
  intro doc. split; [apply stamp_pages|].
  intros before bad after -> Hok Hs Hdec Hdraw.
  destruct (@stamp_succeeds _ _ _ embedPng before doc Hok)
    as [doc1 [E [Hshape _]]].
  unfold stamp in *.
  assert (Hfor : forall (l : list (Signature num)) d0 d1,
             for_of (stamp_signature embedPng) l d0 = inr d1 ->
             for_of (stamp_signature embedPng) (l ++ bad :: after) d0
             = bind (stamp_signature embedPng d1 bad)
                    (for_of (stamp_signature embedPng) after)).
  { induction l as [|a l IH]; intros d0 d1 E0; cbn in *.
    - injection E0 as <-. reflexivity.
    - destruct (stamp_signature embedPng d0 a) as [e|d2]; cbn in *;
        [discriminate|]. now apply IH. }
  rewrite (Hfor _ _ _ E).
  assert (Hs1 : stampable (List.length (getPages doc1)) bad = true)
    by (rewrite (map_shape_length _ _ Hshape); exact Hs).
  destruct (stamp_signature_reach embedPng doc1 bad Hs1)
    as [data [page [Hd [Hi [_ Ebad]]]]].
  rewrite Ebad. specialize (Hdec data Hd).
  destruct (embedPng data); [|contradiction].
  rewrite <- (@drawable_shape _ _ _ (getPages doc) (getPages doc1) bad Hshape)
    in Hdraw.
  unfold drawable in Hdraw. rewrite Hi in Hdraw. rewrite Hdraw. reflexivity.
Qed.

End StampedPages.

Lemma stamp_page_contents_witness :
  exists doc' page',
    stamp Sample.embed Sample.pdf Sample.two_of_three = inr doc'
    /\ nth_error (getPages doc') 1 = Some page'
    /\ drawn page'
       = [(Sample.png, {| opt_x := 61.2; opt_y := 662.8;
                          opt_width := 150; opt_height := 50 |})]%float.
Proof.
  destruct (proj1 (@stamp_page_contents float _ string Sample.embed
                     Sample.two_of_three Sample.pdf))
    as [doc' [E [_ Hpages]]].
  - sample_goes_through.
  - destruct (Hpages 1%nat (letter_page 612 792)%float eq_refl)
      as [page' [Hp [_ [_ [_ Hd]]]]].
    exists doc', page'. split; [exact E|]. split; [exact Hp|].
    rewrite Hd. reflexivity.
Defined.

(** ** The handler: what a response means for the service *)

Lemma lookup_upsert_same {A} (k : string) (v : A) (l : list (string * A)) :
  lookup k (upsert k v l) = Some v.
Proof.
  induction l as [|[k' v'] l IH]; cbn.
  - now rewrite String.eqb_refl.
  - destruct (String.eqb k k') eqn:E; cbn.
    + now rewrite String.eqb_refl.
    + now rewrite E.
Qed.

Lemma lookup_upsert_other {A} (k k0 : string) (v : A) (l : list (string * A)) :
  k0 <> k -> lookup k0 (upsert k v l) = lookup k0 l.
Proof.
  intro Hne. induction l as [|[k' v'] l IH]; cbn.
  - apply String.eqb_neq in Hne. now rewrite Hne.
  - destruct (String.eqb k k') eqn:E; cbn.
    + apply String.eqb_eq in E. subst k'.
      apply String.eqb_neq in Hne. now rewrite Hne.
    + now rewrite IH.
Qed.

Section ServeFacts.

Context {num : Type} `{Number num}.
Variables Bytes PDFImage : Type.
Variable load : Bytes -> option (PDFDocument num PDFImage).
Variable embedPng : string -> option PDFImage.
Variable save : PDFDocument num PDFImage -> Bytes.
Variable getPublicUrl : string -> string.

(** When [build] ends, everything before the loop went through and the
    bytes are the saved result of the loop over the selected rows. *)
Lemma build_inversion now req be name bytes :
  String.eqb (method req) "OPTIONS" = false ->
  build load embedPng save now req be = inr (name, bytes) ->
  exists document_id document pdfDoc stamped,
    reaches_loop load req be document_id document pdfDoc
    /\ stamp embedPng pdfDoc (selected be document_id) = inr stamped
    /\ name = signedFileName document now
    /\ bytes = save stamped.
Proof.
  intros Hm. unfold build, select_signed.
  destruct (json req) as [[i|]|] eqn:Hj; cbn [bind ret throw]; try discriminate.
  destruct (truthy_str i) eqn:Ht; cbn [bind ret throw]; [|discriminate].
  destruct (select_document be i) as [e|document] eqn:Hdoc;
    cbn [bind]; [discriminate|].
  destruct (lookup (file_path document) (bucket_documents be))
    as [pdfFileData|] eqn:Hf; cbn [bind ret throw]; [|discriminate].
  destruct (sig_fault be) eqn:Hq; cbn [bind ret throw]; [discriminate|].
  destruct (load pdfFileData) as [pdfDoc|] eqn:Hl; cbn [bind ret throw];
    [|discriminate].
  fold (selected be i).
  destruct (stamp embedPng pdfDoc (selected be i)) as [e|stamped] eqn:Hs;
    cbn [bind ret]; [discriminate|].
  intro E. injection E as <- <-.
  exists i, document, pdfDoc, stamped. repeat split; auto.
  exists pdfFileData. auto.
Qed.

(** X4.  A success (status 200 to a request other than OPTIONS) means:
    the request named a document found exactly once, whose file was found
    and parsed, the loop over its signed rows ended, and the saved result
    is now stored in the bucket of signed documents under the name the
    returned URL is made of.  Every other file of that bucket, both tables
    and the bucket of originals are as before. *)
Theorem serve_success_stores_file :
  forall now req be,
    String.eqb (method req) "OPTIONS" = false ->
    resp_status (fst (serve load embedPng save getPublicUrl now req be)) = 200 ->
    exists document_id document pdfDoc stamped,
      let name := signedFileName document now in
      let be' := snd (serve load embedPng save getPublicUrl now req be) in
      reaches_loop load req be document_id document pdfDoc
      /\ stamp embedPng pdfDoc (selected be document_id) = inr stamped
      /\ resp_body (fst (serve load embedPng save getPublicUrl now req be))
         = SignedUrl (getPublicUrl name)
      /\ lookup name (bucket_signed be') = Some (save stamped)
      /\ (forall other, other <> name ->
                        lookup other (bucket_signed be')
                        = lookup other (bucket_signed be))
      /\ documents be' = documents be
      /\ signatures be' = signatures be
      /\ bucket_documents be' = bucket_documents be.
Proof.
  intros now req be Hm. unfold serve. rewrite Hm.
  destruct (build load embedPng save now req be) as [e|[name bytes]] eqn:Hb;
    cbn [bind fst snd resp_status]; [discriminate|].
  unfold upload.
  destruct (upload_fault be); cbn [bind ret throw fst snd resp_status resp_body];
    [discriminate|].
  intros _.
  destruct (@build_inversion now req be name bytes Hm Hb)
    as [document_id [document [pdfDoc [stamped [Hr [Hs [-> ->]]]]]]].
  exists document_id, document, pdfDoc, stamped. cbn zeta.
  cbn [documents signatures bucket_documents bucket_signed].
  split; [exact Hr|]. split; [exact Hs|]. split; [reflexivity|].
  split; [apply lookup_upsert_same|].
  split; [intros other Hne; now apply lookup_upsert_other|].
  auto.
Qed.

(** X5.  A response other than 200 is a 500 that carries what the [try]
    block threw, before the upload or as the upload's fault, and leaves
    the service as it was: no file is stored for a run that failed. *)
Theorem failed_request_stores_nothing :
  forall now req be,
    resp_status (fst (serve load embedPng save getPublicUrl now req be))
    <> 200 ->
    snd (serve load embedPng save getPublicUrl now req be) = be
    /\ resp_status (fst (serve load embedPng save getPublicUrl now req be))
       = 500
    /\ exists e,
         resp_body (fst (serve load embedPng save getPublicUrl now req be))
         = ErrorBody e
         /\ (build load embedPng save now req be = inl e
             \/ exists name bytes fault,
                  build load embedPng save now req be = inr (name, bytes)
                  /\ upload_fault be = Some fault
                  /\ e = UploadError fault).
Proof.
  intros now req be. unfold serve.
  destruct (String.eqb (method req) "OPTIONS");
    [cbn; intro Hne; now elim Hne|].
  destruct (build load embedPng save now req be) as [e|[name bytes]] eqn:Hb;
    cbn [bind fst snd].
  - intros _. cbn. repeat split. exists e. auto.
  - unfold upload. destruct (upload_fault be) as [fault|] eqn:Hu;
      cbn [bind ret throw fst snd resp_status resp_body].
    + intros _. repeat split. exists (UploadError fault). split; [reflexivity|].
      right. exists name, bytes, fault. auto.
    + intro Hne. now elim Hne.
Qed.

End ServeFacts.

Lemma serve_success_stores_file_witness :
  exists stamped,
    lookup "contract_signed_1700000000000.pdf"
           (bucket_signed
              (snd (serve (@Some _) Sample.embed (fun d => d) Sample.url
                          1700000000000 Sample.request
                          (Sample.service Sample.two_of_three))))
    = Some stamped
    /\ stamp Sample.embed Sample.pdf
             (selected (Sample.service Sample.two_of_three) "d1")
       = inr stamped.
Proof.
  assert (H200 : resp_status
                   (fst (serve (@Some _) Sample.embed (fun d => d) Sample.url
                               1700000000000 Sample.request
                               (Sample.service Sample.two_of_three)))
                 = 200) by (vm_compute; reflexivity).
  destruct (@serve_success_stores_file
              float _ _ string (@Some _) Sample.embed (fun d => d) Sample.url
              1700000000000 Sample.request
              (Sample.service Sample.two_of_three) eq_refl H200)
    as [document_id [document [pdfDoc [stamped [Hr [Hs [_ [Hl _]]]]]]]].
  exists stamped.
  assert (Hid : document_id = "d1").
  { pose proof (request_id Hr) as E. vm_compute in E.
    injection E as E. symmetry. exact E. }
  subst document_id.
  assert (Hdoc : document = Sample.contract).
  { pose proof (document_found Hr) as E. vm_compute in E.
    injection E as E. symmetry. exact E. }
  subst document.
  assert (Hpdf : pdfDoc = Sample.pdf).
  { destruct (file_loaded Hr) as [bytes [E1 E2]].
    vm_compute in E1. injection E1 as E1. subst bytes.
    injection E2 as E2. symmetry. exact E2. }
  subst pdfDoc.
  split; [exact Hl | exact Hs].
Defined.

Lemma failed_request_stores_nothing_witness :
  snd (serve (@Some _) Sample.embed (fun d => d) Sample.url 1700000000000
             {| method := "POST"; json := Some None |}
             (Sample.service Sample.two_of_three))
  = Sample.service Sample.two_of_three
  /\ resp_body
       (fst (serve (@Some _) Sample.embed (fun d => d) Sample.url
                   1700000000000
                   {| method := "POST"; json := Some None |}
                   (Sample.service Sample.two_of_three)))
     = ErrorBody DocumentIdRequired.
Proof.
  destruct (@failed_request_stores_nothing float _ _ string (@Some _)
              Sample.embed (fun d => d) Sample.url 1700000000000
              {| method := "POST"; json := Some None |}
              (Sample.service Sample.two_of_three))
    as [Hbe [_ [e [Hbody _]]]].
  - cbn. discriminate.
  - split; [exact Hbe|]. reflexivity.
Defined.

(** ** The callers of the handler *)

Section DownloadFacts.

Context {num : Type} `{Number num}.
Variables Bytes PDFImage : Type.
Variable load : Bytes -> option (PDFDocument num PDFImage).
Variable embedPng : string -> option PDFImage.
Variable save : PDFDocument num PDFImage -> Bytes.
Variable getPublicUrl : string -> string.

(** The handler either stores a file and answers with its URL, or answers
    without a URL. *)
Lemma serve_cases now req be :
  (exists name bytes,
      resp_body (fst (serve load embedPng save getPublicUrl now req be))
      = SignedUrl (getPublicUrl name)
      /\ lookup name
                (bucket_signed
                   (snd (serve load embedPng save getPublicUrl now req be)))
         = Some bytes)
  \/ (forall u,
         resp_body (fst (serve load embedPng save getPublicUrl now req be))
         <> SignedUrl u).
Proof.
  unfold serve. destruct (String.eqb (method req) "OPTIONS").
  - right. cbn. discriminate.
  - destruct (build load embedPng save now req be) as [e|[name bytes]];
      cbn [bind]; [right; cbn; discriminate|].
    unfold upload. destruct (upload_fault be); cbn [bind ret throw];
      [right; cbn; discriminate|].
    left. exists name, bytes. cbn. split; [reflexivity|].
    apply lookup_upsert_same.
Qed.

(** What a caller does with one result of the client. *)
Definition opens_only (u : string) (effects : list (Viewer.Effect num))
    : Prop :=
  effects = [Viewer.WindowOpen u].

Definition only_toasts (effects : list (Viewer.Effect num)) : Prop :=
  forall eff, In eff effects ->
              exists title description, eff = Viewer.Toast title description.

(** X6.  The three callers of the handler ([downloadDocument] of the
    viewer, [handleDownload] of the dashboard, [handlePreviewDownload] of
    the signing page) open a window only for the URL of a file the handler
    has just stored, and then do nothing else; for every other response,
    whatever went wrong and however the client reports it, they only show
    a toast. *)
Theorem callers_open_only_stored_files :
  forall message now req be r,
    delivered message
              (fst (serve load embedPng save getPublicUrl now req be)) r ->
    forall caller,
      In caller [@Viewer.downloadDocument num; @Callers.handleDownload num;
                 @Callers.handlePreviewDownload num] ->
      only_toasts (caller r)
      \/ exists name bytes,
           opens_only (getPublicUrl name) (caller r)
           /\ lookup name
                     (bucket_signed
                        (snd (serve load embedPng save getPublicUrl now req be)))
              = Some bytes.
Proof.
  intros message now req be r Hdel caller Hcaller.
  assert (Htoast : forall t d, only_toasts [@Viewer.Toast num t d]).
  { intros t d eff [<-|[]]. eauto. }
  assert (Hshape :
            Viewer.inv_error r <> None
            \/ (Viewer.inv_error r = None
                /\ ((exists m, Viewer.data_error r = Some m
                               /\ Viewer.data_signedUrl r = None)
                    \/ (Viewer.data_error r = None
                        /\ Viewer.data_signedUrl r = None)
                    \/ (exists name bytes,
                           Viewer.data_error r = None
                           /\ Viewer.data_signedUrl r
                              = Some (getPublicUrl name)
                           /\ lookup name
                                (bucket_signed
                                   (snd (serve load embedPng save getPublicUrl
                                               now req be)))
                              = Some bytes)))).
  { destruct Hdel as [[_ Herr]|[Herr Hbody]]; [left; exact Herr|].
    right. split; [exact Herr|].
    destruct (serve_cases now req be) as [[name [bytes [Hb Hl]]]|Hno].
    - rewrite Hb in Hbody. destruct Hbody as [Hde Hurl].
      right. right. exists name, bytes. auto.
    - destruct (resp_body (fst (serve load embedPng save getPublicUrl
                                       now req be))) as [|u|e].
      + right. left. exact Hbody.
      + exfalso. now apply (Hno u).
      + left. exists (message e). exact Hbody. }
  assert (Hall :
            forall (title fallback : string) (keep : bool),
              let toast m := [@Viewer.Toast num title
                                (if keep then m
                                 else if truthy_str m then m else fallback)] in
              forall f : Viewer.Invoked -> list (Viewer.Effect num),
                (forall r0, f r0 =
                   match Viewer.inv_error r0 with
                   | Some m => toast m
                   | None =>
                       if truthy_opt (Viewer.data_error r0) then
                         toast (match Viewer.data_error r0 with
                                | Some m => m | None => "" end)
                       else
                         match Viewer.data_signedUrl r0 with
                         | Some url =>
                             if truthy_str url then [Viewer.WindowOpen url]
                             else toast "Function did not return a valid URL."
                         | None =>
                             toast "Function did not return a valid URL."
                         end
                   end) ->
                only_toasts (f r)
                \/ exists name bytes,
                     opens_only (getPublicUrl name) (f r)
                     /\ lookup name
                          (bucket_signed
                             (snd (serve load embedPng save getPublicUrl
                                         now req be)))
                        = Some bytes).
  { intros title fallback keep toast f Hf. rewrite Hf.
    destruct Hshape as [Herr|[Herr Hdata]].
    - destruct (Viewer.inv_error r); [|contradiction]. left. apply Htoast.
    - rewrite Herr.
      destruct Hdata as [[m [Hde Hurl]]|[[Hde Hurl]|[name [bytes [Hde [Hurl Hl]]]]]];
        rewrite Hde, Hurl; cbn [truthy_opt].
      + destruct (truthy_str m); left; apply Htoast.
      + left. apply Htoast.
      + destruct (truthy_str (getPublicUrl name)).
        * right. exists name, bytes. split; [reflexivity | exact Hl].
        * left. apply Htoast. }
  destruct Hcaller as [<-|[<-|[<-|[]]]].
  - apply (Hall "Error creating download link" "An unknown error occurred."
                false). reflexivity.
  - apply (Hall "Error creating download link" "" true). reflexivity.
  - apply (Hall "Error creating preview" "An unknown error occurred." false).
    reflexivity.
Qed.

End DownloadFacts.

Lemma callers_open_only_stored_files_witness :
  only_toasts
    (@Viewer.downloadDocument float
       {| Viewer.inv_error := None; Viewer.data_error := None;
          Viewer.data_signedUrl :=
            Some (Sample.url "contract_signed_1700000000000.pdf") |})
  \/ exists name bytes,
       opens_only (Sample.url name)
         (@Viewer.downloadDocument float
            {| Viewer.inv_error := None; Viewer.data_error := None;
               Viewer.data_signedUrl :=
                 Some (Sample.url "contract_signed_1700000000000.pdf") |})
       /\ lookup name
            (bucket_signed
               (snd (serve (@Some _) Sample.embed (fun d => d) Sample.url
                           1700000000000 Sample.request
                           (Sample.service Sample.two_of_three))))
          = Some bytes.
Proof.
  apply (@callers_open_only_stored_files
           float _ _ string (@Some _) Sample.embed (fun d => d) Sample.url
           (fun _ => "error") 1700000000000 Sample.request
           (Sample.service Sample.two_of_three)).
  - right. split; [reflexivity|]. vm_compute. split; reflexivity.
  - left. reflexivity.
Defined.

(* ================================================================== *)
(** * Further properties of [SignatureField] *)
(* ================================================================== *)

(** ** Which fields can be dragged *)

Section DragFacts.

Context {num : Type} `{Number num}.

Lemma on_mice_idle (p : Field.Props num) (ms : list (FieldView.Mouse num)) :
  Field.isDraggable p = false \/ Field.field_status p = signed ->
  forall st, Field.isDragging st = false ->
             snd (FieldView.on_mice p st ms) = []
             /\ Field.isDragging (fst (FieldView.on_mice p st ms)) = false.
Proof.
  intro Hfixed. induction ms as [|m ms IH]; intros st Hidle; [auto|].
  cbn [FieldView.on_mice].
  assert (Hstep : Field.isDragging (fst (FieldView.on_mouse p st m)) = false
                  /\ snd (FieldView.on_mouse p st m) = None).
  { destruct m as [rect e|crect e|]; cbn.
    - split; [|reflexivity]. unfold Field.handleMouseDown.
      destruct Hfixed as [-> | ->]; cbn; [exact Hidle|].
      rewrite orb_true_r. exact Hidle.
    - split; [exact Hidle|]. unfold Field.handleMouseMove.
      rewrite Hidle. reflexivity.
    - auto. }
  destruct (FieldView.on_mouse p st m) as [st1 call].
  cbn [fst snd] in Hstep. destruct Hstep as [Hidle1 ->].
  specialize (IH st1 Hidle1).
  destruct (FieldView.on_mice p st1 ms) as [st2 calls]. exact IH.
Qed.

(** X7.  A field that is signed, or rendered with [isDraggable] false (as
    every field of the signing page is), or rendered without [onMove],
    never calls [onMove], whatever mouse events reach it. *)
Theorem fixed_field_never_moves :
  forall (p : Field.Props num) (ms : list (FieldView.Mouse num)),
    Field.field_status p = signed
    \/ Field.isDraggable p = false
    \/ Field.has_onMove p = false ->
    snd (FieldView.on_mice p Field.initial ms) = [].
Proof.
  intros p ms [Hs|[Hd|Hm]].
  - apply on_mice_idle; [right; exact Hs | reflexivity].
  - apply on_mice_idle; [left; exact Hd | reflexivity].
  - generalize (@Field.initial num _). induction ms as [|m ms IH]; intro st;
      [reflexivity|].
    cbn [FieldView.on_mice].
    assert (Hcall : snd (FieldView.on_mouse p st m) = None).
    { destruct m; cbn; try reflexivity. unfold Field.handleMouseMove.
      rewrite Hm. cbn. now rewrite orb_true_r. }
    destruct (FieldView.on_mouse p st m) as [st1 call]. cbn in Hcall.
    subst call. specialize (IH st1).
    destruct (FieldView.on_mice p st1 ms). exact IH.
Qed.

End DragFacts.

(** The signed field of the sample, as the overlay renders it. *)
Definition signed_field {num} (x y w h : num) : Field.Props num :=
  {| Field.field_id := "f1"; Field.field_x := x; Field.field_y := y;
     Field.field_width := w; Field.field_height := h;
     Field.field_status := signed;
     Field.signatureData := Some Sample.png;
     Field.has_onMove := true; Field.isDraggable := true |}.

Lemma fixed_field_never_moves_witness :
  snd (FieldView.on_mice (signed_field 80 100 150 50)%float Field.initial
         [FieldView.Down (Some (rect 100 130)) (mouse 110 140);
          FieldView.Move (Some (rect 20 30)) (mouse 300 400);
          FieldView.Up]%float)
  = [].
Proof.
  apply (@fixed_field_never_moves float _). left. reflexivity.
Defined.

(** A rejected field is not held back: the same events move it. *)
Example rejected_field_moves :
  snd (FieldView.on_mice
         {| Field.field_id := "f1"; Field.field_x := 80; Field.field_y := 100;
            Field.field_width := 150; Field.field_height := 50;
            Field.field_status := rejected; Field.signatureData := None;
            Field.has_onMove := true; Field.isDraggable := true |}%float
         Field.initial
         [FieldView.Down (Some (rect 100 130)) (mouse 110 140);
          FieldView.Move (Some (rect 20 30)) (mouse 300 400);
          FieldView.Up]%float)
  = [("f1", 270, 360)]%float.
Proof. reflexivity. Qed.

(** ** A drag, from press to move *)

(** How far the position asked for can be from the exact one, with
    coordinates of size at most [M] and content of size [W]: 24 unit
    roundoffs of [M], and an underflow term. *)
Definition drag_tolerance (M W : Q) : Q :=
  24 * unit_roundoff * M + underflow * (W + 4).

(** One coordinate of a drag.  The field is pressed with the pointer at
    [px] and its rectangle at [fl]; the pointer moves to [mx], the parent's
    rectangle is at [cl], the content is scrolled by [sl] and measures [W].
    Six operations are rounded. *)
Lemma drag_axis (fl cl px mx sl W M : Q) :
  (1 <= M <= pow2 1000)%Q -> (1 <= W)%Q ->
  (Qabs fl <= M)%Q -> (Qabs cl <= M)%Q -> (Qabs px <= M)%Q ->
  (Qabs mx <= M)%Q -> (Qabs sl <= M)%Q ->
  exists q,
    (((max zero ((Fin mx : rfloat) - Fin cl - ((Fin px : rfloat) - Fin fl))
       + Fin sl) / Fin W)%js : rfloat) = Fin q
    /\ (Qabs (q * W - (Qmax 0 ((fl - cl) + (mx - px)) + sl))
        <= drag_tolerance M W)%Q.
Proof.
  intros [HM1 HM] HW Hfl Hcl Hpx Hmx Hsl. unfold drag_tolerance.
  destruct u_small as [Hu0 Hu1]. destruct eta_small as [He0 He1].
  apply Qabs_Qle_condition in Hfl, Hcl, Hpx, Hmx, Hsl.
  assert (HuM : (0 <= unit_roundoff * M <= (1 # 1000) * M)%Q).
  { split; [apply Qmult_le_0_compat; lra|].
    apply Qmult_le_compat_r; lra. }
  cbn [sub add div max zero correctly_rounded xadd xopp xround].
  destruct (@b64_within (mx + - cl) (2 * M)) as [r1 [E1 H1]];
    [apply Qabs_Qle_condition; lra | apply below_largest; lra |].
  destruct (@b64_within (px + - fl) (2 * M)) as [r2 [E2 H2]];
    [apply Qabs_Qle_condition; lra | apply below_largest; lra |].
  rewrite E1, E2. cbn [xadd xopp xround].
  destruct (@b64_within (r1 + - r2) (5 * M)) as [r3 [E3 H3]];
    [apply Qabs_Qle_condition; lra | apply below_largest; lra |].
  rewrite E3.
  destruct (xmax_zero r3) as [m [Em Hm]].
  change (xmax (Fin 0) (Fin r3)) with (max (zero : xrat) (Fin r3)).
  rewrite Em. cbn [xadd xround].
  assert (Hm6 : (0 <= m <= 6 * M)%Q).
  { rewrite Hm. destruct (Q.max_spec 0 r3) as [[? ->]|[? ->]]; lra. }
  assert (Hmd : (- (9 * (unit_roundoff * M) + 3 * underflow)
                 <= m - Qmax 0 (fl - cl + (mx - px))
                 <= 9 * (unit_roundoff * M) + 3 * underflow)%Q).
  { rewrite Hm.
    destruct (Q.max_spec 0 r3) as [[? ->]|[? ->]];
      destruct (Q.max_spec 0 (fl - cl + (mx - px))) as [[? ->]|[? ->]]; lra. }
  destruct (@b64_within (m + sl) (7 * M)) as [s [Es Hs]];
    [apply Qabs_Qle_condition; lra | apply below_largest; lra |].
  rewrite Es.
  assert (HW0 : ~ (W == 0)%Q) by lra.
  rewrite (xdiv_fin _ HW0). cbn [xround].
  assert (Hs8 : (- (8 * M) <= s <= 8 * M)%Q) by lra.
  assert (Hsw : (Qabs (s / W) <= 8 * M)%Q).
  { apply Qabs_Qle_condition.
    assert (Hinv : (0 < / W <= 1)%Q).
    { split; [apply Qinv_lt_0_compat; lra|].
      apply Qle_shift_inv_r; lra. }
    unfold Qdiv.
    destruct (Qlt_le_dec s 0).
    - assert (s <= s * / W)%Q.
      { setoid_replace (s * / W)%Q with (- (- s * / W))%Q by ring.
        assert (- s * / W <= - s * 1)%Q by (apply Qmult_le_l; lra).
        lra. }
      assert (s * / W <= 0)%Q.
      { setoid_replace (s * / W)%Q with (- (- s * / W))%Q by ring.
        assert (0 <= - s * / W)%Q by (apply Qmult_le_0_compat; lra). lra. }
      lra.
    - assert (s * / W <= s * 1)%Q.
      { destruct (Qeq_dec s 0) as [E|E]; [rewrite E; lra|].
        apply Qmult_le_l; lra. }
      assert (0 <= s * / W)%Q by (apply Qmult_le_0_compat; lra).
      lra. }
  destruct (@b64_error (s / W)) as [q [Eq Hq]].
  { apply Qle_trans with (8 * M)%Q; [exact Hsw | apply below_largest; lra]. }
  exists q. split; [exact Eq|].
  apply Qabs_Qle_condition.
  assert (HqW : (Qabs (q * W - s)
                 <= unit_roundoff * Qabs s + underflow * W)%Q).
  { setoid_replace (q * W - s)%Q with ((q - s / W) * W)%Q
      by (field; exact HW0).
    rewrite Qabs_Qmult, (Qabs_pos W) by lra.
    setoid_replace (unit_roundoff * Qabs s + underflow * W)%Q
      with ((unit_roundoff * Qabs (s / W) + underflow) * W)%Q.
    - apply Qmult_le_compat_r; [exact Hq | lra].
    - unfold Qdiv. rewrite Qabs_Qmult, (Qabs_pos (/ W)).
      + field. exact HW0.
      + apply Qlt_le_weak, Qinv_lt_0_compat. lra. }
  assert (Hus : (unit_roundoff * Qabs s <= unit_roundoff * (8 * M))%Q).
  { apply Qmult_le_l; [lra|]. apply Qabs_Qle_condition. lra. }
  apply Qabs_Qle_condition in HqW.
  lra.
Qed.

Lemma drag_tolerance_small (M W : Q) :
  (1 <= M)%Q -> (0 <= W <= pow2 1000)%Q ->
  (drag_tolerance M W <= (3 # 1000000000000000) * M)%Q.
Proof.
  intros HM [HW0 HW]. unfold drag_tolerance.
  assert (Hu : (24 * unit_roundoff <= 28 # 10000000000000000)%Q)
    by (vm_compute; discriminate).
  assert (He : (underflow * (pow2 1000 + 4) <= 2 # 10000000000000000)%Q)
    by (vm_compute; discriminate).
  destruct eta_small as [He0 _].
  assert (H1 : (24 * unit_roundoff * M <= (28 # 10000000000000000) * M)%Q).
  { apply Qmult_le_compat_r; lra. }
  assert (H2 : (underflow * (W + 4) <= underflow * (pow2 1000 + 4))%Q).
  { apply Qmult_le_l; lra. }
  lra.
Qed.

(** X8.  A field that can be dragged is pressed at one pointer position
    and the pointer then moves to another; every operation is rounded to
    the nearest binary64 number.  With coordinates of size at most [M]
    (at least 1, at most 2^1000) and content of at least one pixel and at
    most 2^1000 each way, the page is asked to store fractions which,
    multiplied by the content size, are the position where the field was
    relative to its parent (rectangle of the field minus rectangle of the
    parent) plus the displacement of the pointer, floored at 0, plus the
    scroll offset, within 24 unit roundoffs of [M] and an underflow term:
    less than 3e-15 times [M].  So while that position is not negative the
    field follows the pointer by its displacement, to that precision. *)
Theorem drag_follows_pointer :
  forall (p : Field.Props rfloat) (st : Viewer.State rfloat) error
         (fl ft cl ct px py mx my W H sl stp M : Q),
    Field.isDraggable p = true ->
    Field.field_status p <> signed ->
    Field.has_onMove p = true ->
    (1 <= M <= pow2 1000)%Q ->
    (1 <= W <= pow2 1000)%Q -> (1 <= H <= pow2 1000)%Q ->
    (Qabs fl <= M)%Q -> (Qabs cl <= M)%Q -> (Qabs px <= M)%Q ->
    (Qabs mx <= M)%Q -> (Qabs sl <= M)%Q ->
    (Qabs ft <= M)%Q -> (Qabs ct <= M)%Q -> (Qabs py <= M)%Q ->
    (Qabs my <= M)%Q -> (Qabs stp <= M)%Q ->
    let pressed := Field.handleMouseDown p (Some (rect (Fin fl) (Fin ft)))
                                         (mouse (Fin px) (Fin py))
                                         Field.initial in
    exists qx qy rest,
      snd (Viewer.drag p (Some (rect (Fin cl) (Fin ct)))
                       (mouse (Fin mx) (Fin my)) pressed
                       (Some (box (Fin W) (Fin H) (Fin sl) (Fin stp)))
                       error st)
      = Viewer.UpdatePosition (Field.field_id p) (Fin qx) (Fin qy) :: rest
      /\ (Qabs (qx * W - (Qmax 0 ((fl - cl) + (mx - px)) + sl))
          <= drag_tolerance M W)%Q
      /\ (Qabs (qy * H - (Qmax 0 ((ft - ct) + (my - py)) + stp))
          <= drag_tolerance M H)%Q
      /\ (drag_tolerance M W <= (3 # 1000000000000000) * M)%Q
      /\ (drag_tolerance M H <= (3 # 1000000000000000) * M)%Q.
Proof.
  intros p st error fl ft cl ct px py mx my W H sl stp M Hd Hs Hm HM
         [HW HWb] [HH HHb] Hfl Hcl Hpx Hmx Hsl Hft Hct Hpy Hmy Hstp pressed.
  assert (Hpressed : pressed
                     = dragging ((Fin px : rfloat) - Fin fl)%js
                                ((Fin py : rfloat) - Fin ft)%js).
  { unfold pressed, Field.handleMouseDown. rewrite Hd.
    destruct (Field.field_status p); try reflexivity. now elim Hs. }
  rewrite Hpressed. unfold Viewer.drag, Field.handleMouseMove.
  rewrite Hm.
  cbn [dragging Field.isDragging negb orb rect mouse Field.clientX Field.clientY
       Field.left Field.top Field.dragOffset Field.pt_x Field.pt_y].
  destruct (@drag_axis fl cl px mx sl W M HM HW Hfl Hcl Hpx Hmx Hsl)
    as [qx [Ex Hx]].
  destruct (@drag_axis ft ct py my stp H M HM HH Hft Hct Hpy Hmy Hstp)
    as [qy [Ey Hy]].
  unfold Viewer.handleMoveSignature.
  cbn [box Viewer.scrollWidth Viewer.scrollHeight Viewer.scrollLeft
       Viewer.scrollTop].
  rewrite Ex, Ey.
  exists qx, qy.
  exists (match error with
          | Some _ => [Viewer.Toast "Error" "Failed to update signature position"]
          | None => []
          end).
  split; [destruct error; reflexivity|].
  split; [exact Hx|]. split; [exact Hy|].
  split; apply drag_tolerance_small; lra.
Qed.

Lemma drag_follows_pointer_witness :
  exists qx qy rest,
    snd (Viewer.drag (@shown_field rfloat (Fin 80) (Fin 100) (Fin 150) (Fin 50))
                     (Some (rect (Fin 20) (Fin 30)))
                     (mouse (Fin 140) (Fin 175))
                     (Field.handleMouseDown
                        (@shown_field rfloat (Fin 80) (Fin 100) (Fin 150)
                                      (Fin 50))
                        (Some (rect (Fin 100) (Fin 130)))
                        (mouse (Fin 110) (Fin 140)) Field.initial)
                     (Some (box (Fin 800) (Fin 1000) (Fin 0) (Fin 0))) None
                     (@viewer_one rfloat (Fin 0.1) (Fin 0.1) (Fin 150) (Fin 50)
                                  (Fin 800) (Fin 1000)))
    = Viewer.UpdatePosition "f1" (Fin qx) (Fin qy) :: rest
    /\ (Qabs (qx * 800 - 110) <= (3 # 1000000000000000) * 1000)%Q
    /\ (Qabs (qy * 1000 - 135) <= (3 # 1000000000000000) * 1000)%Q.
Proof.
  assert (HM : (1 <= 1000 <= pow2 1000)%Q) by (split; (vm_compute; discriminate)).
  assert (HW : (1 <= 800 <= pow2 1000)%Q) by (split; (vm_compute; discriminate)).
  assert (HH : (1 <= 1000 <= pow2 1000)%Q) by (split; (vm_compute; discriminate)).
  destruct (@drag_follows_pointer
              (@shown_field rfloat (Fin 80) (Fin 100) (Fin 150) (Fin 50))
              (@viewer_one rfloat (Fin 0.1) (Fin 0.1) (Fin 150) (Fin 50)
                           (Fin 800) (Fin 1000))
              None 100%Q 130%Q 20%Q 30%Q 110%Q 140%Q 140%Q 175%Q
              800%Q 1000%Q 0%Q 0%Q 1000%Q eq_refl
              ltac:(discriminate) eq_refl HM HW HH
              ltac:((vm_compute; discriminate)) ltac:((vm_compute; discriminate)) ltac:((vm_compute; discriminate)) ltac:((vm_compute; discriminate)) ltac:((vm_compute; discriminate))
              ltac:((vm_compute; discriminate)) ltac:((vm_compute; discriminate)) ltac:((vm_compute; discriminate)) ltac:((vm_compute; discriminate)) ltac:((vm_compute; discriminate)))
    as [qx [qy [rest [E [Hx [Hy [Hsx Hsy]]]]]]].
  exists qx, qy, rest. split; [exact E|].
  assert (Ex : (Qmax 0 (100 - 20 + (140 - 110)) + 0 == 110)%Q)
    by (vm_compute; reflexivity).
  assert (Ey : (Qmax 0 (130 - 30 + (175 - 140)) + 0 == 135)%Q)
    by (vm_compute; reflexivity).
  rewrite Ex in Hx. rewrite Ey in Hy.
  split; eapply Qle_trans; eassumption.
Defined.

(* ================================================================== *)
(** * Further properties of [DocumentViewer] and [PDFViewer] *)
(* ================================================================== *)

(** ** Deleting a field from the overlay *)

Section DeleteFacts.

Context {num : Type} `{Number num}.

(** A field of the overlay is the rendering of a signature of the state. *)
Lemma overlay_origin (st : Viewer.State num) (p : Field.Props num) :
  In p (Viewer.overlay st) ->
  exists sig, In sig (Viewer.signatures st)
              /\ Field.field_id p = id sig
              /\ Field.field_status p = status sig
              /\ Field.signatureData p = signature_data sig
              /\ page_number sig = Viewer.currentPage st.
Proof.
  unfold Viewer.overlay.
  destruct (Viewer.size_width (Viewer.containerSize st) >? zero)%js;
    [|contradiction].
  intro Hin. apply in_map_iff in Hin. destruct Hin as [sig [<- Hin]].
  apply filter_In in Hin. destruct Hin as [Hin Hpage].
  apply Z.eqb_eq in Hpage. exists sig. cbn. auto.
Qed.

Lemma NoDup_id_unique (l : list (Signature num)) (a b : Signature num) :
  NoDup (map (@id num) l) -> In a l -> In b l -> id a = id b -> a = b.
Proof.
  induction l as [|t l IH]; [contradiction|].
  cbn. intros Hnd Ha Hb Hid. inversion Hnd as [|? ? Hnot Hnd']; subst.
  destruct Ha as [->|Ha], Hb as [->|Hb]; auto.
  - exfalso. apply Hnot. rewrite Hid. now apply in_map.
  - exfalso. apply Hnot. rewrite <- Hid. now apply in_map.
Qed.

(** X9.  From the overlay only pending fields can be deleted: the delete
    button is rendered for no other, so a press on a signed or rejected
    field does nothing, and with unique ids no press ever removes a field
    that is not pending.  A press on a pending field removes that field
    and no other when the delete is accepted, and leaves the list as it is
    when the delete is refused. *)
Theorem overlay_deletes_only_pending :
  forall error (p : Field.Props num) (st : Viewer.State num),
    In p (Viewer.overlay st) ->
    NoDup (map (@id num) (Viewer.signatures st)) ->
    let st' := fst (Owner.press_delete error p st) in
    (Field.field_status p <> pending ->
     Owner.press_delete error p st = (st, []))
    /\ (forall sig, In sig (Viewer.signatures st) ->
                    status sig <> pending ->
                    In sig (Viewer.signatures st'))
    /\ (Field.field_status p = pending -> error = None ->
        Viewer.signatures st'
        = filter (fun sig => negb (String.eqb (id sig) (Field.field_id p)))
                 (Viewer.signatures st)
        /\ ~ In (Field.field_id p) (map (@id num) (Viewer.signatures st')))
    /\ (error <> None -> st' = st).
Proof.
  intros error p st Hin Hnd st'.
  destruct (overlay_origin st p Hin) as [sig0 [Hin0 [Hid0 [Hst0 _]]]].
  unfold Owner.press_delete, FieldView.delete_shown in *. cbn [andb] in *.
  split; [|split; [|split]].
  - intro Hs. destruct (Field.field_status p); try reflexivity. now elim Hs.
  - intros sig Hsig Hs. unfold st'.
    destruct (status_eqb (Field.field_status p) pending) eqn:E;
      [|exact Hsig].
    unfold Owner.handleDeleteSignature.
    destruct error; cbn [fst Viewer.signatures]; [exact Hsig|].
    apply filter_In. split; [exact Hsig|].
    apply negb_true_iff. apply String.eqb_neq. intro Hid.
    assert (sig = sig0)
      by (apply (@NoDup_id_unique _ sig sig0 Hnd Hsig Hin0); congruence).
    subst sig0. apply Hs. rewrite <- Hst0.
    destruct (Field.field_status p); try discriminate. reflexivity.
  - intros Hs ->. unfold st'. rewrite Hs. cbn [status_eqb fst].
    unfold Owner.handleDeleteSignature. cbn [fst Viewer.signatures].
    split; [reflexivity|].
    intro Hmem. apply in_map_iff in Hmem. destruct Hmem as [s [Hid Hs']].
    apply filter_In in Hs'. destruct Hs' as [_ Hneq].
    apply negb_true_iff in Hneq. apply String.eqb_neq in Hneq. contradiction.
  - intro Herr. unfold st'.
    destruct (status_eqb (Field.field_status p) pending); [|reflexivity].
    unfold Owner.handleDeleteSignature.
    destruct error; [reflexivity | now elim Herr].
Qed.

End DeleteFacts.

Lemma overlay_deletes_only_pending_witness :
  Viewer.signatures
    (fst (Owner.press_delete None (shown_field 80 100 150 50)%float
            {| Viewer.signatures :=
                 [pending_field 0.1 0.1 150 50;
                  Sample.field "f2" signed 1 (Some Sample.png)]%float;
               Viewer.currentPage := 1;
               Viewer.containerSize :=
                 {| Viewer.size_width := 800;
                    Viewer.size_height := 1000 |}%float |}))
  = [Sample.field "f2" signed 1 (Some Sample.png)].
Proof.
  destruct (@overlay_deletes_only_pending float _ None
              (shown_field 80 100 150 50)%float
              {| Viewer.signatures :=
                   [pending_field 0.1 0.1 150 50;
                    Sample.field "f2" signed 1 (Some Sample.png)]%float;
                 Viewer.currentPage := 1;
                 Viewer.containerSize :=
                   {| Viewer.size_width := 800;
                      Viewer.size_height := 1000 |}%float |})
    as [_ [_ [Hdel _]]].
  - left. reflexivity.
  - repeat constructor; cbn; intuition discriminate.
  - destruct (Hdel eq_refl eq_refl) as [E _]. rewrite E. reflexivity.
Defined.

(** ** The page a new field is put on *)

Lemma click_in_range (numPages currentPage : Z) (c : PdfViewer.Click) :
  1 <= currentPage ->
  1 <= PdfViewer.click numPages currentPage c
  /\ (currentPage <= numPages ->
      PdfViewer.click numPages currentPage c <= numPages)
  /\ (numPages <= 1 -> currentPage = 1 ->
      PdfViewer.click numPages currentPage c = 1).
Proof.
  intro Hlo. unfold PdfViewer.click, PdfViewer.prev_disabled,
    PdfViewer.next_disabled, PdfViewer.goToPrevPage, PdfViewer.goToNextPage.
  destruct c.
  - destruct (currentPage <=? 1) eqn:E;
      [apply Z.leb_le in E | apply Z.leb_gt in E]; lia.
  - destruct (numPages <=? currentPage) eqn:E;
      [apply Z.leb_le in E | apply Z.leb_gt in E]; lia.
Qed.

Lemma browse_in_range (numPages : Z) (cs : list PdfViewer.Click) :
  forall currentPage,
    1 <= currentPage ->
    1 <= PdfViewer.browse numPages currentPage cs
    /\ (currentPage <= numPages ->
        PdfViewer.browse numPages currentPage cs <= numPages)
    /\ (numPages <= 1 -> currentPage = 1 ->
        PdfViewer.browse numPages currentPage cs = 1).
Proof.
  unfold PdfViewer.browse.
  induction cs as [|c cs IH]; intros currentPage Hlo; cbn [fold_left];
    [lia|].
  destruct (click_in_range numPages c Hlo) as [H1 [H2 H3]].
  destruct (IH _ H1) as [I1 [I2 I3]].
  repeat split; auto.
Qed.

Section AddedField.

Context {num : Type} `{Number num} `{Owner.Literals num}.
Variable PDFImage : Type.
Variable embedPng : string -> option PDFImage.

(** X10.  The viewer starts on page 1 and its two buttons keep the page
    in view between 1 and the number of pages, however they are pressed
    (before the document has loaded, with 0 pages, they keep it at 1).  A
    signer added on the page in view gets a pending field without image on
    that page; the stamper passes it over while it is unsigned, and once
    it is signed with data that decodes, the stamper, on the document of
    that many pages, finds its page and hands the image to [drawImage] for
    that page, at the place computed on it: a field placed through the
    viewer is never skipped for its page.  The image is drawn unless
    [drawImage] refuses the place (a NaN among x, y, width and height),
    and then the loop throws. *)
Theorem added_field_is_stamped_once_signed :
  forall (pdfDoc : PDFDocument num PDFImage) (cs : list PdfViewer.Click)
         document_id signerEmail signerName error generated_id
         signatureData now row rest img,
    let numPages := Z.of_nat (List.length (getPages pdfDoc)) in
    let currentPage := PdfViewer.browse numPages 1 cs in
    Owner.handleAddSigner document_id currentPage signerEmail signerName error
    = Owner.InsertSignature row :: rest ->
    truthy_str signatureData = true ->
    embedPng signatureData = Some img ->
    let sig := Owner.stored generated_id row in
    1 <= currentPage
    /\ (1 <= numPages -> currentPage <= numPages)
    /\ status sig = pending
    /\ stamp_signature embedPng pdfDoc sig = inr pdfDoc
    /\ (1 <= numPages ->
        exists page,
          nth_error (getPages pdfDoc) (Z.to_nat (currentPage - 1)) = Some page
          /\ stamp_signature embedPng pdfDoc
                             (Signing.set_signed signatureData now sig)
             = if accepted (placement
                              (Signing.set_signed signatureData now sig) page)
               then
                 inr {| getPages :=
                          set_nth (Z.to_nat (currentPage - 1))
                                  (with_image page img
                                     (placement
                                        (Signing.set_signed signatureData now
                                                            sig)
                                        page))
                                  (getPages pdfDoc);
                        embedded := embedded pdfDoc ++ [img] |}
               else inl DrawError).
Proof.
  intros pdfDoc cs document_id signerEmail signerName error generated_id
         signatureData now row rest img numPages currentPage Hrow Ht He sig.
  unfold Owner.handleAddSigner in Hrow. injection Hrow as <- _.
  destruct (browse_in_range numPages cs (currentPage := 1)) as [Hlo [Hhi _]];
    [lia|].
  fold currentPage in Hlo, Hhi.
  split; [exact Hlo|]. split; [intro Hn; apply Hhi; exact Hn|].
  split; [reflexivity|]. split; [reflexivity|].
  intro Hn. specialize (Hhi Hn).
  destruct (@index_in_range _ (getPages pdfDoc) (currentPage - 1))
    as [page [Hi Hnth]]; [fold numPages; lia|].
  exists page. split; [exact Hnth|].
  apply stamp_signature_draws with (data := signatureData); auto.
Qed.

End AddedField.

Lemma added_field_is_stamped_once_signed_witness :
  exists page,
    nth_error (getPages Sample.pdf) 2 = Some page
    /\ stamp_signature Sample.embed Sample.pdf
         (Signing.set_signed Sample.png "2025-01-01T00:00:00.000Z"
            (Owner.stored "s9"
               {| Owner.new_document_id := "d1";
                  Owner.new_signer_email := "a@b.c";
                  Owner.new_signer_name := "A";
                  Owner.new_x_position := 0.1; Owner.new_y_position := 0.1;
                  Owner.new_page_number := 3;
                  Owner.new_width := 150; Owner.new_height := 50;
                  Owner.new_status := pending |}%float))
       = inr {| getPages :=
                  [letter_page 612 792; letter_page 612 792;
                   with_image (letter_page 612 792) Sample.png
                              {| opt_x := 61.2; opt_y := 662.8;
                                 opt_width := 150; opt_height := 50 |}]%float;
                embedded := [Sample.png] |}.
Proof.
  destruct (@added_field_is_stamped_once_signed
              float _ Owner.literals_binary64 string Sample.embed Sample.pdf
              [PdfViewer.Next; PdfViewer.Next; PdfViewer.Next; PdfViewer.Prev;
               PdfViewer.Next]
              "d1" "a@b.c" "A" None "s9" Sample.png
              "2025-01-01T00:00:00.000Z" _ _ Sample.png
              eq_refl eq_refl eq_refl)
    as [_ [_ [_ [_ Hdraw]]]].
  destruct Hdraw as [page [Hp Hs]]; [cbn; lia|].
  exists page. split; [exact Hp|].
  vm_compute in Hp. injection Hp as <-. vm_compute in Hs. exact Hs.
Defined.

(* ================================================================== *)
(** * Further properties of [SignatureCapture] *)
(* ================================================================== *)

(** Every unit of the string is white space. *)
Fixpoint blank (s : string) : bool :=
  match s with
  | EmptyString => true
  | String c r => is_white c && blank r
  end.

Lemma trim_start_blank (s : string) :
  trim_start s = "" <-> blank s = true.
Proof.
  induction s as [|c r IH]; cbn; [tauto|].
  destruct (is_white c); cbn; [exact IH|].
  split; discriminate.
Qed.

Lemma trim_end_black (c : ascii) (r : string) :
  is_white c = false -> trim_end (String c r) <> "".
Proof.
  intro Hc. cbn. destruct (trim_end r); [rewrite Hc|]; discriminate.
Qed.

Lemma trim_start_head (s : string) :
  match trim_start s with
  | EmptyString => True
  | String c _ => is_white c = false
  end.
Proof.
  induction s as [|c r IH]; cbn; [exact I|].
  destruct (is_white c) eqn:E; [exact IH | exact E].
Qed.

(** The trimmed string is empty exactly when the string is blank. *)
Lemma trim_blank (s : string) : trim s = "" <-> blank s = true.
Proof.
  unfold trim. rewrite <- trim_start_blank.
  pose proof (trim_start_head s) as Hh.
  destruct (trim_start s) as [|c r]; [tauto|].
  split; [|discriminate].
  intro E. exfalso. exact (@trim_end_black c r Hh E).
Qed.

Lemma truthy_trim (s : string) : truthy_str (trim s) = negb (blank s).
Proof.
  destruct (blank s) eqn:B.
  - apply trim_blank in B. rewrite B. reflexivity.
  - destruct (trim s) eqn:T; [|reflexivity].
    apply trim_blank in T. congruence.
Qed.

Section CaptureMore.

Variable Stroke : Type.
Variable toDataURL : list Stroke -> string.
Variable renderTyped : string -> option string.

(** X11.  After "Clear" a press on "Complete Signature" passes nothing
    on, in either mode and whatever the last render saw (the button may
    still look enabled): both inputs are empty again.  Signer name, signer
    email and mode are kept. *)
Theorem cleared_capture_completes_nothing :
  forall (s : Capture.State) (shown canvas : option (list Stroke)),
    let cleared := CaptureOps.clearSignature s canvas in
    Capture.complete toDataURL renderTyped (fst cleared) shown (snd cleared)
    = Capture.Nothing
    /\ Capture.hasSignature (fst cleared) (snd cleared) = false
    /\ Capture.signerName (fst cleared) = Capture.signerName s
    /\ Capture.signerEmail (fst cleared) = Capture.signerEmail s
    /\ Capture.signatureMode (fst cleared) = Capture.signatureMode s.
Proof.
  intros s shown canvas cleared.
  assert (Hh : Capture.handleComplete toDataURL renderTyped
                 (fst cleared) (snd cleared) = Capture.Nothing).
  { unfold cleared, CaptureOps.clearSignature, Capture.handleComplete.
    cbn [fst snd Capture.signatureMode Capture.typedSignature].
    destruct (Capture.signatureMode s), canvas; reflexivity. }
  split; [|split].
  - unfold Capture.complete. rewrite Hh.
    destruct (Capture.disabled _ _); reflexivity.
  - unfold cleared, CaptureOps.clearSignature, Capture.hasSignature.
    cbn [fst snd Capture.signatureMode Capture.typedSignature].
    destruct (Capture.signatureMode s), canvas; reflexivity.
  - auto.
Qed.

(** X12.  In typed mode a press on "Complete Signature" passes an image
    on exactly when the typed text, the signer name and the signer email
    each hold a unit that is not white space and the text renders to a
    data URL that is not empty; the image is that of the text as typed,
    blanks at its ends included.  Neither the canvas nor what the last
    render saw of it matters. *)
Theorem typed_signature_completes_iff :
  forall (s : Capture.State) (shown canvas : option (list Stroke)) url,
    Capture.signatureMode s = Capture.type ->
    (Capture.complete toDataURL renderTyped s shown canvas
     = Capture.Completed url
     <-> blank (Capture.typedSignature s) = false
         /\ blank (Capture.signerName s) = false
         /\ blank (Capture.signerEmail s) = false
         /\ renderTyped (Capture.typedSignature s) = Some url
         /\ url <> "").
Proof.
  intros s shown canvas url Hmode.
  unfold Capture.complete, Capture.disabled, Capture.hasSignature,
    Capture.handleComplete.
  rewrite Hmode, !truthy_trim.
  assert (Hlen : (0 <? String.length (trim (Capture.typedSignature s)))%nat
                 = negb (blank (Capture.typedSignature s))).
  { rewrite <- truthy_trim.
    destruct (trim (Capture.typedSignature s)); reflexivity. }
  rewrite Hlen, !negb_involutive.
  destruct (blank (Capture.typedSignature s)); cbn [negb orb].
  - split; [discriminate | intros [? _]; discriminate].
  - destruct (blank (Capture.signerName s)); cbn [negb orb].
    + split; [discriminate | intros [_ [? _]]; discriminate].
    + destruct (blank (Capture.signerEmail s)); cbn [negb orb].
      * split; [discriminate | intros [_ [_ [? _]]]; discriminate].
      * destruct (renderTyped (Capture.typedSignature s)) as [u|].
        -- destruct (truthy_str u) eqn:U; cbn [negb].
           ++ apply truthy_str_iff in U. split.
              ** intro E. injection E as <-. auto.
              ** intros [_ [_ [_ [E _]]]]. injection E as <-. reflexivity.
           ++ split; [discriminate|].
              intros [_ [_ [_ [E Hne]]]]. injection E as <-.
              destruct u; [now elim Hne | discriminate].
        -- cbn. split; [discriminate|].
           intros [_ [_ [_ [E _]]]]. discriminate.
Qed.

End CaptureMore.

Lemma typed_signature_completes_iff_witness :
  Capture.complete Pad.toDataURL Pad.renderTyped
    (Pad.state "Ann" "ann@x.org" Capture.type " Ann B ") None (Some [1%nat])
  = Capture.Completed "data:image/png;base64, Ann B ".
Proof.
  apply (@typed_signature_completes_iff nat Pad.toDataURL Pad.renderTyped
           (Pad.state "Ann" "ann@x.org" Capture.type " Ann B ")
           None (Some [1%nat]) _ eq_refl).
  repeat split. discriminate.
Defined.

(* ================================================================== *)
(** * Further properties of [SignDocument] *)
(* ================================================================== *)

(** ** A page with nothing left to do *)

Section InertPage.

Context {num : Type}.

(** While the capture dialog is open for a field, some field of the page
    is unsigned and none is rejected. *)
Definition quiet (w : Signing.World num) : Prop :=
  match Signing.page w with
  | Some st =>
      Signing.currentSignatureId st <> None ->
      Signing.allSigned st = false /\ Signing.hasRejected st = false
  | None => True
  end.

Lemma step_quiet (w : Signing.World num) (a : Signing.Action) :
  quiet w -> quiet (Signing.step w a).
Proof.
  intro Hq. unfold Signing.step.
  destruct (Signing.page w) as [st|] eqn:Hp; [|exact Hq].
  destruct a as [i | data now error | | error].
  - destruct (existsb _ _) eqn:Hex; [|exact Hq].
    unfold quiet. cbn. intros _.
    apply existsb_exists in Hex. destruct Hex as [s [_ Hb]].
    apply andb_prop in Hb. destruct Hb as [_ Hshown].
    unfold Signing.sign_here_shown in Hshown.
    apply andb_prop in Hshown. destruct Hshown as [Hshown _].
    apply andb_prop in Hshown. destruct Hshown as [Hshown Hr].
    apply andb_prop in Hshown. destruct Hshown as [_ Ha].
    apply negb_true_iff in Ha, Hr. auto.
  - destruct (Signing.capture_shown st); [|exact Hq].
    unfold Signing.handleSignatureComplete.
    destruct (Signing.currentSignatureId st) as [cur|]; [|exact Hq].
    destruct (Signing.documentShare st); [|exact Hq].
    destruct (negb (truthy_str cur)); [exact Hq|].
    destruct error; [exact Hq|].
    unfold quiet. cbn. intro Hc. now elim Hc.
  - destruct (Signing.capture_shown st); [|exact Hq].
    unfold quiet. cbn. intro Hc. now elim Hc.
  - destruct (Signing.reject_shown st); [|exact Hq].
    unfold Signing.handleRejectDocument.
    destruct (Signing.documentShare st); [|exact Hq].
    destruct error; [exact Hq|]. exact I.
Qed.

Lemma run_quiet (l : list Signing.Action) :
  forall w : Signing.World num, quiet w -> quiet (Signing.run w l).
Proof.
  unfold Signing.run. induction l as [|a l IH]; intros w Hw; [exact Hw|].
  cbn. apply IH. now apply step_quiet.
Qed.

(** X13.  Once every field on the signer's page is signed, or one of them
    is rejected, the page offers nothing any more: whatever the signer
    does, no row of the table and nothing on the page changes.  So a
    signer who has signed all fields cannot reject them afterwards, and a
    rejected document cannot be signed.  A signer with no field on the
    document is in the same position from the start. *)
Theorem finished_page_is_inert :
  forall (share : Signing.DocumentShare) (tbl : list (Signature num))
         (done : list Signing.Action) (a : Signing.Action) st,
    let w := Signing.run (Signing.loaded share tbl) done in
    Signing.page w = Some st ->
    Signing.allSigned st = true \/ Signing.hasRejected st = true
    \/ Signing.signatures st = [] ->
    Signing.step w a = w.
Proof.
  intros share tbl done a st w Hp Hfin.
  assert (Hq : quiet w).
  { apply run_quiet. cbn. intro Hc. now elim Hc. }
  assert (Hfin' : Signing.allSigned st = true \/ Signing.hasRejected st = true).
  { destruct Hfin as [Ha|[Hr|Hnil]]; auto.
    left. unfold Signing.allSigned. now rewrite Hnil. }
  assert (Hcur : Signing.currentSignatureId st = None).
  { unfold quiet in Hq. rewrite Hp in Hq.
    destruct (Signing.currentSignatureId st); [|reflexivity].
    destruct Hq as [Ha Hr]; [discriminate|].
    destruct Hfin' as [Ha'|Hr']; congruence. }
  assert (Hgate : negb (Signing.allSigned st) && negb (Signing.hasRejected st)
                  = false).
  { destruct Hfin' as [-> | ->]; cbn; [reflexivity | apply andb_false_r]. }
  unfold Signing.step. rewrite Hp.
  destruct a as [i | data now error | | error].
  - assert (Hex : existsb (fun sig => String.eqb (id sig) i
                                      && Signing.sign_here_shown st sig)
                          (Signing.signatures st) = false).
    { apply not_true_is_false. intro Hex.
      apply existsb_exists in Hex. destruct Hex as [s [_ Hb]].
      apply andb_prop in Hb. destruct Hb as [_ Hshown].
      unfold Signing.sign_here_shown in Hshown.
      rewrite <- !andb_assoc in Hshown.
      apply andb_prop in Hshown. destruct Hshown as [_ Hshown].
      apply andb_prop in Hshown. destruct Hshown as [_ Hshown].
      rewrite andb_assoc, Hgate in Hshown. discriminate. }
    rewrite Hex. reflexivity.
  - unfold Signing.capture_shown. rewrite Hcur. cbn [truthy_opt].
    rewrite andb_false_r. reflexivity.
  - unfold Signing.capture_shown. rewrite Hcur. cbn [truthy_opt].
    rewrite andb_false_r. reflexivity.
  - unfold Signing.reject_shown. rewrite <- andb_assoc, Hgate, andb_false_r.
    reflexivity.
Qed.

End InertPage.

Lemma finished_page_is_inert_witness :
  Signing.step
    (Signing.run (Signing.loaded share_a two_fields)
       [Signing.SignHere "A"; Signing.Complete Sample.png "t1" None;
        Signing.SignHere "B"; Signing.Complete Sample.png "t2" None])
    (Signing.Reject None)
  = Signing.run (Signing.loaded share_a two_fields)
      [Signing.SignHere "A"; Signing.Complete Sample.png "t1" None;
       Signing.SignHere "B"; Signing.Complete Sample.png "t2" None].
Proof.
  eapply (@finished_page_is_inert float share_a two_fields).
  - vm_compute. reflexivity.
  - left. reflexivity.
Defined.

(** ** The life of a signing link *)

Section LinkFacts.

Context {num : Type}.

Variable tok : string.
Variable shares0 : list Link.ShareRow.

(** The visit keeps the tokens of the shares, and the page keeps the share
    of the row with the token of the link. *)
Definition bound (s : Link.Site num) : Prop :=
  map Link.token (Link.shares s) = map Link.token shares0
  /\ forall st, Signing.page (Link.world s) = Some st ->
                exists r, In r (Link.shares s) /\ Link.token r = tok
                          /\ Signing.documentShare st = Some (Link.share r).

Lemma filter_token (l : list Link.ShareRow) (r : Link.ShareRow) :
  NoDup (map Link.token l) -> In r l ->
  filter (fun x => String.eqb (Link.token x) (Link.token r)) l = [r].
Proof.
  induction l as [|t l IH]; [contradiction|].
  cbn. intros Hnd Hin. inversion Hnd as [|? ? Hnot Hnd']; subst.
  destruct Hin as [->|Hin].
  - rewrite String.eqb_refl. f_equal.
    clear IH Hnd. induction l as [|u l IHl]; [reflexivity|].
    cbn. cbn in Hnot. inversion Hnd' as [|? ? Hnot' Hnd'']; subst.
    destruct (String.eqb (Link.token u) (Link.token r)) eqn:E.
    + apply String.eqb_eq in E. exfalso. apply Hnot. left. exact E.
    + apply IHl; auto.
  - destruct (String.eqb (Link.token t) (Link.token r)) eqn:E.
    + apply String.eqb_eq in E. exfalso. apply Hnot. rewrite E.
      now apply in_map.
    + now apply IH.
Qed.

Lemma loaded_bound now sigError tbl w :
  NoDup (map Link.token shares0) ->
  Link.loadDocumentShare tok now sigError shares0 tbl = inr w ->
  bound {| Link.world := w; Link.shares := shares0 |}.
Proof.
  intros Hnd. unfold Link.loadDocumentShare.
  destruct (filter _ shares0) as [|r [|? ?]] eqn:F; try discriminate.
  assert (Hin : In r (filter (fun r => String.eqb (Link.token r) tok) shares0))
    by (rewrite F; now left).
  apply filter_In in Hin. destruct Hin as [Hin Htok].
  apply String.eqb_eq in Htok.
  destruct (Link.expires_at r <? now)%N; [discriminate|].
  destruct (truthy_opt (Link.used_at r)); [discriminate|].
  destruct sigError; [discriminate|].
  intro E. injection E as <-. split; [reflexivity|].
  cbn. intros st Hst. injection Hst as <-. exists r. cbn. auto.
Qed.

Lemma step_share (w : Signing.World num) (a : Signing.Action) st' :
  Signing.page (Signing.step w a) = Some st' ->
  exists st, Signing.page w = Some st
             /\ Signing.documentShare st' = Signing.documentShare st.
Proof.
  unfold Signing.step.
  destruct (Signing.page w) as [st|] eqn:Hp; [|congruence].
  intro H'. exists st. split; [reflexivity|].
  destruct a as [i | data now error | | error].
  - destruct (existsb _ _); cbn in H'; [|congruence].
    injection H' as <-. reflexivity.
  - destruct (Signing.capture_shown st); [|congruence].
    unfold Signing.handleSignatureComplete in H'.
    destruct (Signing.currentSignatureId st) as [cur|]; [|congruence].
    destruct (Signing.documentShare st) eqn:D; [|congruence].
    destruct (negb (truthy_str cur)); [congruence|].
    destruct error; [congruence|].
    cbn in H'. injection H' as <-. cbn. congruence.
  - destruct (Signing.capture_shown st); cbn in H'; [|congruence].
    injection H' as <-. reflexivity.
  - destruct (Signing.reject_shown st); [|congruence].
    unfold Signing.handleRejectDocument in H'.
    destruct (Signing.documentShare st) eqn:D; [|congruence].
    destruct error; [congruence | discriminate].
Qed.

Lemma mark_used_token stamp i (l : list Link.ShareRow) :
  map Link.token (Link.mark_used stamp i l) = map Link.token l.
Proof.
  unfold Link.mark_used. rewrite map_map. apply map_ext.
  intro r. destruct (String.eqb _ _); reflexivity.
Qed.

Lemma mark_used_keeps stamp i (l : list Link.ShareRow) (r : Link.ShareRow) :
  In r l ->
  exists r', In r' (Link.mark_used stamp i l)
             /\ Link.token r' = Link.token r
             /\ Link.share r' = Link.share r
             /\ (Signing.share_id (Link.share r) = i ->
                 Link.used_at r' = Some stamp).
Proof.
  intro Hin. unfold Link.mark_used.
  eexists. split; [apply in_map; exact Hin|].
  destruct (String.eqb (Signing.share_id (Link.share r)) i) eqn:E; cbn.
  - auto.
  - apply String.eqb_neq in E. repeat split; auto. intro. contradiction.
Qed.

Lemma shares_after_cases stamp accepted (w : Signing.World num) a l :
  Link.shares_after stamp accepted w a l = l
  \/ exists st documentShare,
       Signing.page w = Some st
       /\ Signing.documentShare st = Some documentShare
       /\ Link.shares_after stamp accepted w a l
          = Link.mark_used stamp (Signing.share_id documentShare) l.
Proof.
  unfold Link.shares_after.
  destruct (Signing.page w) as [st|]; [|now left].
  destruct a as [i | data now error | | error]; try now left.
  - destruct (Signing.capture_shown st); [|now left].
    destruct (Signing.currentSignatureId st) as [cur|]; [|now left].
    destruct (Signing.documentShare st) as [d|] eqn:D; [|now left].
    destruct (negb (truthy_str cur)); [now left|].
    destruct error; [now left|].
    cbn zeta. destruct (_ && _); [|now left].
    right. exists st, d. auto.
  - destruct (Signing.reject_shown st); [|now left].
    destruct (Signing.documentShare st) as [d|] eqn:D; [|now left].
    destruct error; [now left|].
    destruct accepted; [|now left].
    right. exists st, d. auto.
Qed.

Lemma act_bound stamp accepted (s : Link.Site num) (a : Signing.Action) :
  bound s -> bound (Link.act stamp accepted s a).
Proof.
  intros [Htok Hrow]. unfold Link.act, bound. cbn [Link.world Link.shares].
  destruct (shares_after_cases stamp accepted (Link.world s) a (Link.shares s))
    as [E|[st0 [d [Hp0 [Hd0 E]]]]]; rewrite E.
  - split; [exact Htok|].
    intros st' Hst'. destruct (step_share _ _ Hst') as [st [Hst Hd]].
    destruct (Hrow st Hst) as [r [Hin [Ht Hs]]].
    exists r. repeat split; auto. congruence.
  - split; [now rewrite mark_used_token|].
    intros st' Hst'. destruct (step_share _ _ Hst') as [st [Hst Hd]].
    destruct (Hrow st Hst) as [r [Hin [Ht Hs]]].
    destruct (mark_used_keeps stamp (Signing.share_id d) _ _ Hin)
      as [r' [Hin' [Ht' [Hs' _]]]].
    exists r'. repeat split; auto; congruence.
Qed.

Lemma visit_bound stamp accepted (l : list Signing.Action) :
  forall s : Link.Site num, bound s -> bound (Link.visit stamp accepted s l).
Proof.
  unfold Link.visit. induction l as [|a l IH]; intros s Hs; [exact Hs|].
  cbn. apply IH. now apply act_bound.
Qed.

(** A share marked used, under unique tokens, refuses every later load. *)
Lemma used_link_refused (l : list Link.ShareRow) (r : Link.ShareRow) stamp
    now sigError (tbl : list (Signature num)) :
  NoDup (map Link.token l) -> In r l -> Link.used_at r = Some stamp ->
  truthy_str stamp = true ->
  Link.loadDocumentShare (Link.token r) now sigError l tbl = inl Link.Used
  \/ Link.loadDocumentShare (Link.token r) now sigError l tbl
     = inl Link.Expired.
Proof.
  intros Hnd Hin Hused Hstamp. unfold Link.loadDocumentShare.
  rewrite (filter_token _ _ Hnd Hin).
  destruct (Link.expires_at r <? now)%N; [now right|].
  rewrite Hused. cbn. rewrite Hstamp. now left.
Qed.

Lemma unaccepted_keeps_shares stamp (l : list Signing.Action) :
  forall s : Link.Site num,
    Link.shares (Link.visit stamp false s l) = Link.shares s.
Proof.
  unfold Link.visit. induction l as [|a l IH]; intro s; [reflexivity|].
  cbn [fold_left]. rewrite IH. unfold Link.act. cbn [Link.shares].
  unfold Link.shares_after.
  destruct (Signing.page (Link.world s)) as [st|]; [|reflexivity].
  destruct a as [i | data now error | | error]; try reflexivity.
  - destruct (Signing.capture_shown st); [|reflexivity].
    destruct (Signing.currentSignatureId st) as [cur|]; [|reflexivity].
    destruct (Signing.documentShare st); [|reflexivity].
    destruct (negb (truthy_str cur)); [reflexivity|].
    destruct error; [reflexivity|].
    cbn zeta. now rewrite andb_false_r.
  - destruct (Signing.reject_shown st); [|reflexivity].
    destruct (Signing.documentShare st); [|reflexivity].
    now destruct error.
Qed.

(** X14 (SignDocument.tsx, loadDocumentShare and handleRejectDocument):
    a link is opened, the signer acts on the page and, while "Reject
    Document" is on the page, rejects, the update of the signatures being
    accepted.  The page is left.  Where the update of the share is
    accepted too and tokens are unique, the link is refused from then on,
    at any time and whatever the signatures: as used, or as expired.
    Where that update is not accepted (its result is not looked at), the
    shares are what they were when the link was opened. *)
Theorem rejection_uses_up_link (tbl : list (Signature num)) (now0 : N)
    (w0 : Signing.World num) (stamp : string) (accepted : bool)
    (done : list Signing.Action) (st : Signing.State num) :
  NoDup (map Link.token shares0) ->
  truthy_str stamp = true ->
  Link.loadDocumentShare tok now0 None shares0 tbl = inr w0 ->
  let site := Link.visit stamp accepted
                {| Link.world := w0; Link.shares := shares0 |} done in
  Signing.page (Link.world site) = Some st ->
  Signing.reject_shown st = true ->
  let site' := Link.act stamp accepted site (Signing.Reject None) in
  Signing.page (Link.world site') = None
  /\ (accepted = true ->
      forall now1 sigError (tbl1 : list (Signature num)),
        Link.loadDocumentShare tok now1 sigError (Link.shares site') tbl1
          = inl Link.Used
        \/ Link.loadDocumentShare tok now1 sigError (Link.shares site') tbl1
           = inl Link.Expired)
  /\ (accepted = false -> Link.shares site' = shares0).
Proof.
  intros Hnd Hstamp Hload site Hpage Hshown site'.
  pose proof (visit_bound stamp accepted done
                (loaded_bound _ _ _ Hnd Hload)) as [Htok Hrow].
  fold site in Htok, Hrow.
  destruct (Hrow st Hpage) as [r [Hin [Ht Hs]]].
  assert (Hstep : Signing.page (Link.world site') = None).
  { unfold site', Link.act. cbn [Link.world]. unfold Signing.step.
    rewrite Hpage, Hshown. unfold Signing.handleRejectDocument.
    now rewrite Hs. }
  split; [exact Hstep|]. split.
  - intros -> now1 sigError tbl1.
    assert (E : Link.shares site'
                = Link.mark_used stamp (Signing.share_id (Link.share r))
                                 (Link.shares site)).
    { unfold site', Link.act. cbn [Link.shares]. unfold Link.shares_after.
      now rewrite Hpage, Hshown, Hs. }
    destruct (mark_used_keeps stamp (Signing.share_id (Link.share r)) _ _ Hin)
      as [r' [Hin' [Ht' [_ Hused]]]].
    rewrite E, <- Ht, <- Ht'.
    apply used_link_refused with (stamp := stamp); auto.
    now rewrite mark_used_token, Htok.
  - intros ->. unfold site', Link.act. cbn [Link.shares].
    change (Link.shares (Link.visit stamp false site [Signing.Reject None])
            = shares0).
    unfold site. rewrite !unaccepted_keeps_shares. reflexivity.
Qed.

End LinkFacts.

(** Two links: that of signer a@b.c, and one of somebody else. *)
Definition two_links : list Link.ShareRow :=
  [{| Link.share := share_a; Link.token := "tok-a";
      Link.expires_at := 2000; Link.used_at := None |};
   {| Link.share :=
        {| Signing.share_id := "s2"; Signing.share_document_id := "d1";
           Signing.share_signer_email := "x@y.z" |};
      Link.token := "tok-x";
      Link.expires_at := 2000; Link.used_at := None |}].

Lemma two_links_NoDup : NoDup (map Link.token two_links).
Proof.
  repeat constructor; cbn; intuition discriminate.
Qed.

Lemma rejection_uses_up_link_witness :
  let site :=
    Link.visit "2026-01-01T00:00:00.000Z" true
      {| Link.world := Signing.loaded share_a two_fields;
         Link.shares := two_links |}
      [Signing.SignHere "A"; Signing.Complete Sample.png "t1" None;
       Signing.Reject None] in
  Signing.page (Link.world site) = None
  /\ (Link.loadDocumentShare "tok-a" 1500 None (Link.shares site) two_fields
        = inl Link.Used
      \/ Link.loadDocumentShare "tok-a" 1500 None (Link.shares site) two_fields
         = inl Link.Expired).
Proof.
  cbn zeta.
  edestruct (@rejection_uses_up_link float "tok-a" two_links two_fields 1000
               (Signing.loaded share_a two_fields)
               "2026-01-01T00:00:00.000Z" true
               [Signing.SignHere "A"; Signing.Complete Sample.png "t1" None])
    as [Hpage [Hused _]].
  - exact two_links_NoDup.
  - reflexivity.
  - reflexivity.
  - vm_compute. reflexivity.
  - vm_compute. reflexivity.
  - split; [exact Hpage|]. exact (Hused eq_refl 1500%N None two_fields).
Defined.

(** ** What the page of [SignDocument] can write *)

Section SignDocumentFacts.

Context {num : Type}.
Variable Stroke : Type.
Variable toDataURL : list Stroke -> string.
Variable renderTyped : string -> option string.
Variable stamp : string.
Variable accepted : bool.
Variable tbl : list (Signature num).
Variable shares0 : list Link.ShareRow.

Local Abbreviation step := (SignDocument.step toDataURL renderTyped stamp accepted).

(** Nothing written yet, or the page left by a rejection. *)
Definition untouched (p : SignDocument.Page num) : Prop :=
  Capture.signerName (SignDocument.dialog p) = EmptyString
  /\ Capture.signerEmail (SignDocument.dialog p) = EmptyString
  /\ ((Signing.table (Link.world (SignDocument.site p)) = tbl
       /\ Link.shares (SignDocument.site p) = shares0)
      \/ (Signing.page (Link.world (SignDocument.site p)) = None
          /\ forall sig,
               In sig (Signing.table (Link.world (SignDocument.site p))) ->
               status sig = signed -> In sig tbl)).

Lemma unnamed_never_completes (s : Capture.State)
    (shown canvas : option (list Stroke)) :
  Capture.signerName s = EmptyString ->
  Capture.complete toDataURL renderTyped s shown canvas = Capture.Nothing.
Proof.
  intro Hn. unfold Capture.complete, Capture.disabled. rewrite Hn. cbn.
  rewrite orb_true_r. reflexivity.
Qed.

Lemma on_site_untouched (p : SignDocument.Page num) (a : Signing.Action) :
  (forall data now error, a <> Signing.Complete data now error) ->
  untouched p -> untouched (SignDocument.on_site stamp accepted p a).
Proof.
  intros Ha [Hn [He Ht]]. unfold untouched, SignDocument.on_site.
  cbn [SignDocument.dialog SignDocument.site].
  split; [destruct (SignDocument.capture_open p); [exact Hn | reflexivity]|].
  split; [destruct (SignDocument.capture_open p); [exact He | reflexivity]|].
  unfold Link.act. cbn [Link.world Link.shares].
  unfold Signing.step, Link.shares_after.
  destruct (Signing.page (Link.world (SignDocument.site p))) as [st|] eqn:Ep;
    [|rewrite Ep; exact Ht].
  destruct Ht as [[Ht Hs]|[Hp _]]; [|discriminate].
  destruct a as [i | data now error | | error].
  - left. split; [|exact Hs].
    destruct (existsb _ _); exact Ht.
  - now elim (Ha data now error).
  - left. split; [|exact Hs].
    destruct (Signing.capture_shown st); exact Ht.
  - destruct (Signing.reject_shown st); [|left; now split].
    unfold Signing.handleRejectDocument.
    destruct (Signing.documentShare st) as [share|]; [|left; now split].
    destruct error; [left; now split|].
    right. cbn [Signing.page Signing.table]. split; [reflexivity|].
    intros sig Hin Hsig. rewrite Ht in Hin.
    apply in_map_iff in Hin. destruct Hin as [s [Hs' Hin]].
    destruct (_ && _) in Hs'; subst sig; [discriminate | exact Hin].
Qed.

Lemma step_untouched (p : SignDocument.Page num) (a : SignDocument.Action Stroke) :
  untouched p -> untouched (step p a).
Proof.
  intro Hp. destruct a as [i | e | shown canvas now error | | error];
    cbn [SignDocument.step].
  - apply on_site_untouched; [discriminate | exact Hp].
  - destruct (SignDocument.capture_open p); [|exact Hp].
    destruct Hp as [Hn [He Ht]]. unfold untouched.
    cbn [SignDocument.dialog SignDocument.site].
    destruct e; cbn; auto.
  - destruct (SignDocument.capture_open p); [|exact Hp].
    rewrite unnamed_never_completes; [exact Hp | apply Hp].
  - apply on_site_untouched; [discriminate | exact Hp].
  - apply on_site_untouched; [discriminate | exact Hp].
Qed.

Lemma run_untouched (l : list (SignDocument.Action Stroke)) :
  forall p : SignDocument.Page num,
    untouched p ->
    untouched (SignDocument.run toDataURL renderTyped stamp accepted p l).
Proof.
  unfold SignDocument.run.
  induction l as [|a l IH]; intros p Hp; [exact Hp|].
  cbn [fold_left]. apply IH. now apply step_untouched.
Qed.

(** X15 (SignDocument.tsx with SignatureCapture.tsx): the page mounts the
    capture dialog without a signer name and email, and their inputs are
    read-only.  So whatever the signer does once the link has let them in,
    "Complete Signature" stays disabled: a press passes nothing to the
    page, whatever is drawn or typed.  While the page is open neither the
    signatures nor the shares are written to, and a signed row found in
    the table after the visit is a row that was there, as it is, when the
    link was opened: through this page a field is never signed, and a link
    is only used up by a rejection. *)
Theorem sign_document_never_signs (share : Signing.DocumentShare)
    (l : list (SignDocument.Action Stroke)) :
  let final := SignDocument.run toDataURL renderTyped stamp accepted
                 (SignDocument.opened share tbl shares0) l in
  (forall shown canvas : option (list Stroke),
      Capture.complete toDataURL renderTyped (SignDocument.dialog final)
                       shown canvas
      = Capture.Nothing)
  /\ (Signing.page (Link.world (SignDocument.site final)) <> None ->
      Signing.table (Link.world (SignDocument.site final)) = tbl
      /\ Link.shares (SignDocument.site final) = shares0)
  /\ (forall sig,
         In sig (Signing.table (Link.world (SignDocument.site final))) ->
         status sig = signed -> In sig tbl).
Proof.
  intro final.
  assert (H : untouched final).
  { apply run_untouched. unfold untouched. cbn. auto. }
  destruct H as [Hn [He Ht]].
  split; [intros; now apply unnamed_never_completes|].
  split.
  - intro Hopen. destruct Ht as [Ht|[Hp _]]; [exact Ht | contradiction].
  - intros sig Hin Hsig. destruct Ht as [[Ht _]|[_ Ht]].
    + now rewrite <- Ht.
    + now apply Ht.
Qed.

End SignDocumentFacts.

(** A visit: the signer opens the dialog of field A, types a name and
    presses "Complete Signature".  The dialog stays open and nothing is
    written.  Had the dialog called [onComplete], the handler would have
    signed the field. *)
Example sign_document_sample :
  let visit :=
    [SignDocument.SignHere "A";
     SignDocument.InDialog (SignDocument.SetMode Capture.type);
     SignDocument.InDialog (SignDocument.Typed "Ann");
     SignDocument.PressComplete (@None (list nat)) None "t1" None] in
  let final :=
    SignDocument.run Pad.toDataURL Pad.renderTyped
                     "2026-01-01T00:00:00.000Z" true
                     (SignDocument.opened share_a two_fields two_links)
                     visit in
  SignDocument.capture_open final = true
  /\ Capture.typedSignature (SignDocument.dialog final) = "Ann"
  /\ Signing.table (Link.world (SignDocument.site final)) = two_fields
  /\ Link.shares (SignDocument.site final) = two_links
  /\ Signing.status_of "A"
       (Signing.table
          (Signing.run (Signing.loaded share_a two_fields)
                       [Signing.SignHere "A";
                        Signing.Complete "data:image/png;base64,Ann" "t1"
                                         None]))
     = Some signed.
Proof. vm_compute. repeat split. Qed.

(** ** Sharing a document *)

Section ShareFacts.

Context {num : Type}.

(** X16 (DocumentViewer generateSigningLink and handleShare; Dashboard
    handleShare): whenever one of the two share buttons writes a link to
    the clipboard, the link is the origin, "/sign/" and the token, and
    before it the share with this token was inserted, and accepted, for
    the document and the e-mail of one of its signature fields: the
    first field in the viewer, whatever its status; the first pending
    field on the dashboard.  The viewer first moves a draft to pending;
    the dashboard never updates the document. *)
Theorem copied_link_was_stored (document_id : string)
    (document_status : DocStatus.t) (signatures : list (Signature num))
    (token expiresAt origin : string)
    (updateError shareError auditError clipboardError : option string)
    (size : Viewer.Size num) (page : Z) :
  let st := {| Viewer.signatures := signatures;
               Viewer.currentPage := page;
               Viewer.containerSize := size |} in
  let viewer := Owner.handleShare document_id document_status
                  token expiresAt origin
                  updateError shareError auditError clipboardError st in
  let dashboard := Owner.dashboard_handleShare document_id (Some signatures)
                     token expiresAt origin shareError clipboardError in
  (forall text, In (Owner.ClipboardWrite text) viewer ->
     text = (origin ++ "/sign/" ++ token)%string
     /\ shareError = None /\ auditError = None
     /\ (exists sig rest before after,
           signatures = sig :: rest
           /\ viewer
              = before
                ++ Owner.InsertShare document_id (signer_email sig)
                                     token expiresAt
                :: Owner.InsertAudit document_id "signing_link_generated"
                                     (signer_email sig) (id sig)
                :: Owner.ClipboardWrite text :: after
           /\ (before = []
               \/ before = [Owner.UpdateDocumentStatus document_id
                                                       DocStatus.pending;
                            Owner.OnUpdate]
                  /\ document_status = DocStatus.draft
                  /\ updateError = None)
           /\ (document_status = DocStatus.draft -> before <> [])))
  /\ (forall text, In (Owner.ClipboardWrite text) dashboard ->
        text = (origin ++ "/sign/" ++ token)%string
        /\ shareError = None
        /\ exists sig after,
             find (fun s => status_eqb (status s) Model.pending) signatures
             = Some sig
             /\ dashboard
                = Owner.InsertShare document_id (signer_email sig)
                                    token expiresAt
                  :: Owner.ClipboardWrite text :: after)
  /\ (forall d s, ~ In (Owner.UpdateDocumentStatus d s) dashboard).
Proof.
  cbn zeta. split; [|split].
  - intros text. unfold Owner.handleShare. cbn [Viewer.signatures].
    destruct signatures as [|sig rest]; [cbn; intuition discriminate|].
    unfold Owner.generateSigningLink.
    destruct document_status, updateError, shareError, auditError,
             clipboardError; cbn;
      intro Hin;
      repeat match goal with
             | H : _ \/ _ |- _ => destruct H as [H|H]
             | H : False |- _ => contradiction
             | H : _ = _ |- _ => try discriminate H;
                                 injection H as <-
             end;
      (split; [reflexivity|]); (split; [reflexivity|]);
      (split; [reflexivity|]);
      exists sig, rest;
      first [ exists [];
              eexists; split; [reflexivity|]; split; [reflexivity|];
              split; [now left | intro; discriminate]
            | exists [Owner.UpdateDocumentStatus document_id DocStatus.pending;
                      Owner.OnUpdate];
              eexists; split; [reflexivity|]; split; [reflexivity|];
              split; [right; auto | intros _; discriminate] ].
  - intros text. unfold Owner.dashboard_handleShare.
    destruct signatures as [|sig0 rest0] eqn:Es;
      [cbn; intuition discriminate|]. rewrite <- Es.
    destruct (find _ signatures) as [sig|]; [|cbn; intuition discriminate].
    destruct shareError, clipboardError; cbn;
      intro Hin;
      repeat match goal with
             | H : _ \/ _ |- _ => destruct H as [H|H]
             | H : False |- _ => contradiction
             | H : _ = _ |- _ => try discriminate H;
                                 injection H as <-
             end;
      (split; [reflexivity|]); (split; [reflexivity|]);
      exists sig; eexists; split; reflexivity.
  - intros d s. unfold Owner.dashboard_handleShare.
    destruct signatures as [|sig0 rest0] eqn:Es;
      [cbn; intuition discriminate|]. rewrite <- Es.
    destruct (find _ signatures) as [sig|]; [|cbn; intuition discriminate].
    destruct shareError, clipboardError; cbn; intuition discriminate.
Qed.

End ShareFacts.

Lemma copied_link_was_stored_witness :
  In (Owner.ClipboardWrite "https://app.example/sign/t1")
     (Owner.handleShare "d1" DocStatus.draft "t1" "2026-02-01T00:00:00.000Z"
        "https://app.example" None None None None
        {| Viewer.signatures := one_signed; Viewer.currentPage := 1;
           Viewer.containerSize :=
             {| Viewer.size_width := 800%float;
                Viewer.size_height := 1000%float |} |})
  /\ "https://app.example/sign/t1"
     = ("https://app.example" ++ "/sign/" ++ "t1")%string
  /\ @None string = None.
Proof.
  assert (Hin : In (Owner.ClipboardWrite "https://app.example/sign/t1")
     (Owner.handleShare "d1" DocStatus.draft "t1" "2026-02-01T00:00:00.000Z"
        "https://app.example" None None None None
        {| Viewer.signatures := one_signed; Viewer.currentPage := 1;
           Viewer.containerSize :=
             {| Viewer.size_width := 800%float;
                Viewer.size_height := 1000%float |} |})).
  { cbn. auto 6. }
  split; [exact Hin|].
  destruct (proj1 (@copied_link_was_stored float "d1" DocStatus.draft
                     one_signed "t1" "2026-02-01T00:00:00.000Z"
                     "https://app.example" None None None None
                     {| Viewer.size_width := 800%float;
                        Viewer.size_height := 1000%float |} 1)
                  "https://app.example/sign/t1" Hin) as [Ht [Hs _]].
  split; [exact Ht | exact Hs].
Defined.

(* ================================================================== *)
(** * Properties of the signing page of a token *)
(* ================================================================== *)

Section SigningPageFacts.

Context {num : Type}.

Local Abbreviation Sig := (Signature num).

(** The page's copy and the table give the same status and signer to the
    same id; the field the capture dialog is open for is a pending field
    of the page, of the signer of the link. *)
Definition sound (email : option string) (w : SigningPage.World num) : Prop :=
  SigningPage.currentUserEmail (SigningPage.page w) = email
  /\ (forall s r, In s (SigningPage.signatures (SigningPage.page w)) ->
                  In r (SigningPage.table w) -> id r = id s ->
                  status r = status s /\ signer_email r = signer_email s)
  /\ (forall a, SigningPage.activeSignature (SigningPage.page w) = Some a ->
                In a (SigningPage.signatures (SigningPage.page w))
                /\ status a = pending
                /\ Some (signer_email a) = email).

(** A row before and after an action: as it was, or signed from pending
    for the signer of the link. *)
Definition signs_own (email : option string) (r r' : Sig) : Prop :=
  r' = r
  \/ (status r = pending /\ Some (signer_email r) = email
      /\ exists signatureData now, r' = Signing.set_signed signatureData now r).

Lemma Forall2_map_same (R : Sig -> Sig -> Prop) (g : Sig -> Sig)
    (l : list Sig) :
  (forall r, In r l -> R r (g r)) -> Forall2 R l (map g l).
Proof.
  induction l as [|r l IH]; intro Hall; cbn; constructor.
  - apply Hall. now left.
  - apply IH. intros r' Hin. apply Hall. now right.
Qed.

Lemma signs_own_same email (l : list Sig) : Forall2 (signs_own email) l l.
Proof.
  induction l; constructor; auto. now left.
Qed.

Lemma unique_row (tbl : list Sig) (r s : Sig) :
  NoDup (map (@id num) tbl) -> In r tbl -> In s tbl -> id r = id s -> r = s.
Proof.
  induction tbl as [|t tbl IH]; [contradiction|].
  cbn. intros Hnd Hr Hs Hid. inversion Hnd as [|? ? Hnot Hnd']; subst.
  destruct Hr as [->|Hr], Hs as [->|Hs]; auto.
  - exfalso. apply Hnot. rewrite Hid. now apply in_map.
  - exfalso. apply Hnot. rewrite <- Hid. now apply in_map.
Qed.

Lemma fetched_sound tok shares docs (tbl : list Sig) st :
  NoDup (map (@id num) tbl) ->
  SigningPage.fetchData tok None None None shares docs tbl = inr st ->
  sound (SigningPage.currentUserEmail st)
        {| SigningPage.table := tbl; SigningPage.documents := docs;
           SigningPage.page := st |}.
Proof.
  intros Hnd. unfold SigningPage.fetchData.
  destruct (SigningPage.single (filter _ shares)) as [shareData|];
    [|discriminate].
  destruct (SigningPage.single (filter _ docs)) as [docData|];
    [|discriminate].
  intro E. injection E as <-. cbn. split; [reflexivity|]. split.
  - intros s r Hs Hr Hid. apply filter_In in Hs. destruct Hs as [Hs _].
    cbn in Hr. assert (r = s) by (eapply unique_row; eauto). now subst.
  - discriminate.
Qed.

Lemma sound_on_page email (w : SigningPage.World num)
    (f : SigningPage.State num -> SigningPage.State num) :
  sound email w ->
  SigningPage.signatures (f (SigningPage.page w))
  = SigningPage.signatures (SigningPage.page w) ->
  SigningPage.currentUserEmail (f (SigningPage.page w))
  = SigningPage.currentUserEmail (SigningPage.page w) ->
  (forall a, SigningPage.activeSignature (f (SigningPage.page w)) = Some a ->
             SigningPage.activeSignature (SigningPage.page w) = Some a) ->
  sound email (SigningPage.on_page f w).
Proof.
  intros [Hmail [Hag Harm]] Hsig Hcur Hact. unfold sound. cbn.
  rewrite Hsig, Hcur. split; [exact Hmail|]. split; [exact Hag|].
  intros a Ha. apply Harm, Hact, Ha.
Qed.

Lemma step_sound email (w : SigningPage.World num) (a : SigningPage.Action) :
  sound email w -> sound email (SigningPage.step w a).
Proof.
  intros Hw. destruct a as [p | c | n | data now e acc |].
  - apply sound_on_page; auto.
  - apply sound_on_page; auto;
      unfold SigningPage.handlePageRenderSuccess; now destruct c.
  - cbn. destruct (nth_error _ n) as [sig|] eqn:En; [|exact Hw].
    unfold SigningPage.on_page, SigningPage.handleSignatureFieldClick.
    destruct (SigningPage.is_user (SigningPage.page w) sig
              && status_eqb (status sig) pending) eqn:Eg;
      [|exact Hw].
    destruct Hw as [Hmail [Hag Harm]].
    apply andb_prop in Eg. destruct Eg as [Hu Hp].
    unfold sound. cbn.
    split; [exact Hmail|]. split; [exact Hag|].
    intros a Ha. injection Ha as <-.
    apply nth_error_In in En. unfold SigningPage.fields_shown in En.
    destruct (SigningPage.isPageRendered _); [|contradiction].
    apply filter_In in En. destruct En as [Hin _].
    split; [exact Hin|]. split; [now destruct (status sig)|].
    unfold SigningPage.is_user in Hu. rewrite Hmail in Hu.
    destruct email as [m|]; [|discriminate].
    apply String.eqb_eq in Hu. now rewrite Hu.
  - cbn. unfold SigningPage.handleSignatureComplete.
    destruct (SigningPage.activeSignature (SigningPage.page w)) as [act|];
      [|exact Hw].
    destruct e; [exact Hw|].
    destruct Hw as [Hmail [Hag Harm]].
    unfold sound. cbn. split; [exact Hmail|]. split; [|discriminate].
    intros s' r' Hs' Hr' Hid.
    apply in_map_iff in Hs'. destruct Hs' as [s [<- Hs]].
    apply in_map_iff in Hr'. destruct Hr' as [r [<- Hr]].
    assert (Hid' : id r = id s).
    { destruct (String.eqb (id r) (id act)), (String.eqb (id s) (id act));
        exact Hid. }
    rewrite Hid'. destruct (Hag s r Hs Hr Hid') as [H1 H2].
    destruct (String.eqb (id s) (id act)); cbn; auto.
  - apply sound_on_page; auto. discriminate.
Qed.

Lemma run_sound email (l : list SigningPage.Action) :
  forall w : SigningPage.World num,
    sound email w -> sound email (SigningPage.run w l).
Proof.
  unfold SigningPage.run. induction l as [|a l IH]; intros w Hw; [exact Hw|].
  cbn. apply IH. now apply step_sound.
Qed.

(** X17 ([token].tsx, fetchData, handleSignatureFieldClick and
    handleSignatureComplete): the page of a token is opened over a table
    with unique ids and shows the fields of every signer of the
    document.  After any actions on it, one more action leaves every row
    of the table as it was, or signs it; it signs only rows that were
    pending and belong to the signer of the link.  No field of another
    signer, and no signed or rejected field, is written. *)
Theorem token_page_signs_only_own_pending (tok : string)
    (shares : list Link.ShareRow) (docs : list SigningPage.Document)
    (tbl : list Sig) (st : SigningPage.State num)
    (done : list SigningPage.Action) (a : SigningPage.Action) :
  NoDup (map (@id num) tbl) ->
  SigningPage.fetchData tok None None None shares docs tbl = inr st ->
  let w := SigningPage.run
             {| SigningPage.table := tbl; SigningPage.documents := docs;
                SigningPage.page := st |} done in
  Forall2 (signs_own (SigningPage.currentUserEmail st))
          (SigningPage.table w) (SigningPage.table (SigningPage.step w a)).
Proof.
  intros Hnd Hfetch w.
  assert (Hw : sound (SigningPage.currentUserEmail st) w)
    by (apply run_sound; eapply fetched_sound; eauto).
  destruct Hw as [Hmail [Hag Harm]].
  destruct a as [p | c | n | data now e acc |]; cbn;
    try apply signs_own_same.
  - destruct (nth_error _ n); apply signs_own_same.
  - unfold SigningPage.handleSignatureComplete.
    destruct (SigningPage.activeSignature (SigningPage.page w)) as [act|]
      eqn:Ea; [|apply signs_own_same].
    destruct e; [apply signs_own_same|].
    cbn [SigningPage.table]. apply Forall2_map_same. intros r Hr.
    destruct (String.eqb (id r) (id act)) eqn:E; [|now left].
    apply String.eqb_eq in E.
    destruct (Harm act eq_refl) as [Hin [Hp Hm]].
    destruct (Hag act r Hin Hr E) as [H1 H2].
    right. split; [congruence|]. split; [congruence|]. eauto.
Qed.

Lemma step_keeps_unsent (w : SigningPage.World num)
    (a : SigningPage.Action) :
  (forall d, SigningPage.document (SigningPage.page w) = Some d ->
             SigningPage.document_status d <> DocStatus.pending) ->
  SigningPage.documents (SigningPage.step w a) = SigningPage.documents w
  /\ SigningPage.document (SigningPage.page (SigningPage.step w a))
     = SigningPage.document (SigningPage.page w).
Proof.
  intro Hd. destruct a as [p | c | n | data now e acc |]; cbn; auto.
  - unfold SigningPage.handlePageRenderSuccess. now destruct c.
  - destruct (nth_error _ n); cbn; auto.
    unfold SigningPage.handleSignatureFieldClick.
    now destruct (_ && _).
  - unfold SigningPage.handleSignatureComplete.
    destruct (SigningPage.activeSignature _); auto.
    destruct e; auto.
    assert (Hc : forall l, SigningPage.completes (SigningPage.page w) l
                           = false).
    { intro l. unfold SigningPage.completes.
      destruct (SigningPage.document (SigningPage.page w)) as [d|];
        [|apply andb_false_r].
      specialize (Hd d eq_refl).
      destruct (SigningPage.document_status d); cbn;
        try apply andb_false_r. now elim Hd. }
    cbn. now rewrite Hc.
Qed.

(** X18 ([token].tsx, handleSignatureComplete and
    checkAndCompleteDocument): while the document of the page is not
    pending (a draft, as after sharing from the dashboard, a completed or
    a cancelled one), no action on the page changes table [documents] or
    the page's document, whatever is signed: a draft stays a draft when
    its last field is signed. *)
Theorem unsent_document_never_completes (w : SigningPage.World num)
    (l : list SigningPage.Action) :
  (forall d, SigningPage.document (SigningPage.page w) = Some d ->
             SigningPage.document_status d <> DocStatus.pending) ->
  SigningPage.documents (SigningPage.run w l) = SigningPage.documents w
  /\ SigningPage.document (SigningPage.page (SigningPage.run w l))
     = SigningPage.document (SigningPage.page w).
Proof.
  unfold SigningPage.run. revert w.
  induction l as [|a l IH]; intros w Hd; [auto|].
  cbn [fold_left].
  destruct (step_keeps_unsent w a Hd) as [H1 H2].
  destruct (IH (SigningPage.step w a)) as [H3 H4].
  - intros d Hsome. apply Hd. congruence.
  - split; congruence.
Qed.

(** X19 ([token].tsx, fetchData; SignDocument.tsx, loadDocumentShare):
    the page of a token looks at neither the expiry nor the use of the
    share.  For a token with one share, whose document is there, it
    opens whatever the time, with the e-mail of the share as signer and
    every field of the document; loadDocumentShare refuses the same
    token once it is expired, and else once it is used. *)
Theorem token_page_ignores_expiry_and_use (tok : string)
    (shares : list Link.ShareRow) (docs : list SigningPage.Document)
    (tbl : list Sig) (r : Link.ShareRow) (d : SigningPage.Document)
    (now : N) (sigError : option string) :
  filter (fun x => String.eqb (Link.token x) tok) shares = [r] ->
  filter (fun x => String.eqb (doc_id (SigningPage.row x))
                              (Signing.share_document_id (Link.share r)))
         docs = [d] ->
  (exists st,
     SigningPage.fetchData tok None None None shares docs tbl = inr st
     /\ SigningPage.currentUserEmail st
        = Some (Signing.share_signer_email (Link.share r))
     /\ SigningPage.document st = Some d
     /\ forall sig, In sig (SigningPage.signatures st)
                    <-> In sig tbl
                        /\ document_id sig
                           = Signing.share_document_id (Link.share r))
  /\ ((Link.expires_at r < now)%N ->
      Link.loadDocumentShare tok now sigError shares tbl = inl Link.Expired)
  /\ ((now <= Link.expires_at r)%N -> truthy_opt (Link.used_at r) = true ->
      Link.loadDocumentShare tok now sigError shares tbl = inl Link.Used).
Proof.
  intros Hs Hd. split; [|split].
  - unfold SigningPage.fetchData. rewrite Hs. cbn. rewrite Hd. cbn.
    eexists. split; [reflexivity|]. cbn. repeat split.
    + apply filter_In in H. tauto.
    + apply filter_In in H. destruct H as [_ H].
      now apply String.eqb_eq in H.
    + intros [Hin Hdoc]. apply filter_In. split; [exact Hin|].
      now apply String.eqb_eq.
  - intro Hlt. unfold Link.loadDocumentShare. rewrite Hs.
    apply N.ltb_lt in Hlt. now rewrite Hlt.
  - intros Hle Hused. unfold Link.loadDocumentShare. rewrite Hs.
    apply N.ltb_ge in Hle. now rewrite Hle, Hused.
Qed.

End SigningPageFacts.

(** A document with a field of a@b.c and a field of x@y.z. *)
Definition two_signers : list (Signature float) :=
  [Sample.field "A" pending 1 None;
   {| id := "C"; document_id := "d1"; signer_email := "x@y.z";
      signer_name := Some "X"; status := pending;
      x_position := 0.5; y_position := 0.5; page_number := 1;
      width := 150; height := 50;
      signed_at := None; signature_data := None;
      rejection_reason := None |}%float].

Definition draft_d1 : SigningPage.Document :=
  {| SigningPage.row := {| doc_id := "d1"; file_path := "u1/d1.pdf";
                           file_name := "contract.pdf" |};
     SigningPage.document_status := DocStatus.draft |}.

Definition token_page (tbl : list (Signature float))
    : SigningPage.World float :=
  {| SigningPage.table := tbl;
     SigningPage.documents := [draft_d1];
     SigningPage.page :=
       {| SigningPage.document := Some draft_d1;
          SigningPage.signatures :=
            filter (fun sig => String.eqb (document_id sig) "d1") tbl;
          SigningPage.activeSignature := None;
          SigningPage.currentUserEmail := Some "a@b.c";
          SigningPage.currentPage := 1;
          SigningPage.isPageRendered := false |} |}.

Lemma token_page_signs_only_own_pending_witness :
  let w := SigningPage.run (token_page two_signers)
             [SigningPage.PageRendered true; SigningPage.Click 1;
              SigningPage.Click 0] in
  Forall2 (signs_own (Some "a@b.c"))
          (SigningPage.table w)
          (SigningPage.table
             (SigningPage.step w
                (SigningPage.Complete Sample.png "t1" None true)))
  /\ map (@status float)
         (SigningPage.table
            (SigningPage.step w
               (SigningPage.Complete Sample.png "t1" None true)))
     = [signed; pending].
Proof.
  cbn zeta. split; [|vm_compute; reflexivity].
  apply (@token_page_signs_only_own_pending float "tok-a" two_links
           [draft_d1] two_signers
           (SigningPage.page (token_page two_signers))
           [SigningPage.PageRendered true; SigningPage.Click 1;
            SigningPage.Click 0]
           (SigningPage.Complete Sample.png "t1" None true)).
  - repeat constructor; cbn; intuition discriminate.
  - reflexivity.
Defined.

Lemma unsent_document_never_completes_witness :
  let w := SigningPage.run (token_page [Sample.field "A" pending 1 None])
             [SigningPage.PageRendered true; SigningPage.Click 0;
              SigningPage.Complete Sample.png "t1" None true] in
  map (@status float) (SigningPage.table w) = [signed]
  /\ SigningPage.documents w = [draft_d1]
  /\ SigningPage.document (SigningPage.page w) = Some draft_d1.
Proof.
  cbn zeta. split; [vm_compute; reflexivity|].
  apply (@unsent_document_never_completes float
           (token_page [Sample.field "A" pending 1 None])).
  intros d Hd. injection Hd as <-. discriminate.
Defined.

Lemma token_page_ignores_expiry_and_use_witness :
  (exists st,
     SigningPage.fetchData "tok-a" None None None two_links [draft_d1]
                           two_signers = inr st
     /\ SigningPage.currentUserEmail st = Some "a@b.c")
  /\ Link.loadDocumentShare "tok-a" 3000 None two_links two_signers
     = inl Link.Expired.
Proof.
  destruct (@token_page_ignores_expiry_and_use float "tok-a" two_links
              [draft_d1] two_signers
              {| Link.share := share_a; Link.token := "tok-a";
                 Link.expires_at := 2000; Link.used_at := None |}
              draft_d1 3000 None eq_refl eq_refl)
    as [[st [Hf [Hm _]]] [Hexp _]].
  split.
  - exists st. split; [exact Hf | exact Hm].
  - apply Hexp. reflexivity.
Defined.

(* ================================================================== *)
(** * Properties of [DocumentUpload] *)
(* ================================================================== *)

Section UploadFacts.

Lemma selected_is_pdf (choices : list (option Upload.File))
    (file0 : option Upload.File) (f : Upload.File) :
  (forall f0, file0 = Some f0 -> Upload.type f0 = "application/pdf") ->
  fold_left (fun file choice => Upload.handleFileSelect choice file)
            choices file0 = Some f ->
  Upload.type f = "application/pdf"
  /\ (file0 = Some f \/ In (Some f) choices).
Proof.
  revert file0. induction choices as [|c choices IH]; intros file0 H0 Hf.
  - cbn in Hf. split; [now apply H0 | now left].
  - cbn [fold_left] in Hf. apply IH in Hf.
    + destruct Hf as [Ht Hin]. split; [exact Ht|].
      destruct Hin as [Hin|Hin]; [|right; now right].
      unfold Upload.handleFileSelect in Hin.
      destruct c as [sel|]; [|now left].
      destruct (negb _); [now left|]. right. left. exact Hin.
    + intros f0. unfold Upload.handleFileSelect.
      destruct c as [sel|]; [|apply H0].
      destruct (String.eqb (Upload.type sel) "application/pdf") eqn:E; cbn.
      * intro Hs. injection Hs as <-. now apply String.eqb_eq.
      * apply H0.
Qed.

(** X20 (DocumentUpload, handleFileSelect and handleUpload): whatever
    files were chosen or dropped, in any order, the form sends to the
    storage only a file that was chosen and whose type is
    application/pdf, and only for a signed-in user; it inserts a
    document only after the storage accepted the file, for that file and
    the path the storage gave, and as a draft; it reports success only
    after the insert was accepted. *)
Theorem upload_sends_only_chosen_pdf (choices : list (option Upload.File))
    (title description : string) (user : option string) (now : N)
    (uploaded : string + string) (dbError : option string) :
  let calls := Upload.handleUpload (Upload.selected choices) title description
                 user now uploaded dbError in
  (forall fileName file, In (Upload.StorageUpload fileName file) calls ->
     Upload.type file = "application/pdf"
     /\ In (Some file) choices
     /\ Upload.selected choices = Some file
     /\ exists u, user = Some u /\ prefix (u ++ "/") fileName = true)
  /\ (forall row, In (Upload.InsertDocument row) calls ->
        Upload.status row = DocStatus.draft
        /\ uploaded = inr (Upload.new_file_path row)
        /\ user = Some (Upload.user_id row)
        /\ exists fileName file,
             calls = Upload.StorageUpload fileName file
                     :: Upload.InsertDocument row :: skipn 2 calls
             /\ Upload.new_file_name row = Upload.name file
             /\ Upload.file_size row = Upload.size file)
  /\ (In Upload.OnSuccess calls ->
      dbError = None
      /\ exists row, In (Upload.InsertDocument row) calls).
Proof.
  cbn zeta. unfold Upload.handleUpload.
  destruct (Upload.selected choices) as [f|] eqn:Es.
  2: { repeat split; intros; cbn in *; intuition discriminate. }
  assert (Hpdf : Upload.type f = "application/pdf"
                 /\ (None = Some f \/ In (Some f) choices)).
  { apply (@selected_is_pdf choices None f); [discriminate | exact Es]. }
  destruct Hpdf as [Ht [Hno|Hin]]; [discriminate|].
  destruct user as [u|].
  2: { repeat split; intros; cbn in *; intuition discriminate. }
  split; [|split].
  - intros fileName file Hc.
    assert (E : Upload.StorageUpload fileName file
                = Upload.StorageUpload
                    (u ++ "/" ++ show_N now ++ "."
                       ++ Upload.split_pop EmptyString (Upload.name f))%string
                    f).
    { destruct uploaded, dbError; cbn in Hc;
        repeat match goal with
               | H : _ \/ _ |- _ => destruct H as [H|H]
               | H : False |- _ => contradiction
               end; try discriminate; now symmetry. }
    injection E as -> ->. repeat split; auto.
    exists u. split; [reflexivity|].
    cbn. match goal with
         | |- prefix _ (_ ++ String _ ?r)%string = true => generalize r
         end.
    intro rest. clear. induction u as [|c u IH]; cbn.
    + destruct (Ascii.ascii_dec "/" "/"); [|congruence].
      now destruct rest.
    + destruct (Ascii.ascii_dec c c); [exact IH | congruence].
  - intros row Hc.
    destruct uploaded as [e|path], dbError; cbn in Hc;
      repeat match goal with
             | H : _ \/ _ |- _ => destruct H as [H|H]
             | H : False |- _ => contradiction
             end; try discriminate;
      injection Hc as <-; cbn; repeat split; eauto.
  - intro Hc.
    destruct uploaded as [e|path], dbError; cbn in Hc;
      repeat match goal with
             | H : _ \/ _ |- _ => destruct H as [H|H]
             | H : False |- _ => contradiction
             end; try discriminate.
    split; [reflexivity|]. eexists. cbn. right. left. reflexivity.
Qed.

End UploadFacts.

Definition contract_pdf : Upload.File :=
  {| Upload.name := "contract.v2.pdf"; Upload.type := "application/pdf";
     Upload.size := 120000 |}.

Definition notes_txt : Upload.File :=
  {| Upload.name := "notes.txt"; Upload.type := "text/plain";
     Upload.size := 300 |}.

Lemma upload_sends_only_chosen_pdf_witness :
  In (Upload.StorageUpload "u1/1700000000000.pdf" contract_pdf)
     (Upload.handleUpload
        (Upload.selected [Some contract_pdf; Some notes_txt; None])
        "Contract" "" (Some "u1") 1700000000000 (inr "u1/1700000000000.pdf")
        None)
  /\ Upload.type contract_pdf = "application/pdf"
  /\ In (Some contract_pdf) [Some contract_pdf; Some notes_txt; None].
Proof.
  assert (Hin : In (Upload.StorageUpload "u1/1700000000000.pdf" contract_pdf)
     (Upload.handleUpload
        (Upload.selected [Some contract_pdf; Some notes_txt; None])
        "Contract" "" (Some "u1") 1700000000000 (inr "u1/1700000000000.pdf")
        None)).
  { vm_compute. left. reflexivity. }
  split; [exact Hin|].
  destruct (proj1 (upload_sends_only_chosen_pdf
                     [Some contract_pdf; Some notes_txt; None]
                     "Contract" "" (Some "u1") 1700000000000
                     (inr "u1/1700000000000.pdf") None)
                  _ _ Hin) as [Ht [Hc _]].
  split; [exact Ht | exact Hc].
Defined.
